(** * MAKER: decomposition, first-to-ahead-by-K voting, red-flagging, synthesis

    A shallow embedding of the decision pipeline of the MAKER framework
    (core/voting.ts, core/red-flag-filter.ts, core/decomposer.ts,
    core/synthesizer.ts, prompts/index.ts and maker.ts) together with the
    properties of that pipeline.

    Modelling conventions.
    - JavaScript numbers that hold counts and thresholds are integers ([Z]).
    - JavaScript strings are [string]s of ASCII characters: [toLowerCase]
      maps A-Z to a-z, and the white space class is the ASCII part of the
      class shared by [String.prototype.trim] and the regular expression
      atom [\s] (tab, line feed, vertical tab, form feed, carriage return,
      space).  Strings with other characters are outside the model; on
      those JavaScript's [toLowerCase] can change the length of a string,
      so no statement relies on lower-casing keeping the length.
    - Synchronous code that can throw returns a value or the error it
      threw ([Try]); reading a property of [null] or [undefined] throws a
      TypeError.
    - A [Map] is an association list in insertion order, because iteration
      order decides which of several tied buckets is reported.
    - Asynchronous code is sequential code in a monad that threads the
      number of oracle calls made so far and the log of emitted events, and
      that can raise; the unbounded voting loop takes a fuel argument. *)

From Stdlib Require Import List String Ascii ZArith QArith Bool Arith Lia.
From Stdlib Require Import Permutation DecimalString DecimalN.
Import ListNotations.

Local Open Scope string_scope.
Local Open Scope list_scope.
Local Open Scope Z_scope.

(* ================================================================== *)
(** ** Strings *)

Module JsString.

(** The ASCII members of the ECMAScript WhiteSpace and LineTerminator
    productions. *)
Definition isWhiteSpace (c : ascii) : bool :=
  let n := nat_of_ascii c in
  (n =? 32)%nat || ((9 <=? n)%nat && (n <=? 13)%nat).

(** The character class [[.,!?;:]]. *)
Definition isTrailingPunct (c : ascii) : bool :=
  let n := nat_of_ascii c in
  (n =? 46)%nat || (n =? 44)%nat || (n =? 33)%nat
  || (n =? 63)%nat || (n =? 59)%nat || (n =? 58)%nat.

Definition lowerChar (c : ascii) : ascii :=
  let n := nat_of_ascii c in
  if ((65 <=? n)%nat && (n <=? 90)%nat)%bool
  then ascii_of_nat (n + 32) else c.

Fixpoint dropWhile (p : ascii -> bool) (l : list ascii) : list ascii :=
  match l with
  | [] => []
  | c :: r => if p c then dropWhile p r else l
  end.

Definition dropWhileEnd (p : ascii -> bool) (l : list ascii) : list ascii :=
  rev (dropWhile p (rev l)).

(** [s.replace(/\s+/g, ' ')] on a list of characters; [inRun] tells
    whether the previous character belonged to the run being replaced. *)
Fixpoint collapseRuns (inRun : bool) (l : list ascii) : list ascii :=
  match l with
  | [] => []
  | c :: r =>
      if isWhiteSpace c
      then (if inRun then collapseRuns true r
            else " "%char :: collapseRuns true r)
      else c :: collapseRuns false r
  end.

Definition onChars (f : list ascii -> list ascii) (s : string) : string :=
  string_of_list_ascii (f (list_ascii_of_string s)).

(** [s.toLowerCase()] on ASCII input. *)
Definition toLowerCase : string -> string := onChars (map lowerChar).

Definition trim : string -> string :=
  onChars (fun l => dropWhileEnd isWhiteSpace (dropWhile isWhiteSpace l)).

(** [.replace(/\s+/g, ' ')] *)
Definition replaceWhiteSpaceRuns : string -> string :=
  onChars (collapseRuns false).

(** [.replace(/[.,!?;:]+$/, '')]: the leftmost match of the pattern is
    the whole run of punctuation that ends the string. *)
Definition stripTrailingPunct : string -> string :=
  onChars (dropWhileEnd isTrailingPunct).

(** JavaScript truthiness of a string. *)
Definition truthy (s : string) : bool :=
  match s with EmptyString => false | String _ _ => true end.

Definition endsWithWhiteSpace (s : string) : bool :=
  match rev (list_ascii_of_string s) with
  | [] => false
  | c :: _ => isWhiteSpace c
  end.

Definition length (s : string) : Z := Z.of_nat (String.length s).

End JsString.

(* ================================================================== *)
(** ** Types (types/index.ts) *)

Inductive ConfidenceLevel := high | medium | low.

Inductive QuestionType :=
  factual | comparative | multi_hop | aggregative | procedural | analytical.

Inductive RedFlagReason :=
  | response_too_long
  | response_too_short
  | circular_reasoning
  | invalid_format
  | low_confidence_error
  | custom.

Record RedFlagResult := mkRedFlagResult {
  redFlagged : bool;
  reason : option RedFlagReason
}.

Record RedFlagConfig := mkRedFlagConfig {
  cfg_maxTokens : option Z;
  cfg_minChars : option Z;
  cfg_customValidator : option (string -> RedFlagResult)
}.

Definition confidence_eqb (a b : ConfidenceLevel) : bool :=
  match a, b with
  | high, high | medium, medium | low, low => true
  | _, _ => false
  end.

(** [a ?? b] *)
Definition nullish {A} (a : option A) (b : A) : A :=
  match a with Some x => x | None => b end.

(* ================================================================== *)
(** ** Red-flag filter (core/red-flag-filter.ts) *)

Module RedFlagFilter.

Record t := mk {
  maxTokens : Z;
  minChars : Z;
  customValidator : option (string -> RedFlagResult)
}.

Definition new (config : RedFlagConfig) : t :=
  {| maxTokens := nullish (cfg_maxTokens config) 750;
     minChars := nullish (cfg_minChars config) 5;
     customValidator := cfg_customValidator config |}.

Definition default : t := new (mkRedFlagConfig None None None).

(** [Math.ceil(n / 4)] for a length [n]. *)
Definition estimateTokens (n : Z) : Z := (n + 3) / 4.

Definition check (f : t) (answer : string) (parseSucceeded : bool)
  : RedFlagResult :=
  if negb (JsString.truthy answer)
  then mkRedFlagResult true (Some response_too_short)
  else
    let trimmedAnswer := JsString.trim answer in
    let estimatedTokens := estimateTokens (JsString.length trimmedAnswer) in
    if estimatedTokens >? maxTokens f
    then mkRedFlagResult true (Some response_too_long)
    else if JsString.length trimmedAnswer <? minChars f
    then mkRedFlagResult true (Some response_too_short)
    else if negb parseSucceeded
    then mkRedFlagResult true (Some invalid_format)
    else
      match customValidator f with
      | Some validate =>
          let customResult := validate trimmedAnswer in
          if redFlagged customResult then customResult
          else mkRedFlagResult false None
      | None => mkRedFlagResult false None
      end.

End RedFlagFilter.

(* ================================================================== *)
(** ** Data model (types/index.ts) *)

Module VotingStats.
Record t := mk {
  totalVotes : Z;
  validVotes : Z;
  redFlaggedVotes : Z;
  winningVoteCount : Z;
  margin : Z;
  k : Z
}.
End VotingStats.

Module Vote.
Record t := mk {
  voteIndex : Z;
  answer : string;
  confidence : ConfidenceLevel;
  reasoning : option string;
  temperature : Q;
  parseSucceeded : option bool;
  redFlagged : option bool;
  redFlagReason : option RedFlagReason
}.

(** [vote.redFlagged = true; vote.redFlagReason = reason] *)
Definition flag (v : t) (r : option RedFlagReason) : t :=
  {| voteIndex := voteIndex v; answer := answer v;
     confidence := confidence v; reasoning := reasoning v;
     temperature := temperature v; parseSucceeded := parseSucceeded v;
     redFlagged := Some true; redFlagReason := r |}.
End Vote.

Module VoteData.
Record t := mk {
  count : Z;
  originalAnswer : string;
  confidence : ConfidenceLevel
}.
End VoteData.

(** [Map<string, VoteData>], in insertion order. *)
Definition Tally := list (string * VoteData.t).

Module VotingResult.
Record t := mk {
  consensusReached : bool;
  winner : option string;
  confidence : option ConfidenceLevel;
  stats : VotingStats.t
}.
End VotingResult.

Module SubQuestion.
Record t := mk {
  id : string;
  question : string;
  dependencies : list string;
  type : QuestionType;
  index : option Z
}.
End SubQuestion.

Module Classification.
Record t := mk {
  needsDecomposition : bool;
  complexity : Z;
  questionType : QuestionType;
  reasoning : option string
}.
End Classification.

Module SubQuestionResult.
Record t := mk {
  question : string;
  answer : string;
  confidence : ConfidenceLevel;
  consensusReached : bool;
  votingStats : VotingStats.t
}.
End SubQuestionResult.

(** [executionTimeMs], a difference of two clock readings, is left out. *)
Module MakerResult.
Record t := mk {
  answer : string;
  confidence : ConfidenceLevel;
  consensusReached : bool;
  isDecomposed : bool;
  subQuestions : list SubQuestionResult.t;
  synthesisStrategy : string;
  votingStats : VotingStats.t;
  totalTokens : Z
}.
End MakerResult.

Record VotingConfig := mkVotingConfig {
  cfg_k : option Z;
  cfg_maxVotes : option Z
}.

Record SynthesisConfig := mkSynthesisConfig {
  cfg_synthesize : option bool;
  cfg_language : option string;
  cfg_synthesisPrompt : option string
}.

Record AskOptions := mkAskOptions {
  opt_context : option string;
  opt_k : option Z
}.

(* ================================================================== *)
(** ** The oracle *)

(** What a request asks for.  The text of the templates (prompts/index.ts)
    is not modelled: a prompt is the template it was built from and the
    arguments that were substituted into it. *)
Inductive Prompt :=
  | PromptClassify (question : string) (context : option string)
  | PromptDecompose (question : string) (context : option string)
      (maxSubQuestions : Z)
  | PromptDecomposeCustom (template question context : string)
  | PromptAnswer (question context : string)
  | PromptSynthesize (originalQuestion : string)
      (subAnswers : list SubQuestionResult.t) (language : string)
  | PromptSynthesizeDE (originalQuestion : string)
      (subAnswers : list SubQuestionResult.t)
  | PromptSynthesizeCustom (template originalQuestion : string)
      (subAnswers : list SubQuestionResult.t) (language : string).

Record CompletionRequest := mkRequest {
  req_prompt : Prompt;
  req_temperature : Q;
  req_json : bool
}.

(** The properties the parser reads from one entry of the [subQuestions]
    array of a structured response.  An entry that is a number, a string
    or a boolean has none of them. *)
Record RawSubQuestion := mkRawSubQuestion {
  raw_id : option string;
  raw_question : option string;
  raw_dependencies : option (list string);
  raw_type : option QuestionType
}.

(** The properties the pipeline reads from a structured response, each
    absent ([None]) or holding the value JavaScript's [String], [Number]
    or [Boolean] coercion gives for it.  An entry of the [subQuestions]
    array is [None] when it is [null] or [undefined], the two values whose
    properties cannot be read. *)
Record ResponseObject := mkResponseObject {
  obj_answer : option string;
  obj_confidence : option ConfidenceLevel;
  obj_needsDecomposition : bool;
  obj_complexity : option Z;
  obj_questionType : option QuestionType;
  obj_reasoning : option string;
  obj_subQuestions : option (list (option RawSubQuestion));
  obj_synthesisStrategy : option string;
  obj_finalAnswer : option string
}.

Definition emptyObject : ResponseObject :=
  mkResponseObject None None false None None None None None None.

Inductive Content :=
  | ContentString (s : string)
  | ContentObject (o : ResponseObject)
  | ContentNull.

Record CompletionResponse := mkResponse {
  content : Content;
  raw : string
}.

Inductive Completion :=
  | Resolved (r : CompletionResponse)
  | Rejected (error : string).

(** An oracle answers the [n]-th call of a run (counting from 0); the
    answer may depend on the request and on [n] in any way, which covers
    every deterministic stateful provider. *)
Record LLMProvider := mkProvider {
  complete : nat -> CompletionRequest -> Completion
}.

(* ================================================================== *)
(** ** Effects: oracle calls, progress events, exceptions, fuel *)

Inductive Event :=
  | classificationComplete (c : Classification.t)
  | decomposed (subQuestions : list SubQuestion.t)
  | votingStart (subQuestionIndex : Z) (question : string)
  | voteProgress (subQuestionIndex voteIndex : Z)
      (voteCounts : list (string * Z)) (flagged : bool)
  | voteCollected (subQuestionIndex voteIndex : Z) (flagged : bool)
  | votingComplete (subQuestionIndex : Z) (consensus : bool)
      (answer : string)
  | redFlaggedEvent (answer : string) (r : RedFlagReason)
  | subQuestionResolved (index : Z) (result : SubQuestionResult.t)
  | synthesisStart (subAnswers : list SubQuestionResult.t)
  | synthesisComplete (answer : string)
  | completeEvent (result : MakerResult.t).

Record World := mkWorld {
  calls : nat;
  events : list Event
}.

Inductive Outcome (A : Type) :=
  | Ok (a : A) (w : World)
  | Throw (error : string) (w : World)
  | OutOfFuel.
Arguments Ok {A} a w.
Arguments Throw {A} error w.
Arguments OutOfFuel {A}.

Definition M (A : Type) := World -> Outcome A.

Definition ret {A} (a : A) : M A := fun w => Ok a w.

Definition bind {A B} (m : M A) (f : A -> M B) : M B :=
  fun w =>
    match m w with
    | Ok a w' => f a w'
    | Throw e w' => Throw e w'
    | OutOfFuel => OutOfFuel
    end.

Definition tryCatch {A} (m : M A) (handler : string -> M A) : M A :=
  fun w =>
    match m w with
    | Ok a w' => Ok a w'
    | Throw e w' => handler e w'
    | OutOfFuel => OutOfFuel
    end.

Definition outOfFuel {A} : M A := fun _ => OutOfFuel.

Definition emit (e : Event) : M unit :=
  fun w => Ok tt (mkWorld (calls w) (events w ++ [e])).

Definition emitAll (es : list Event) : M unit :=
  fun w => Ok tt (mkWorld (calls w) (events w ++ es)).

(** [await provider.complete(request)] *)
Definition await_complete (provider : LLMProvider) (request : CompletionRequest)
  : M CompletionResponse :=
  fun w =>
    let w' := mkWorld (S (calls w)) (events w) in
    match complete provider (calls w) request with
    | Resolved r => Ok r w'
    | Rejected e => Throw e w'
    end.

Notation "x <- m ;; f" := (bind m (fun x => f))
  (at level 61, m at next level, right associativity).
Notation "m ;;; f" := (bind m (fun _ => f))
  (at level 61, right associativity).

(* ================================================================== *)
(** ** Voting engine (core/voting.ts) *)

(** [xs.sort((a, b) => key(b) - key(a))]: descending by [key], and stable,
    as [Array.prototype.sort] is. *)
Fixpoint insertDesc {A} (key : A -> Z) (x : A) (l : list A) : list A :=
  match l with
  | [] => [x]
  | y :: r => if key y <=? key x then x :: l else y :: insertDesc key x r
  end.

Fixpoint sortDesc {A} (key : A -> Z) (l : list A) : list A :=
  match l with
  | [] => []
  | x :: r => insertDesc key x (sortDesc key r)
  end.

(** [Math.max(x, ...xs)] and [Math.min(x, ...xs)] of a non-empty list. *)
Definition Math_max (x : Z) (xs : list Z) : Z := fold_left Z.max xs x.
Definition Math_min (x : Z) (xs : list Z) : Z := fold_left Z.min xs x.

Module VotingEngine.

Definition DEFAULT_k : Z := 3.
Definition DEFAULT_maxVotes : Z := 100.

(** The deprecated [samples] and [temperatures] fields only serve the
    deprecated [collectVotes] and are left out. *)
Record t := mk {
  k : Z;
  maxVotes : Z
}.

Definition new (config : VotingConfig) : t :=
  {| k := nullish (cfg_k config) DEFAULT_k;
     maxVotes := nullish (cfg_maxVotes config) DEFAULT_maxVotes |}.

Definition getK (e : t) : Z := k e.

Definition normalizeAnswer (answer : string) : string :=
  if negb (JsString.truthy answer) then ""%string
  else JsString.stripTrailingPunct
         (JsString.replaceWhiteSpaceRuns
            (JsString.trim (JsString.toLowerCase answer))).

Definition order (c : ConfidenceLevel) : Z :=
  match c with high => 3 | medium => 2 | low => 1 end.

Definition compareConfidence (a b : ConfidenceLevel) : Z :=
  order a - order b.

(** The tally update both [voteUntilConsensus] and [countVotes] perform
    for a vote whose normalized answer is [normalized]:
    [counts.get(normalized)], then either the in-place update of the
    existing entry or [counts.set] of a new one at the end. *)
Fixpoint recordVote (voteCounts : Tally) (normalized : string)
    (vote : Vote.t) : Tally :=
  match voteCounts with
  | [] =>
      [(normalized,
        {| VoteData.count := 1;
           VoteData.originalAnswer := Vote.answer vote;
           VoteData.confidence := Vote.confidence vote |})]
  | (key, existing) :: rest =>
      if String.eqb key normalized
      then (key,
            {| VoteData.count := VoteData.count existing + 1;
               VoteData.originalAnswer := VoteData.originalAnswer existing;
               VoteData.confidence :=
                 if compareConfidence (Vote.confidence vote)
                      (VoteData.confidence existing) >? 0
                 then Vote.confidence vote
                 else VoteData.confidence existing |}) :: rest
      else (key, existing) :: recordVote rest normalized vote
  end.

Definition countVotes (votes : list Vote.t) : Tally :=
  fold_left
    (fun counts vote =>
       let normalized := normalizeAnswer (Vote.answer vote) in
       if negb (JsString.truthy normalized) then counts
       else recordVote counts normalized vote)
    votes [].

Definition createStats (e : t) (allVotes validVotes : list Vote.t)
    (winningVoteCount runnerUpVotes : Z) : VotingStats.t :=
  {| VotingStats.totalVotes := Z.of_nat (List.length allVotes);
     VotingStats.validVotes := Z.of_nat (List.length validVotes);
     VotingStats.redFlaggedVotes :=
       Z.of_nat (List.length allVotes) - Z.of_nat (List.length validVotes);
     VotingStats.winningVoteCount := winningVoteCount;
     VotingStats.margin := winningVoteCount - runnerUpVotes;
     VotingStats.k := k e |}.

Definition entryCount (entry : string * VoteData.t) : Z :=
  VoteData.count (snd entry).

Definition determineWinner (e : t) (votes : list Vote.t) : VotingResult.t :=
  let validVotes :=
    filter (fun v => negb (nullish (Vote.redFlagged v) false)) votes in
  if (List.length validVotes =? 0)%nat
  then {| VotingResult.consensusReached := false;
          VotingResult.winner := None;
          VotingResult.confidence := None;
          VotingResult.stats := createStats e votes validVotes 0 0 |}
  else
    let voteCounts := countVotes validVotes in
    let sorted := sortDesc entryCount voteCounts in
    match sorted with
    | [] =>
        {| VotingResult.consensusReached := false;
           VotingResult.winner := None;
           VotingResult.confidence := None;
           VotingResult.stats := createStats e votes validVotes 0 0 |}
    | (_, winnerData) :: others =>
        let winnerVotes := VoteData.count winnerData in
        let runnerUpVotes :=
          match others with
          | runnerUp :: _ => VoteData.count (snd runnerUp)
          | [] => 0
          end in
        let consensusReached :=
          if (List.length sorted =? 1)%nat
          then winnerVotes >=? k e
          else (winnerVotes - runnerUpVotes) >=? k e in
        {| VotingResult.consensusReached := consensusReached;
           VotingResult.winner := Some (VoteData.originalAnswer winnerData);
           VotingResult.confidence := Some (VoteData.confidence winnerData);
           VotingResult.stats :=
             createStats e votes validVotes winnerVotes runnerUpVotes |}
    end.

(** The response of a call that resolved, read as a vote. *)
Definition parseVote (response : CompletionResponse) (temperature : Q)
    (voteIndex : Z) : Vote.t :=
  match content response with
  | ContentObject o =>
      match obj_answer o with
      | Some a =>
          Vote.mk voteIndex a (nullish (obj_confidence o) medium)
            (obj_reasoning o) temperature (Some true) None None
      | None =>
          Vote.mk voteIndex "" medium None temperature (Some false) None None
      end
  | ContentString s =>
      Vote.mk voteIndex s medium None temperature (Some false) None None
  | ContentNull =>
      Vote.mk voteIndex "" medium None temperature (Some false) None None
  end.

Definition generateVote (provider : LLMProvider) (question context : string)
    (temperature : Q) (voteIndex : Z) : M Vote.t :=
  tryCatch
    (response <- await_complete provider
                   (mkRequest (PromptAnswer question context)
                      temperature true) ;;
     ret (parseVote response temperature voteIndex))
    (fun _ =>
       ret (Vote.mk voteIndex "" low None temperature (Some false)
              (Some true) (Some invalid_format))).

(** The variables of [voteUntilConsensus] that live across iterations. *)
Record LoopState := mkLoop {
  voteCounts : Tally;
  allVotes : list Vote.t;
  validVoteCount : Z;
  voteIndex : Z
}.

Definition initial : LoopState := mkLoop [] [] 0 0.

Inductive Step :=
  | Continue (st : LoopState)
  | Return (r : VotingResult.t).

(** The result returned at the safety limit. *)
Definition bestGuess (e : t) (st : LoopState) : VotingResult.t :=
  let sorted := sortDesc entryCount (voteCounts st) in
  let winnerData := option_map snd (nth_error sorted 0) in
  let runnerUpData := option_map snd (nth_error sorted 1) in
  let total := Z.of_nat (List.length (allVotes st)) in
  {| VotingResult.consensusReached := false;
     VotingResult.winner := option_map VoteData.originalAnswer winnerData;
     VotingResult.confidence := option_map VoteData.confidence winnerData;
     VotingResult.stats :=
       {| VotingStats.totalVotes := total;
          VotingStats.validVotes := validVoteCount st;
          VotingStats.redFlaggedVotes := total - validVoteCount st;
          VotingStats.winningVoteCount :=
            nullish (option_map VoteData.count winnerData) 0;
          VotingStats.margin :=
            nullish (option_map VoteData.count winnerData) 0
            - nullish (option_map VoteData.count runnerUpData) 0;
          VotingStats.k := k e |} |}.

(** [sortedCounts.length > 1 ? sortedCounts[1] : 0] *)
Definition second (sortedCounts : list Z) : Z :=
  match sortedCounts with
  | _ :: c :: _ => c
  | _ => 0
  end.

(** The checks made once the tally has been updated: the
    first-to-ahead-by-K test, then the safety limit. *)
Definition decide (e : t) (st : LoopState) : Step :=
  let counts := map entryCount (voteCounts st) in
  match counts with
  | [] => Continue st
  | c :: cs =>
      let maxCount := Math_max c cs in
      let sortedCounts := sortDesc (fun x => x) counts in
      let runnerUpCount := second sortedCounts in
      let total := Z.of_nat (List.length (allVotes st)) in
      match
        (if maxCount >=? k e + runnerUpCount
         then find (fun entry => entryCount entry =? maxCount)
                (voteCounts st)
         else None)
      with
      | Some (_, data) =>
          Return
            {| VotingResult.consensusReached := true;
               VotingResult.winner := Some (VoteData.originalAnswer data);
               VotingResult.confidence := Some (VoteData.confidence data);
               VotingResult.stats :=
                 {| VotingStats.totalVotes := total;
                    VotingStats.validVotes := validVoteCount st;
                    VotingStats.redFlaggedVotes :=
                      total - validVoteCount st;
                    VotingStats.winningVoteCount := maxCount;
                    VotingStats.margin := maxCount - runnerUpCount;
                    VotingStats.k := k e |} |}
      | None =>
          if total >=? maxVotes e then Return (bestGuess e st)
          else Continue st
      end
  end.

(** What one iteration of the loop does with the sample it drew.  The
    iteration calls [onVote] exactly once, on every path, before any
    check of the tally; the first two components are the arguments of
    that call. *)
Definition processVote (e : t) (redFlagFilter : RedFlagFilter.t)
    (st : LoopState) (vote : Vote.t) : Vote.t * Tally * Step :=
  let voteIndex' := voteIndex st + 1 in
  let flagResult :=
    RedFlagFilter.check redFlagFilter (Vote.answer vote)
      (nullish (Vote.parseSucceeded vote) true) in
  if redFlagged flagResult
  then
    let vote' := Vote.flag vote (reason flagResult) in
    (vote', voteCounts st,
     Continue (mkLoop (voteCounts st) (allVotes st ++ [vote'])
                 (validVoteCount st) voteIndex'))
  else
    let validVoteCount' := validVoteCount st + 1 in
    let normalized := normalizeAnswer (Vote.answer vote) in
    if negb (JsString.truthy normalized)
    then
      (vote, voteCounts st,
       Continue (mkLoop (voteCounts st) (allVotes st ++ [vote])
                   validVoteCount' voteIndex'))
    else
      let voteCounts' := recordVote (voteCounts st) normalized vote in
      (vote, voteCounts',
       decide e (mkLoop voteCounts' (allVotes st ++ [vote])
                   validVoteCount' voteIndex')).

(** A progress callback only emits events. *)
Definition OnVote := Vote.t -> Tally -> list Event.

Fixpoint voteLoop (fuel : nat) (e : t) (provider : LLMProvider)
    (question context : string) (redFlagFilter : RedFlagFilter.t)
    (onVote : option OnVote) (st : LoopState) : M VotingResult.t :=
  match fuel with
  | O => outOfFuel
  | S fuel' =>
      let temperature := if voteIndex st =? 0 then 0%Q else (1 # 10)%Q in
      vote <- generateVote provider question context temperature
                (voteIndex st) ;;
      let '(vote', shown, step) := processVote e redFlagFilter st vote in
      emitAll (match onVote with Some f => f vote' shown | None => [] end) ;;;
      match step with
      | Continue st' =>
          voteLoop fuel' e provider question context redFlagFilter onVote st'
      | Return r => ret r
      end
  end.

Definition voteUntilConsensus (fuel : nat) (e : t) (provider : LLMProvider)
    (question context : string) (redFlagFilter : RedFlagFilter.t)
    (onVote : option OnVote) : M VotingResult.t :=
  voteLoop fuel e provider question context redFlagFilter onVote initial.

End VotingEngine.

(* ================================================================== *)
(** ** Response parsers (prompts/index.ts) *)

(** [x || d] for a string-valued property. *)
Definition orFalsy (x : option string) (d : string) : string :=
  match x with
  | Some s => if JsString.truthy s then s else d
  | None => d
  end.

Definition decimal (n : Z) : string :=
  NilEmpty.string_of_uint (N.to_uint (Z.to_N n)).

Fixpoint mapi {A B} (f : A -> Z -> B) (index : Z) (l : list A) : list B :=
  match l with
  | [] => []
  | x :: r => f x index :: mapi f (index + 1) r
  end.

Definition parseClassification (response : Content) : Classification.t :=
  match response with
  | ContentObject r =>
      {| Classification.needsDecomposition := obj_needsDecomposition r;
         Classification.complexity :=
           match obj_complexity r with
           | Some z => if z =? 0 then 5 else z
           | None => 5
           end;
         Classification.questionType := nullish (obj_questionType r) factual;
         Classification.reasoning := Some (orFalsy (obj_reasoning r) "") |}
  | _ =>
      {| Classification.needsDecomposition := false;
         Classification.complexity := 5;
         Classification.questionType := factual;
         Classification.reasoning := None |}
  end.

(** What synchronous code gives: a value, or the error it threw. *)
Inductive Try (A : Type) :=
  | Returned (a : A)
  | Thrown (error : string).
Arguments Returned {A} a.
Arguments Thrown {A} error.

(** The error of reading a property of [null] or [undefined].  Its message
    depends on the engine; the model keeps the name of the error. *)
Definition TypeError : string := "TypeError".

(** [xs.map((x, index) => f(x, index))] for a callback that can throw: the
    entries are visited in order and the first error ends the call. *)
Fixpoint mapiTry {A B} (f : A -> Z -> Try B) (index : Z) (l : list A)
  : Try (list B) :=
  match l with
  | [] => Returned []
  | x :: r =>
      match f x index with
      | Thrown error => Thrown error
      | Returned y =>
          match mapiTry f (index + 1) r with
          | Thrown error => Thrown error
          | Returned ys => Returned (y :: ys)
          end
      end
  end.

(** The callback of [parseDecomposition]: [sqObj.id] is the first property
    it reads, which throws when the entry is [null] or [undefined]. *)
Definition parseSubQuestion (sq : option RawSubQuestion) (index : Z)
  : Try SubQuestion.t :=
  match sq with
  | None => Thrown TypeError
  | Some sqObj =>
      Returned
        {| SubQuestion.id :=
             orFalsy (raw_id sqObj) ("sq" ++ decimal (index + 1));
           SubQuestion.question := orFalsy (raw_question sqObj) "";
           SubQuestion.dependencies := nullish (raw_dependencies sqObj) [];
           SubQuestion.type := nullish (raw_type sqObj) factual;
           SubQuestion.index := Some index |}
  end.

Definition parseDecomposition (response : Content)
  : Try (list SubQuestion.t * string) :=
  match response with
  | ContentObject r =>
      match
        (match obj_subQuestions r with
         | Some sqs => mapiTry parseSubQuestion 0 sqs
         | None => Returned []
         end)
      with
      | Thrown error => Thrown error
      | Returned subQuestions =>
          Returned
            (subQuestions, orFalsy (obj_synthesisStrategy r) "combine")
      end
  | _ => Returned ([], "combine"%string)
  end.

(** Synchronous code inside an asynchronous function: what it throws
    rejects the promise. *)
Definition sync {A} (t : Try A) : M A :=
  fun w =>
    match t with
    | Returned a => Ok a w
    | Thrown error => Throw error w
    end.

Definition parseSynthesis (response : Content) : string * ConfidenceLevel :=
  match response with
  | ContentObject r =>
      (orFalsy (obj_finalAnswer r) (orFalsy (obj_answer r) ""),
       nullish (obj_confidence r) medium)
  | ContentString s => (s, medium)
  | ContentNull => (""%string, low)
  end.

(* ================================================================== *)
(** ** Decomposer (core/decomposer.ts) *)

Module Decomposer.

Inductive Classifier :=
  | Auto
  | Custom (f : string -> option string -> M Classification.t).

Record Config := mkConfig {
  cfg_enabled : option bool;
  cfg_maxSubQuestions : option Z;
  cfg_classifier : option Classifier;
  cfg_prompt : option string
}.

Definition noConfig : Config := mkConfig None None None None.

Record t := mk {
  provider : LLMProvider;
  enabled : bool;
  maxSubQuestions : Z;
  classifier : Classifier;
  customPrompt : option string
}.

Definition new (provider : LLMProvider) (config : Config) : t :=
  {| provider := provider;
     enabled := nullish (cfg_enabled config) true;
     maxSubQuestions := nullish (cfg_maxSubQuestions config) 8;
     classifier := nullish (cfg_classifier config) Auto;
     customPrompt := cfg_prompt config |}.

Record Plan := mkPlan {
  subQuestions : list SubQuestion.t;
  synthesisStrategy : string;
  classification : Classification.t
}.

Definition classify (d : t) (question : string) (context : option string)
  : M Classification.t :=
  match classifier d with
  | Custom f => f question context
  | Auto =>
      response <- await_complete (provider d)
                    (mkRequest (PromptClassify question context) 0%Q true) ;;
      ret (parseClassification (content response))
  end.

Definition createSingleSubQuestion (question : string)
    (type : option QuestionType) : SubQuestion.t :=
  {| SubQuestion.id := "sq1";
     SubQuestion.question := question;
     SubQuestion.dependencies := [];
     SubQuestion.type := nullish type factual;
     SubQuestion.index := Some 0 |}.

(** [xs.slice(0, n)] *)
Definition slice0 {A} (n : Z) (xs : list A) : list A :=
  if n <? 0
  then firstn (List.length xs - Z.to_nat (- n)) xs
  else firstn (Z.to_nat n) xs.

Definition decompose (d : t) (question : string) (context : option string)
  : M Plan :=
  if negb (enabled d)
  then
    ret {| subQuestions := [createSingleSubQuestion question None];
           synthesisStrategy := "none";
           classification :=
             {| Classification.needsDecomposition := false;
                Classification.complexity := 1;
                Classification.questionType := factual;
                Classification.reasoning := None |} |}
  else
    classification <- classify d question context ;;
    if negb (Classification.needsDecomposition classification)
    then
      ret {| subQuestions :=
               [createSingleSubQuestion question
                  (Some (Classification.questionType classification))];
             synthesisStrategy := "none";
             classification := classification |}
    else
      let prompt :=
        match customPrompt d with
        | Some template =>
            if JsString.truthy template
            then PromptDecomposeCustom template question
                   (orFalsy context "")
            else PromptDecompose question context (maxSubQuestions d)
        | None => PromptDecompose question context (maxSubQuestions d)
        end in
      response <- await_complete (provider d) (mkRequest prompt 0%Q true) ;;
      parsed <- sync (parseDecomposition (content response)) ;;
      let subQuestions :=
        if Z.of_nat (List.length (fst parsed)) >? maxSubQuestions d
        then slice0 (maxSubQuestions d) (fst parsed)
        else fst parsed in
      if (List.length subQuestions =? 0)%nat
      then
        ret {| subQuestions :=
                 [createSingleSubQuestion question
                    (Some (Classification.questionType classification))];
               synthesisStrategy := "none";
               classification := classification |}
      else
        ret {| subQuestions := subQuestions;
               synthesisStrategy := snd parsed;
               classification := classification |}.

End Decomposer.

(* ================================================================== *)
(** ** Synthesizer (core/synthesizer.ts) *)

Module Synthesizer.

Record t := mk {
  provider : LLMProvider;
  enabled : bool;
  language : string;
  customPrompt : option string
}.

Definition new (provider : LLMProvider) (config : SynthesisConfig) : t :=
  {| provider := provider;
     enabled := nullish (cfg_synthesize config) true;
     language := nullish (cfg_language config) "English"%string;
     customPrompt := cfg_synthesisPrompt config |}.

Record Synthesis := mkSynthesis {
  answer : string;
  confidence : ConfidenceLevel
}.

Definition countConfidence (c : ConfidenceLevel)
    (subAnswers : list SubQuestionResult.t) : Z :=
  Z.of_nat
    (List.length
       (filter (fun sa => confidence_eqb (SubQuestionResult.confidence sa) c)
          subAnswers)).

Definition calculateConfidence (synthesisConfidence : ConfidenceLevel)
    (subAnswers : list SubQuestionResult.t) : ConfidenceLevel :=
  if confidence_eqb synthesisConfidence low
     || (countConfidence low subAnswers >? 0)
  then low
  else if confidence_eqb synthesisConfidence medium
          || (countConfidence medium subAnswers
              >? countConfidence high subAnswers)
  then medium
  else high.

Definition fallbackSynthesis (subAnswers : list SubQuestionResult.t)
  : string :=
  match subAnswers with
  | [] => "Unable to determine answer."%string
  | [sa] => SubQuestionResult.answer sa
  | _ =>
      String.concat " "
        (map SubQuestionResult.answer
           (filter
              (fun sa =>
                 JsString.truthy (SubQuestionResult.answer sa)
                 && JsString.truthy
                      (JsString.trim (SubQuestionResult.answer sa)))
              subAnswers))
  end.

Definition synthesize (s : t) (originalQuestion : string)
    (subAnswers : list SubQuestionResult.t) : M Synthesis :=
  if negb (enabled s) || (List.length subAnswers =? 0)%nat
  then
    ret {| answer :=
             nullish (option_map SubQuestionResult.answer
                        (nth_error subAnswers 0))
               "Unable to determine answer."%string;
           confidence :=
             nullish (option_map SubQuestionResult.confidence
                        (nth_error subAnswers 0))
               low |}
  else
    match subAnswers with
    | [sa] =>
        ret {| answer := SubQuestionResult.answer sa;
               confidence := SubQuestionResult.confidence sa |}
    | _ =>
        let prompt :=
          if JsString.truthy (orFalsy (customPrompt s) "")
          then PromptSynthesizeCustom (orFalsy (customPrompt s) "")
                 originalQuestion subAnswers (language s)
          else if String.prefix "de" (JsString.toLowerCase (language s))
          then PromptSynthesizeDE originalQuestion subAnswers
          else PromptSynthesize originalQuestion subAnswers (language s) in
        response <- await_complete (provider s) (mkRequest prompt 0%Q true) ;;
        let parsed := parseSynthesis (content response) in
        ret {| answer :=
                 if JsString.truthy (fst parsed) then fst parsed
                 else fallbackSynthesis subAnswers;
               confidence := calculateConfidence (snd parsed) subAnswers |}
    end.

End Synthesizer.

(* ================================================================== *)
(** ** Orchestrator (maker.ts) *)

Module Maker.

Inductive ProviderChoice :=
  | ProviderName (name : string)
  | ProviderObject (p : LLMProvider).

Record Config := mkConfig {
  cfg_provider : ProviderChoice;
  cfg_azureConfigured : bool;
  cfg_decomposition : option Decomposer.Config;
  cfg_voting : option VotingConfig;
  cfg_redFlags : option RedFlagConfig;
  cfg_synthesis : option SynthesisConfig
}.

(** The clients of providers/openai.ts, providers/anthropic.ts and
    providers/azure-openai.ts talk to the network; here they are oracles
    that are given. *)
Record Sdk := mkSdk {
  OpenAIProvider : LLMProvider;
  AnthropicProvider : LLMProvider;
  AzureOpenAIProvider : LLMProvider
}.

Inductive Constructed (A : Type) :=
  | Built (a : A)
  | Fatal (error : string).
Arguments Built {A} a.
Arguments Fatal {A} error.

Definition createProvider (sdk : Sdk) (config : Config)
  : Constructed LLMProvider :=
  match cfg_provider config with
  | ProviderObject p => Built p
  | ProviderName name =>
      if String.eqb name "openai" then Built (OpenAIProvider sdk)
      else if String.eqb name "anthropic" then Built (AnthropicProvider sdk)
      else if String.eqb name "azure"
      then (if cfg_azureConfigured config
            then Built (AzureOpenAIProvider sdk)
            else Fatal
                   ("Azure provider requires azure.endpoint "
                    ++ "and azure.apiVersion configuration"))
      else Fatal ("Unknown provider: " ++ name)
  end.

Record t := mk {
  provider : LLMProvider;
  decomposer : Decomposer.t;
  votingEngine : VotingEngine.t;
  redFlagFilter : RedFlagFilter.t;
  synthesizer : Synthesizer.t;
  config : Config
}.

Definition noVoting : VotingConfig := mkVotingConfig None None.
Definition noRedFlags : RedFlagConfig := mkRedFlagConfig None None None.
Definition noSynthesis : SynthesisConfig := mkSynthesisConfig None None None.

Definition new (sdk : Sdk) (config : Config) : Constructed t :=
  match createProvider sdk config with
  | Fatal e => Fatal e
  | Built provider =>
      Built
        {| provider := provider;
           decomposer :=
             Decomposer.new provider
               (nullish (cfg_decomposition config) Decomposer.noConfig);
           votingEngine :=
             VotingEngine.new (nullish (cfg_voting config) noVoting);
           redFlagFilter :=
             RedFlagFilter.new (nullish (cfg_redFlags config) noRedFlags);
           synthesizer :=
             Synthesizer.new provider
               (nullish (cfg_synthesis config) noSynthesis);
           config := config |}
  end.

(** [a?.b]: the property of the object when there is an object. *)
Definition chain {A B} (a : option A) (f : A -> option B) : option B :=
  match a with Some x => f x | None => None end.

(** The progress callback [ask] hands to the voting engine. *)
Definition onVote (index : Z) : VotingEngine.OnVote :=
  fun vote voteCounts =>
    let flagged := nullish (Vote.redFlagged vote) false in
    [voteProgress index (Vote.voteIndex vote)
       (map (fun kv => (fst kv, VoteData.count (snd kv))) voteCounts)
       flagged;
     voteCollected index (Vote.voteIndex vote) flagged]
    ++ (match Vote.redFlagReason vote with
        | Some r => if flagged then [redFlaggedEvent (Vote.answer vote) r]
                    else []
        | None => []
        end).

(** The engine [ask] builds for each sub-question:
    [{ ...this.config.voting, k: options?.k ?? this.config.voting?.k }]. *)
Definition engineFor (m : t) (options : option AskOptions) : VotingEngine.t :=
  VotingEngine.new
    {| cfg_k :=
         match chain options opt_k with
         | Some k => Some k
         | None => chain (cfg_voting (config m)) cfg_k
         end;
       cfg_maxVotes := chain (cfg_voting (config m)) cfg_maxVotes |}.

(** The body of the loop over [subQuestions.entries()]. *)
Definition resolve (fuel : nat) (m : t) (options : option AskOptions)
    (index : Z) (sq : SubQuestion.t) : M SubQuestionResult.t :=
  emit (votingStart index (SubQuestion.question sq)) ;;;
  let votingEngine := engineFor m options in
  result <- VotingEngine.voteUntilConsensus fuel votingEngine (provider m)
              (SubQuestion.question sq)
              (nullish (chain options opt_context) ""%string)
              (redFlagFilter m) (Some (onVote index)) ;;
  let subResult :=
    {| SubQuestionResult.question := SubQuestion.question sq;
       SubQuestionResult.answer :=
         nullish (VotingResult.winner result)
           "Unable to determine answer."%string;
       SubQuestionResult.confidence :=
         nullish (VotingResult.confidence result) low;
       SubQuestionResult.consensusReached :=
         VotingResult.consensusReached result;
       SubQuestionResult.votingStats := VotingResult.stats result |} in
  emit (votingComplete index (VotingResult.consensusReached result)
          (SubQuestionResult.answer subResult)) ;;;
  emit (subQuestionResolved index subResult) ;;;
  ret subResult.

Fixpoint resolveAll (fuel : nat) (m : t) (options : option AskOptions)
    (index : Z) (subQuestions : list SubQuestion.t)
  : M (list SubQuestionResult.t) :=
  match subQuestions with
  | [] => ret []
  | sq :: rest =>
      subResult <- resolve fuel m options index sq ;;
      subResults <- resolveAll fuel m options (index + 1) rest ;;
      ret (subResult :: subResults)
  end.

Definition aggregateVotingStats (m : t)
    (subResults : list SubQuestionResult.t) : VotingStats.t :=
  match subResults with
  | [] =>
      {| VotingStats.totalVotes := 0;
         VotingStats.validVotes := 0;
         VotingStats.redFlaggedVotes := 0;
         VotingStats.winningVoteCount := 0;
         VotingStats.margin := 0;
         VotingStats.k := VotingEngine.getK (votingEngine m) |}
  | [r] => SubQuestionResult.votingStats r
  | r :: rs =>
      let stat (f : VotingStats.t -> Z) (x : SubQuestionResult.t) :=
        f (SubQuestionResult.votingStats x) in
      let sum (f : VotingStats.t -> Z) :=
        fold_left (fun acc x => acc + stat f x) subResults 0 in
      {| VotingStats.totalVotes := sum VotingStats.totalVotes;
         VotingStats.validVotes := sum VotingStats.validVotes;
         VotingStats.redFlaggedVotes := sum VotingStats.redFlaggedVotes;
         VotingStats.winningVoteCount :=
           Math_min (stat VotingStats.winningVoteCount r)
             (map (stat VotingStats.winningVoteCount) rs);
         VotingStats.margin :=
           Math_min (stat VotingStats.margin r)
             (map (stat VotingStats.margin) rs);
         VotingStats.k := VotingEngine.getK (votingEngine m) |}
  end.

Definition calculateOverallConfidence
    (subResults : list SubQuestionResult.t)
    (synthesisConfidence : ConfidenceLevel) : ConfidenceLevel :=
  if (List.length subResults =? 0)%nat then low
  else
    let hasLowConfidence :=
      existsb
        (fun r =>
           confidence_eqb (SubQuestionResult.confidence r) low
           || negb (SubQuestionResult.consensusReached r))
        subResults in
    if hasLowConfidence || confidence_eqb synthesisConfidence low then low
    else
      let mediumCount :=
        List.length
          (filter
             (fun r => confidence_eqb (SubQuestionResult.confidence r) medium)
             subResults) in
      if (List.length subResults <? 2 * mediumCount)%nat
         || confidence_eqb synthesisConfidence medium
      then medium
      else high.

Definition ask (fuel : nat) (m : t) (question : string)
    (options : option AskOptions) : M MakerResult.t :=
  let totalTokens := 0 in
  plan <- Decomposer.decompose (decomposer m) question
            (chain options opt_context) ;;
  let subQuestions := Decomposer.subQuestions plan in
  emit (classificationComplete (Decomposer.classification plan)) ;;;
  emit (decomposed subQuestions) ;;;
  subResults <- resolveAll fuel m options 0 subQuestions ;;
  emit (synthesisStart subResults) ;;;
  synthesis <- Synthesizer.synthesize (synthesizer m) question subResults ;;
  emit (synthesisComplete (Synthesizer.answer synthesis)) ;;;
  let votingStats := aggregateVotingStats m subResults in
  let overallConfidence :=
    calculateOverallConfidence subResults
      (Synthesizer.confidence synthesis) in
  let result :=
    {| MakerResult.answer := Synthesizer.answer synthesis;
       MakerResult.confidence := overallConfidence;
       MakerResult.consensusReached :=
         forallb SubQuestionResult.consensusReached subResults;
       MakerResult.isDecomposed := (1 <? List.length subQuestions)%nat;
       MakerResult.subQuestions := subResults;
       MakerResult.synthesisStrategy := Decomposer.synthesisStrategy plan;
       MakerResult.votingStats := votingStats;
       MakerResult.totalTokens := totalTokens |} in
  emit (completeEvent result) ;;;
  ret result.

Definition start : World := mkWorld 0 [].

End Maker.

(* ================================================================== *)
(** ** Definitions used to state the properties *)

(** The pipeline of [normalizeAnswer] on the characters of the answer. *)
Definition normalizeChars (l : list ascii) : list ascii :=
  JsString.dropWhileEnd JsString.isTrailingPunct
    (JsString.collapseRuns false
       (JsString.dropWhileEnd JsString.isWhiteSpace
          (JsString.dropWhile JsString.isWhiteSpace
             (map JsString.lowerChar l)))).

Definition lowered (l : list ascii) : Prop :=
  Forall (fun c => JsString.lowerChar c = c) l.

Definition startsClean (l : list ascii) : Prop :=
  match l with
  | [] => True
  | c :: _ => JsString.isWhiteSpace c = false
  end.

Definition endsInWhiteSpace (l : list ascii) : bool :=
  match rev l with
  | [] => false
  | c :: _ => JsString.isWhiteSpace c
  end.

(** The sum of a list of integers. *)
Definition sumZ (l : list Z) : Z := fold_right Z.add 0 l.

(** [m] is the least element of [l]. *)
Definition is_minimum (m : Z) (l : list Z) : Prop :=
  In m l /\ Forall (fun x => m <= x) l.

(** [m] is the greatest element of [l]. *)
Definition is_maximum (m : Z) (l : list Z) : Prop :=
  In m l /\ Forall (fun x => x <= m) l.

(** [r] is the second highest of [counts], multiplicity counted, and 0
    when there is no second entry. *)
Definition is_runner_up (counts : list Z) (r : Z) : Prop :=
  ((List.length counts <= 1)%nat /\ r = 0)
  \/ (exists m rest,
        Permutation counts (m :: r :: rest)
        /\ r <= m /\ Forall (fun x => x <= r) rest).

(** The votes of a history whose normalized answer is [key], in order. *)
Definition bucket (key : string) (history : list Vote.t) : list Vote.t :=
  filter
    (fun v => String.eqb (VotingEngine.normalizeAnswer (Vote.answer v)) key)
    history.

(** The confidence ordering of the specification: [high] is above
    [medium], which is above [low]. *)
Inductive above : ConfidenceLevel -> ConfidenceLevel -> Prop :=
  | high_above_medium : above high medium
  | medium_above_low : above medium low
  | high_above_low : above high low.

(** [c] is the best confidence found among [votes]: some vote has it, and
    no vote has one above it. *)
Definition best_confidence (c : ConfidenceLevel) (votes : list Vote.t)
  : Prop :=
  (exists v, In v votes /\ Vote.confidence v = c)
  /\ Forall (fun v => ~ above (Vote.confidence v) c) votes.

(** What a tally records about the history of the votes that were counted:
    one bucket for each normalized answer that occurs, holding the number
    of its votes, the answer text of the first of them and the best of
    their confidences. *)
Definition records (entry : string * VoteData.t) (history : list Vote.t)
  : Prop :=
  exists first others,
    bucket (fst entry) history = first :: others
    /\ VoteData.count (snd entry)
       = Z.of_nat (List.length (first :: others))
    /\ VoteData.originalAnswer (snd entry) = Vote.answer first
    /\ best_confidence (VoteData.confidence (snd entry)) (first :: others).

Definition represents (tally : Tally) (history : list Vote.t) : Prop :=
  NoDup (map fst tally)
  /\ (forall v, In v history ->
        In (VotingEngine.normalizeAnswer (Vote.answer v)) (map fst tally))
  /\ Forall (fun entry => records entry history) tally.

(** A list in descending order of [key]. *)
Fixpoint descending {A} (key : A -> Z) (l : list A) : Prop :=
  match l with
  | [] => True
  | x :: r => Forall (fun y => key y <= key x) r /\ descending key r
  end.

(** The entry [recordVote] leaves for a vote that joins an existing
    bucket, and the one it creates for the first vote of a bucket. *)
Definition joined (existing : VoteData.t) (vote : Vote.t) : VoteData.t :=
  {| VoteData.count := VoteData.count existing + 1;
     VoteData.originalAnswer := VoteData.originalAnswer existing;
     VoteData.confidence :=
       if VotingEngine.compareConfidence (Vote.confidence vote)
            (VoteData.confidence existing) >? 0
       then Vote.confidence vote
       else VoteData.confidence existing |}.

Definition opened (vote : Vote.t) : VoteData.t :=
  {| VoteData.count := 1;
     VoteData.originalAnswer := Vote.answer vote;
     VoteData.confidence := Vote.confidence vote |}.

(** An oracle that plays a script: the [n]-th call gets the [n]-th entry,
    and [otherwise] once the script is over. *)
Definition scripted (script : list Completion) (otherwise : Completion)
  : LLMProvider :=
  mkProvider (fun n _ => nth n script otherwise).

(** A structured response [{ answer, confidence }]. *)
Definition answers (a : string) (c : ConfidenceLevel) : Completion :=
  Resolved
    (mkResponse
       (ContentObject
          (mkResponseObject (Some a) (Some c) false None None None None None
             None))
       "").

(** An oracle whose every call fails. *)
Definition failingProvider : LLMProvider :=
  mkProvider (fun _ _ => Rejected "API Error").

(** The oracle of the two-sub-question scenario of the integration tests:
    a classification that asks for decomposition, a plan of two
    sub-questions, the same valid answer for every vote, and a synthesis. *)
Definition twoStepProvider : LLMProvider :=
  let classification :=
    Resolved
      (mkResponse
         (ContentObject
            (mkResponseObject None None true (Some 5) (Some multi_hop) None
               None None None))
         "") in
  let plan :=
    Resolved
      (mkResponse
         (ContentObject
            (mkResponseObject None None false None None None
               (Some [Some (mkRawSubQuestion (Some "sq1")
                              (Some "What is sub-question 1?") (Some [])
                              (Some factual));
                      Some (mkRawSubQuestion (Some "sq2")
                              (Some "What is sub-question 2?") (Some [])
                              (Some factual))])
               (Some "combine") None))
         "") in
  let vote := answers "Valid answer here." high in
  let synthesis :=
    Resolved
      (mkResponse
         (ContentObject
            (mkResponseObject None (Some high) false None None None None None
               (Some "Combined answer.")))
         "") in
  mkProvider
    (fun n request =>
       match req_prompt request with
       | PromptClassify _ _ => classification
       | PromptDecompose _ _ _ | PromptDecomposeCustom _ _ _ => plan
       | PromptAnswer _ _ => vote
       | _ => synthesis
       end).

(** A configuration that names the oracle, and the decomposition and
    voting options. *)
Definition configWith (provider : LLMProvider)
    (decomposition : option Decomposer.Config) (voting : option VotingConfig)
  : Maker.Config :=
  Maker.mkConfig (Maker.ProviderObject provider) false decomposition voting
    None None.

(** [new Maker(config)] for such a configuration: the provider is an
    object, so construction cannot fail and needs no SDK client. *)
Definition makerWith (provider : LLMProvider)
    (decomposition : option Decomposer.Config) (voting : option VotingConfig)
  : Maker.t :=
  {| Maker.provider := provider;
     Maker.decomposer :=
       Decomposer.new provider (nullish decomposition Decomposer.noConfig);
     Maker.votingEngine :=
       VotingEngine.new (nullish voting Maker.noVoting);
     Maker.redFlagFilter := RedFlagFilter.new Maker.noRedFlags;
     Maker.synthesizer := Synthesizer.new provider Maker.noSynthesis;
     Maker.config := configWith provider decomposition voting |}.

Definition configOf (provider : LLMProvider) (voting : option VotingConfig)
  : Maker.Config := configWith provider None voting.

Definition makerOf (provider : LLMProvider) (voting : option VotingConfig)
  : Maker.t := makerWith provider None voting.

(** [decomposition: { enabled: false }] *)
Definition decompositionOff : option Decomposer.Config :=
  Some (Decomposer.mkConfig (Some false) None None None).

(** The vote [generateVote] makes of the outcome of its oracle call. *)
Definition sampleOf (outcome : Completion) (temperature : Q) (voteIndex : Z)
  : Vote.t :=
  match outcome with
  | Resolved response => VotingEngine.parseVote response temperature voteIndex
  | Rejected _ =>
      Vote.mk voteIndex "" low None temperature (Some false) (Some true)
        (Some invalid_format)
  end.

(** A sample that never reaches the tally: the filter rejects it, or its
    normalized answer is empty. *)
Definition discarded (flt : RedFlagFilter.t) (vote : Vote.t) : bool :=
  redFlagged
    (RedFlagFilter.check flt (Vote.answer vote)
       (nullish (Vote.parseSucceeded vote) true))
  || negb (JsString.truthy (VotingEngine.normalizeAnswer (Vote.answer vote))).

(** The samples of a run that were counted in the tally. *)
Definition counted (flt : RedFlagFilter.t) (allVotes : list Vote.t)
  : list Vote.t :=
  filter (fun v => negb (discarded flt v)) allVotes.

(** An oracle that answers every request with the same completion. *)
Definition constantProvider (c : Completion) : LLMProvider :=
  mkProvider (fun _ _ => c).

(** A vote as [generateVote] builds it from a parsed answer. *)
Definition sample (voteIndex : Z) (answer : string) (c : ConfidenceLevel)
  : Vote.t :=
  Vote.mk voteIndex answer c None
    (if voteIndex =? 0 then 0%Q else (1 # 10)%Q) (Some true) None None.

(** The oracle of the continuous-voting scenario. *)
Definition parisLondonParisParis : LLMProvider :=
  scripted
    [answers "Paris" high; answers "London" high; answers "Paris" high;
     answers "Paris" high]
    (Rejected "no more answers").

(** The loop state after the first three samples of that scenario. *)
Definition afterThreeSamples : VotingEngine.LoopState :=
  VotingEngine.mkLoop
    [("paris", VoteData.mk 2 "Paris" high);
     ("london", VoteData.mk 1 "London" high)]
    [sample 0 "Paris" high; sample 1 "London" high; sample 2 "Paris" high]
    3 3.

(* ================================================================== *)
(** ** Batch checks and statistics (core/red-flag-filter.ts) *)

Record CheckItem := mkCheckItem {
  item_answer : string;
  item_parseSucceeded : option bool
}.

(** [checkMany(answers, parseSucceeded = true)]: each item is returned
    beside the result of its check. *)
Definition checkMany (f : RedFlagFilter.t) (answers : list CheckItem)
    (parseSucceeded : option bool) : list (CheckItem * RedFlagResult) :=
  map
    (fun item =>
       (item,
        RedFlagFilter.check f (item_answer item)
          (nullish (item_parseSucceeded item) (nullish parseSucceeded true))))
    answers.

Definition reason_eqb (a b : RedFlagReason) : bool :=
  match a, b with
  | response_too_long, response_too_long
  | response_too_short, response_too_short
  | circular_reasoning, circular_reasoning
  | invalid_format, invalid_format
  | low_confidence_error, low_confidence_error
  | custom, custom => true
  | _, _ => false
  end.

(** [byReason[r] = (byReason[r] || 0) + 1] on an object whose keys are kept
    in insertion order. *)
Fixpoint bumpReason (byReason : list (RedFlagReason * Z)) (r : RedFlagReason)
  : list (RedFlagReason * Z) :=
  match byReason with
  | [] => [(r, 0 + 1)]
  | (r', n) :: rest =>
      if reason_eqb r' r
      then (r', (if n =? 0 then 0 else n) + 1) :: rest
      else (r', n) :: bumpReason rest r
  end.

Record FilterStats := mkFilterStats {
  stat_total : Z;
  stat_flagged : Z;
  stat_valid : Z;
  stat_byReason : list (RedFlagReason * Z)
}.

(** The body of the loop of [getStats]. *)
Definition countResult (stats : FilterStats) (result : RedFlagResult)
  : FilterStats :=
  if redFlagged result
  then
    {| stat_total := stat_total stats;
       stat_flagged := stat_flagged stats + 1;
       stat_valid := stat_valid stats;
       stat_byReason :=
         match reason result with
         | Some r => bumpReason (stat_byReason stats) r
         | None => stat_byReason stats
         end |}
  else
    {| stat_total := stat_total stats;
       stat_flagged := stat_flagged stats;
       stat_valid := stat_valid stats + 1;
       stat_byReason := stat_byReason stats |}.

(** [RedFlagFilter.getStats(results)] *)
Definition getStats (results : list RedFlagResult) : FilterStats :=
  fold_left countResult results
    (mkFilterStats (Z.of_nat (List.length results)) 0 0 []).

(** [byReason[r]], absent when the object has no such key. *)
Fixpoint lookupReason (byReason : list (RedFlagReason * Z)) (r : RedFlagReason)
  : option Z :=
  match byReason with
  | [] => None
  | (r', n) :: rest => if reason_eqb r' r then Some n else lookupReason rest r
  end.

(* ================================================================== *)
(** ** Fixed-sample collection (core/voting.ts, deprecated) *)

Module FixedSampling.

Record Config := mkConfig {
  cfg_samples : option Z;
  cfg_temperatures : option (list Q)
}.

Record t := mk {
  samples : Z;
  temperatures : list Q
}.

Definition DEFAULT_samples : Z := 5.

Definition generateDefaultTemperatures (samples : Z) : list Q :=
  if samples <=? 0 then []
  else if samples =? 1 then [0%Q]
  else 0%Q :: repeat (1 # 10)%Q (Z.to_nat (samples - 1)).

Definition new (config : Config) : t :=
  let samples := nullish (cfg_samples config) DEFAULT_samples in
  {| samples := samples;
     temperatures :=
       nullish (cfg_temperatures config)
         (generateDefaultTemperatures samples) |}.

(** The votes of the indices [i], [i + 1], ... in turn.  [Array.from]
    starts the calls in index order, and no call can reject, so
    [Promise.all] resolves to the votes in that order. *)
Fixpoint collectFrom (e : t) (provider : LLMProvider)
    (question context : string) (i : nat) (count : nat) : M (list Vote.t) :=
  match count with
  | O => ret []
  | S count' =>
      vote <- VotingEngine.generateVote provider question context
                (nullish (nth_error (temperatures e) i) (1 # 10)%Q)
                (Z.of_nat i) ;;
      votes <- collectFrom e provider question context (S i) count' ;;
      ret (vote :: votes)
  end.

Definition collectVotes (e : t) (provider : LLMProvider)
    (question context : string) : M (list Vote.t) :=
  collectFrom e provider question context 0 (Z.to_nat (samples e)).

End FixedSampling.

(* ================================================================== *)
(** ** More definitions used to state properties *)

(** Every character of the string satisfies [p]. *)
Definition allChars (p : ascii -> bool) (s : string) : bool :=
  forallb p (list_ascii_of_string s).

(** The number of results a predicate selects. *)
Definition countIf {A} (p : A -> bool) (l : list A) : Z :=
  Z.of_nat (List.length (filter p l)).

(** A result flagged for the reason [r]. *)
Definition flaggedFor (r : RedFlagReason) (result : RedFlagResult) : bool :=
  redFlagged result
  && match reason result with
     | Some r' => reason_eqb r' r
     | None => false
     end.

(** The oracle calls a run made. *)
Definition callsBetween (w w' : World) : Z :=
  Z.of_nat (calls w') - Z.of_nat (calls w).

(** What a result says about the vote, statistics of the sampling aside. *)
Definition verdict (r : VotingResult.t)
  : bool * option string * option ConfidenceLevel * Z * Z * Z :=
  (VotingResult.consensusReached r, VotingResult.winner r,
   VotingResult.confidence r,
   VotingStats.winningVoteCount (VotingResult.stats r),
   VotingStats.margin (VotingResult.stats r),
   VotingStats.k (VotingResult.stats r)).

(** A vote that does not carry the red-flag mark. *)
Definition unmarked (v : Vote.t) : bool :=
  negb (nullish (Vote.redFlagged v) false).

(** The [i]-th sample of a run of the loop that started after [n0] oracle
    calls: the vote made of the oracle's answer to call [n0 + i], asked at
    temperature 0 for the first sample and 0.1 after. *)
Definition drawn (provider : LLMProvider) (question context : string)
    (n0 : nat) (i : nat) : Vote.t :=
  let temperature := if Z.of_nat i =? 0 then 0%Q else (1 # 10)%Q in
  sampleOf
    (complete provider (n0 + i)
       (mkRequest (PromptAnswer question context) temperature true))
    temperature (Z.of_nat i).

(** The first [n] samples of such a run. *)
Definition samples (provider : LLMProvider) (question context : string)
    (n0 : nat) (n : nat) : list Vote.t :=
  map (drawn provider question context n0) (seq 0 n).

(** The sub-results a log reports as resolved, each with its index, in the
    order of the [subQuestionResolved] events. *)
Definition resolvedIn (log : list Event) : list (Z * SubQuestionResult.t) :=
  flat_map
    (fun ev =>
       match ev with
       | subQuestionResolved index result => [(index, result)]
       | _ => []
       end)
    log.

(** The votes a sub-result reports. *)
Definition votesOf (sr : SubQuestionResult.t) : Z :=
  VotingStats.totalVotes (SubQuestionResult.votingStats sr).

(** The votes [determineWinner] scores: those that do not carry the
    red-flag mark and whose normalized answer is not empty. *)
Definition scored (votes : list Vote.t) : list Vote.t :=
  filter
    (fun v => JsString.truthy (VotingEngine.normalizeAnswer (Vote.answer v)))
    (filter unmarked votes).

(** The keys of a tally come in the order in which their first votes were
    seen: before the first vote of a key, the history only has votes of
    the keys listed earlier. *)
Definition inOrderOfFirstVote (keys : list string) (history : list Vote.t)
  : Prop :=
  forall earlier key later,
    keys = earlier ++ key :: later ->
    exists before first after,
      history = before ++ first :: after
      /\ VotingEngine.normalizeAnswer (Vote.answer first) = key
      /\ Forall
           (fun v =>
              In (VotingEngine.normalizeAnswer (Vote.answer v)) earlier)
           before.

(** The votes a log reports as collected: the sub-question index and the
    vote index of its [voteCollected] events, in order. *)
Definition collectedIn (log : list Event) : list (Z * Z) :=
  flat_map
    (fun ev =>
       match ev with
       | voteCollected index voteIndex _ => [(index, voteIndex)]
       | _ => []
       end)
    log.

(** The votes a sub-result at position [index] accounts for, numbered
    from 0. *)
Definition ballots (sr : SubQuestionResult.t) (index : Z) : list (Z * Z) :=
  map (fun i => (index, Z.of_nat i)) (seq 0 (Z.to_nat (votesOf sr))).

(** [keys] lists, once each, the normalized answers that occur in
    [history]. *)
Definition distinct_answers (keys : list string) (history : list Vote.t)
  : Prop :=
  NoDup keys
  /\ forall key,
       In key keys
       <-> exists v,
             In v history
             /\ VotingEngine.normalizeAnswer (Vote.answer v) = key.

(** How the answers of a history stand: [maxCount] is the number of votes
    of the answer with the most votes, and [runnerUpCount] the second
    highest number of votes of an answer (0 when there is one answer). *)
Definition standing (history : list Vote.t) (maxCount runnerUpCount : Z)
  : Prop :=
  exists keys,
    distinct_answers keys history
    /\ is_maximum maxCount
         (map (fun key => Z.of_nat (List.length (bucket key history))) keys)
    /\ is_runner_up
         (map (fun key => Z.of_nat (List.length (bucket key history))) keys)
         runnerUpCount.

(** The samples of the continuous-voting scenario that are counted, among
    the first [n]. *)
Definition parisTallied (n : nat) : list Vote.t :=
  counted RedFlagFilter.default
    (samples parisLondonParisParis "What is the capital of France?" "" 0 n).

(* ================================================================== *)
(** * Properties *)

(** ** Red-flag filter *)

Example check_Hi :
  RedFlagFilter.check RedFlagFilter.default "Hi" true
  = mkRedFlagResult true (Some response_too_short).
Proof. reflexivity. Qed.

Example check_Yes :
  RedFlagFilter.check RedFlagFilter.default "Yes!!" true
  = mkRedFlagResult false None.
Proof. reflexivity. Qed.

Example estimateTokens_3000 :
  RedFlagFilter.estimateTokens 3000 = 750
  /\ RedFlagFilter.estimateTokens 3001 = 751.
Proof. split; reflexivity. Qed.

Lemma truthy_false_iff (s : string) :
  JsString.truthy s = false <-> s = ""%string.
Proof. destruct s; simpl; split; intro H; congruence. Qed.

(** C6, as stated, fails: with the default thresholds a two-character
    answer whose parse failed is rejected as [response_too_short], so the
    reason is not [invalid_format] for every answer. *)
Lemma check_parse_failure_not_always_invalid_format :
  ~ (forall (f : RedFlagFilter.t) (answer : string),
        RedFlagFilter.check f answer false
        = mkRedFlagResult true (Some invalid_format)).
Proof.
  intro H.
  specialize (H RedFlagFilter.default "Hi"%string).
  vm_compute in H. discriminate H.
Qed.

(** C6, amended: a sample whose parse failed is always rejected, and the
    reason is [invalid_format] exactly when neither length check fires
    first, that is when the answer is non-empty, its estimated token count
    is at most [maxTokens] and its trimmed length is at least [minChars];
    otherwise the reason is [response_too_short] or [response_too_long]. *)
Theorem check_parse_failure (f : RedFlagFilter.t) (answer : string) :
  let result := RedFlagFilter.check f answer false in
  redFlagged result = true
  /\ (reason result = Some invalid_format
      <-> answer <> ""%string
          /\ RedFlagFilter.estimateTokens
               (JsString.length (JsString.trim answer))
             <= RedFlagFilter.maxTokens f
          /\ RedFlagFilter.minChars f
             <= JsString.length (JsString.trim answer))
  /\ (reason result = Some invalid_format
      \/ reason result = Some response_too_short
      \/ reason result = Some response_too_long).
Proof.
  cbn zeta. unfold RedFlagFilter.check.
  destruct (JsString.truthy answer) eqn:Ht; simpl.
  - assert (Hne : answer <> ""%string).
    { intro E. apply truthy_false_iff in E. congruence. }
    destruct (Z.gtb_spec
                (RedFlagFilter.estimateTokens
                   (JsString.length (JsString.trim answer)))
                (RedFlagFilter.maxTokens f)) as [Hlong | Hlong]; simpl.
    + split; [reflexivity |].
      split; [| now right; right].
      split; [discriminate | intros (_ & H & _); lia].
    + destruct (Z.ltb_spec (JsString.length (JsString.trim answer))
                  (RedFlagFilter.minChars f)) as [Hshort | Hshort]; simpl.
      * split; [reflexivity |].
        split; [| now right; left].
        split; [discriminate | intros (_ & _ & H); lia].
      * split; [reflexivity |].
        split; [| now left].
        split; [intros _; repeat split; assumption || lia | reflexivity].
  - apply truthy_false_iff in Ht.
    split; [reflexivity |].
    split; [| now right; left].
    split; [discriminate | intros (H & _); contradiction].
Qed.

Lemma check_parse_failure_witness :
  redFlagged
    (RedFlagFilter.check RedFlagFilter.default
       "Some answer that failed to parse." false) = true
  /\ reason
       (RedFlagFilter.check RedFlagFilter.default
          "Some answer that failed to parse." false) = Some invalid_format.
Proof.
  pose proof (check_parse_failure RedFlagFilter.default
                "Some answer that failed to parse."%string)
    as (Hflag & Hreason & _).
  split; [exact Hflag |].
  apply Hreason.
  split; [discriminate |].
  split; vm_compute; discriminate.
Defined.

(** ** Answer normalization *)

Module NormalizeFacts.
Import JsString.

Lemma normalizeAnswer_chars (s : string) :
  VotingEngine.normalizeAnswer s = onChars normalizeChars s.
Proof.
  unfold VotingEngine.normalizeAnswer.
  destruct s as [| c s]; [reflexivity |].
  cbn [truthy negb].
  unfold stripTrailingPunct, replaceWhiteSpaceRuns, trim, toLowerCase,
    onChars, normalizeChars.
  now rewrite !list_ascii_of_string_of_list_ascii.
Qed.

Lemma lowerChar_idem (c : ascii) : lowerChar (lowerChar c) = lowerChar c.
Proof.
  destruct c as [[] [] [] [] [] [] [] []]; reflexivity.
Qed.

Lemma lowerChar_white (c : ascii) :
  isWhiteSpace (lowerChar c) = isWhiteSpace c.
Proof.
  destruct c as [[] [] [] [] [] [] [] []]; reflexivity.
Qed.

Section DropWhile.
Variable p : ascii -> bool.

Lemma dropWhile_suffix (l : list ascii) :
  exists q, l = q ++ dropWhile p l.
Proof.
  induction l as [| c r [q Hq]]; simpl.
  - now exists [].
  - destruct (p c).
    + exists (c :: q). simpl. now f_equal.
    + now exists [].
Qed.

Lemma dropWhile_idem (l : list ascii) :
  dropWhile p (dropWhile p l) = dropWhile p l.
Proof.
  induction l as [| c r IH]; simpl; [reflexivity |].
  destruct (p c) eqn:E; [exact IH |].
  simpl. now rewrite E.
Qed.

Lemma dropWhile_length (l : list ascii) :
  (List.length (dropWhile p l) <= List.length l)%nat.
Proof.
  induction l as [| c r IH]; simpl; [lia |].
  destruct (p c); simpl; lia.
Qed.

Lemma dropWhileEnd_prefix (l : list ascii) :
  exists q, l = dropWhileEnd p l ++ q.
Proof.
  unfold dropWhileEnd.
  destruct (dropWhile_suffix (rev l)) as [q Hq].
  exists (rev q).
  rewrite <- rev_app_distr, <- Hq. now rewrite rev_involutive.
Qed.

Lemma dropWhileEnd_idem (l : list ascii) :
  dropWhileEnd p (dropWhileEnd p l) = dropWhileEnd p l.
Proof.
  unfold dropWhileEnd. now rewrite rev_involutive, dropWhile_idem.
Qed.

Lemma dropWhileEnd_length (l : list ascii) :
  (List.length (dropWhileEnd p l) <= List.length l)%nat.
Proof.
  unfold dropWhileEnd.
  rewrite length_rev, <- (length_rev l). apply dropWhile_length.
Qed.

Lemma dropWhileEnd_snoc (l : list ascii) (c : ascii) :
  p c = true -> dropWhileEnd p (l ++ [c]) = dropWhileEnd p l.
Proof.
  intro H. unfold dropWhileEnd.
  rewrite rev_app_distr. simpl. now rewrite H.
Qed.
End DropWhile.

(** *** Collapsing runs *)

Lemma collapseRuns_length (l : list ascii) (b : bool) :
  (List.length (collapseRuns b l) <= List.length l)%nat.
Proof.
  revert b.
  induction l as [| c r IH]; intro b; simpl; [lia |].
  destruct (isWhiteSpace c), b; simpl;
    try (specialize (IH true); lia); specialize (IH false); lia.
Qed.

Lemma collapseRuns_idem (l : list ascii) :
  (forall b, collapseRuns false (collapseRuns b l) = collapseRuns b l)
  /\ collapseRuns true (collapseRuns true l) = collapseRuns true l.
Proof.
  induction l as [| c r [IHf IHt]]; [split; [intros []|]; reflexivity |].
  split.
  - intro b. simpl.
    destruct (isWhiteSpace c) eqn:E.
    + destruct b; [apply IHf |].
      change (collapseRuns false (" "%char :: collapseRuns true r))
        with (" "%char :: collapseRuns true (collapseRuns true r)).
      now rewrite IHt.
    + simpl. rewrite E. now rewrite IHf.
  - simpl. destruct (isWhiteSpace c) eqn:E; [exact IHt |].
    simpl. rewrite E. now rewrite IHf.
Qed.

Lemma collapseRuns_fixed_prefix (p q : list ascii) :
  forall b, collapseRuns b (p ++ q) = p ++ q -> collapseRuns b p = p.
Proof.
  induction p as [| c p IH]; intros b H; [now destruct b |].
  simpl in *.
  destruct (isWhiteSpace c) eqn:E.
  - destruct b.
    + exfalso.
      pose proof (collapseRuns_length (p ++ q) true) as Hlen.
      rewrite H in Hlen. simpl in Hlen. lia.
    + injection H as Hc Hrest. f_equal; [exact Hc |]. now apply IH.
  - injection H as Hrest. f_equal. now apply IH.
Qed.

(** *** What a normalized answer looks like *)

Lemma lowered_map (l : list ascii) : lowered (map lowerChar l).
Proof.
  induction l; constructor; [apply lowerChar_idem | assumption].
Qed.

Lemma lowered_fixed (l : list ascii) : lowered l -> map lowerChar l = l.
Proof.
  induction 1 as [| c r Hc _ IH]; simpl; [reflexivity |].
  now rewrite Hc, IH.
Qed.

Lemma lowered_app (a b : list ascii) :
  lowered (a ++ b) <-> lowered a /\ lowered b.
Proof. apply Forall_app. Qed.

Lemma lowered_dropWhile p (l : list ascii) :
  lowered l -> lowered (dropWhile p l).
Proof.
  intro H. destruct (dropWhile_suffix p l) as [q Hq].
  rewrite Hq in H. now apply lowered_app in H.
Qed.

Lemma lowered_dropWhileEnd p (l : list ascii) :
  lowered l -> lowered (dropWhileEnd p l).
Proof.
  intro H. destruct (dropWhileEnd_prefix p l) as [q Hq].
  rewrite Hq in H. now apply lowered_app in H.
Qed.

Lemma lowered_collapseRuns (l : list ascii) (b : bool) :
  lowered l -> lowered (collapseRuns b l).
Proof.
  intro H. revert b.
  induction H as [| c r Hc _ IH]; intro b; simpl; [constructor |].
  destruct (isWhiteSpace c).
  - destruct b; [apply IH |].
    constructor; [reflexivity | apply IH].
  - constructor; [exact Hc | apply IH].
Qed.

Lemma startsClean_dropWhile (l : list ascii) :
  startsClean (dropWhile isWhiteSpace l).
Proof.
  induction l as [| c r IH]; simpl; [exact I |].
  destruct (isWhiteSpace c) eqn:E; [exact IH | exact E].
Qed.

Lemma startsClean_prefix (a b : list ascii) :
  startsClean (a ++ b) -> startsClean a.
Proof. destruct a; simpl; auto. Qed.

Lemma startsClean_dropWhileEnd p (l : list ascii) :
  startsClean l -> startsClean (dropWhileEnd p l).
Proof.
  intro H. destruct (dropWhileEnd_prefix p l) as [q Hq].
  rewrite Hq in H. now apply startsClean_prefix in H.
Qed.

Lemma startsClean_collapseRuns (l : list ascii) :
  startsClean l -> startsClean (collapseRuns false l).
Proof.
  destruct l as [| c r]; simpl; [auto |].
  intro H. now rewrite H.
Qed.

Lemma startsClean_fixed (l : list ascii) :
  startsClean l -> dropWhile isWhiteSpace l = l.
Proof.
  destruct l as [| c r]; simpl; [reflexivity |].
  now intros ->.
Qed.

Lemma endsClean_fixed (l : list ascii) :
  endsInWhiteSpace l = false -> dropWhileEnd isWhiteSpace l = l.
Proof.
  unfold endsInWhiteSpace, dropWhileEnd.
  destruct (rev l) as [| c r] eqn:E; intro H.
  - simpl. rewrite <- (rev_involutive l), E. reflexivity.
  - simpl. rewrite H. rewrite <- E. apply rev_involutive.
Qed.

Lemma normalizeChars_fixed (l : list ascii) :
  endsInWhiteSpace (normalizeChars l) = false ->
  normalizeChars (normalizeChars l) = normalizeChars l.
Proof.
  intro Hend.
  set (t := normalizeChars l) in *.
  assert (Hlow : lowered t).
  { apply lowered_dropWhileEnd, lowered_collapseRuns,
      lowered_dropWhileEnd, lowered_dropWhile, lowered_map. }
  assert (Hstart : startsClean t).
  { apply startsClean_dropWhileEnd, startsClean_collapseRuns,
      startsClean_dropWhileEnd, startsClean_dropWhile. }
  assert (Hcol : collapseRuns false t = t).
  { unfold t, normalizeChars.
    match goal with
    | |- context [dropWhileEnd isTrailingPunct ?y] =>
        destruct (dropWhileEnd_prefix isTrailingPunct y) as [q Hq];
        apply (collapseRuns_fixed_prefix _ q); rewrite <- Hq
    end.
    apply collapseRuns_idem. }
  assert (Hstrip : dropWhileEnd isTrailingPunct t = t)
    by apply dropWhileEnd_idem.
  unfold normalizeChars at 1.
  rewrite (lowered_fixed _ Hlow), (startsClean_fixed _ Hstart),
    (endsClean_fixed _ Hend), Hcol.
  exact Hstrip.
Qed.

Lemma normalizeChars_length (l : list ascii) :
  (List.length (normalizeChars l)
   <= List.length (dropWhileEnd isWhiteSpace l))%nat.
Proof.
  unfold normalizeChars.
  etransitivity; [apply dropWhileEnd_length |].
  etransitivity; [apply collapseRuns_length |].
  (* trimming the end commutes with the bound on the front *)
  assert (H : forall m : list ascii,
             (List.length (dropWhileEnd isWhiteSpace
                             (dropWhile isWhiteSpace m))
              <= List.length (dropWhileEnd isWhiteSpace m))%nat).
  { induction m as [| c r IH]; simpl; [lia |].
    destruct (isWhiteSpace c) eqn:E.
    - etransitivity; [exact IH |].
      clear IH. revert c E.
      induction r as [| d r IHr] using rev_ind; intros c E.
      + unfold dropWhileEnd. simpl. lia.
      + destruct (isWhiteSpace d) eqn:Ed.
        * change (c :: r ++ [d]) with ((c :: r) ++ [d]).
          rewrite !dropWhileEnd_snoc by assumption. now apply IHr.
        * unfold dropWhileEnd.
          change (c :: r ++ [d]) with ((c :: r) ++ [d]).
          rewrite !rev_app_distr. simpl. rewrite Ed.
          simpl. repeat (rewrite ?length_app, ?length_rev; simpl). lia.
    - lia. }
  etransitivity; [apply H |].
  clear H.
  induction l as [| c r IH] using rev_ind; [simpl; lia |].
  rewrite map_app. simpl.
  destruct (isWhiteSpace c) eqn:E.
  - rewrite !dropWhileEnd_snoc; [exact IH | exact E |].
    now rewrite lowerChar_white.
  - unfold dropWhileEnd. rewrite !rev_app_distr. simpl.
    rewrite lowerChar_white, E. simpl.
    rewrite !length_app, !length_rev, length_map. simpl. lia.
Qed.

Lemma endsDirty_shrinks (l : list ascii) :
  endsInWhiteSpace l = true ->
  (List.length (dropWhileEnd isWhiteSpace l) < List.length l)%nat.
Proof.
  unfold endsInWhiteSpace, dropWhileEnd.
  rewrite length_rev, <- (length_rev l).
  destruct (rev l) as [| c r]; [discriminate |].
  intro H. simpl. rewrite H.
  pose proof (dropWhile_length isWhiteSpace r). lia.
Qed.

End NormalizeFacts.

Example normalizeAnswer_New_York :
  VotingEngine.normalizeAnswer "New   York" = "new york"%string
  /\ VotingEngine.normalizeAnswer "Yes!?" = "yes"%string
  /\ VotingEngine.normalizeAnswer "" = ""%string.
Proof. repeat split; reflexivity. Qed.

(** C5, as stated, fails: stripping the final punctuation of ["Paris ."]
    uncovers a space that only a second normalization trims, so
    normalization is not idempotent on every string. *)
Lemma normalizeAnswer_not_idempotent :
  ~ (forall s : string,
        VotingEngine.normalizeAnswer (VotingEngine.normalizeAnswer s)
        = VotingEngine.normalizeAnswer s).
Proof.
  intro H. specialize (H "Paris ."%string).
  vm_compute in H. discriminate H.
Qed.

(** C5, amended: normalizing twice gives the same string as normalizing
    once exactly for the answers whose normalization does not end in white
    space; and the five spellings of Paris normalize to the same key. *)
Theorem normalizeAnswer_idempotent_insensitive :
  (forall s : string,
      VotingEngine.normalizeAnswer (VotingEngine.normalizeAnswer s)
      = VotingEngine.normalizeAnswer s
      <-> JsString.endsWithWhiteSpace (VotingEngine.normalizeAnswer s) = false)
  /\ VotingEngine.normalizeAnswer "Paris" = VotingEngine.normalizeAnswer "PARIS"
  /\ VotingEngine.normalizeAnswer "PARIS"
     = VotingEngine.normalizeAnswer "  Paris  "
  /\ VotingEngine.normalizeAnswer "  Paris  "
     = VotingEngine.normalizeAnswer "Paris."
  /\ VotingEngine.normalizeAnswer "Paris."
     = VotingEngine.normalizeAnswer "Paris!".
Proof.
  split; [| repeat split; reflexivity].
  intro s.
  rewrite !NormalizeFacts.normalizeAnswer_chars.
  unfold JsString.onChars, JsString.endsWithWhiteSpace.
  rewrite !list_ascii_of_string_of_list_ascii.
  set (l := list_ascii_of_string s).
  change (match rev (normalizeChars l) with
          | [] => false
          | c :: _ => JsString.isWhiteSpace c
          end)
    with (endsInWhiteSpace (normalizeChars l)).
  split.
  - intro H.
    apply (f_equal list_ascii_of_string) in H.
    rewrite !list_ascii_of_string_of_list_ascii in H.
    destruct (endsInWhiteSpace
                (normalizeChars l)) eqn:E; [| reflexivity].
    exfalso.
    pose proof (NormalizeFacts.endsDirty_shrinks _ E) as Hlt.
    pose proof (NormalizeFacts.normalizeChars_length
                  (normalizeChars l)) as Hle.
    rewrite H in Hle. lia.
  - intro H. now rewrite NormalizeFacts.normalizeChars_fixed.
Qed.

Lemma normalizeAnswer_idempotent_insensitive_witness :
  VotingEngine.normalizeAnswer
    (VotingEngine.normalizeAnswer "  PARIS, France!! ")
  = VotingEngine.normalizeAnswer "  PARIS, France!! ".
Proof.
  apply (proj1 normalizeAnswer_idempotent_insensitive).
  reflexivity.
Defined.

(** ** Decomposer and synthesizer: the paths that make no oracle call *)

(** C9: with decomposition disabled, [decompose] returns, in the world it
    was called in (no oracle call was made, no event emitted), the plan
    made of the single sub-question [sq1] that wraps the question verbatim
    (no dependencies, type factual, index 0), the strategy ["none"] and a
    classification with [needsDecomposition = false]. *)
Theorem decompose_disabled
    (provider : LLMProvider) (maxSubQuestions : option Z)
    (classifier : option Decomposer.Classifier) (prompt : option string)
    (question : string) (context : option string) (w : World) :
  Decomposer.decompose
    (Decomposer.new provider
       (Decomposer.mkConfig (Some false) maxSubQuestions classifier prompt))
    question context w
  = Ok {| Decomposer.subQuestions :=
            [ {| SubQuestion.id := "sq1";
                 SubQuestion.question := question;
                 SubQuestion.dependencies := [];
                 SubQuestion.type := factual;
                 SubQuestion.index := Some 0 |} ];
          Decomposer.synthesisStrategy := "none";
          Decomposer.classification :=
            {| Classification.needsDecomposition := false;
               Classification.complexity := 1;
               Classification.questionType := factual;
               Classification.reasoning := None |} |}
       w.
Proof. reflexivity. Qed.

(** C8: [synthesize] on no sub-result returns the fixed answer at
    confidence low; on exactly one sub-result it returns that sub-result's
    answer and confidence; with synthesis disabled it returns the answer
    and confidence of the (first) sub-result; each time in the world it
    was called in, so without an oracle call. *)
Theorem synthesize_degenerate
    (s : Synthesizer.t) (provider : LLMProvider) (language : string)
    (customPrompt : option string) (originalQuestion : string)
    (r : SubQuestionResult.t) (rs : list SubQuestionResult.t) (w : World) :
  Synthesizer.synthesize s originalQuestion [] w
  = Ok {| Synthesizer.answer := "Unable to determine answer.";
          Synthesizer.confidence := low |} w
  /\ Synthesizer.synthesize s originalQuestion [r] w
     = Ok {| Synthesizer.answer := SubQuestionResult.answer r;
             Synthesizer.confidence := SubQuestionResult.confidence r |} w
  /\ Synthesizer.synthesize
       (Synthesizer.mk provider false language customPrompt)
       originalQuestion (r :: rs) w
     = Ok {| Synthesizer.answer := SubQuestionResult.answer r;
             Synthesizer.confidence := SubQuestionResult.confidence r |} w.
Proof.
  unfold Synthesizer.synthesize.
  repeat split.
  - destruct (Synthesizer.enabled s); reflexivity.
  - destruct (Synthesizer.enabled s); reflexivity.
Qed.

(** The scenario of the specification: one sub-answer of confidence
    medium and synthesis disabled. *)
Example synthesize_single_medium (provider : LLMProvider) (w : World) :
  let sa :=
    SubQuestionResult.mk "What is X?" "X is Y." medium true
      (VotingStats.mk 3 3 0 3 3 3) in
  Synthesizer.synthesize
    (Synthesizer.new provider (mkSynthesisConfig (Some false) None None))
    "What is X?" [sa] w
  = Ok (Synthesizer.mkSynthesis "X is Y." medium) w.
Proof. reflexivity. Qed.

(** ** Reasoning about runs *)

Lemma bind_Ok {A B} (m : M A) (f : A -> M B) (w w' : World) (b : B) :
  bind m f w = Ok b w' ->
  exists a w1, m w = Ok a w1 /\ f a w1 = Ok b w'.
Proof.
  unfold bind. destruct (m w) as [a w1 | e w1 |]; try discriminate.
  intro H. now exists a, w1.
Qed.

Lemma emit_Ok (e : Event) (w w' : World) (u : unit) :
  emit e w = Ok u w' -> calls w' = calls w.
Proof. unfold emit. intro H. injection H as _ <-. reflexivity. Qed.

Lemma ret_Ok {A} (a b : A) (w w' : World) :
  ret a w = Ok b w' -> a = b /\ w = w'.
Proof. unfold ret. intro H. now injection H. Qed.

Lemma sync_Ok {A} (t : Try A) (a : A) (w w' : World) :
  sync t w = Ok a w' -> t = Returned a /\ w = w'.
Proof.
  unfold sync. destruct t; intro H; [| discriminate].
  injection H as -> ->. now split.
Qed.

Ltac invert_run H :=
  repeat
    match type of H with
    | bind _ _ _ = Ok _ _ =>
        let a := fresh "a" in
        let w := fresh "w" in
        let Hm := fresh "Hm" in
        apply bind_Ok in H; destruct H as (a & w & Hm & H)
    | ret _ _ = Ok _ _ =>
        apply ret_Ok in H; destruct H as [H ?]
    end.

Example makerWith_new (sdk : Maker.Sdk) (provider : LLMProvider)
    (decomposition : option Decomposer.Config)
    (voting : option VotingConfig) :
  Maker.new sdk (configWith provider decomposition voting)
  = Maker.Built (makerWith provider decomposition voting).
Proof. reflexivity. Qed.

Example new_unknown_provider (sdk : Maker.Sdk) :
  Maker.new sdk
    (Maker.mkConfig (Maker.ProviderName "unknown") false None None None None)
  = Maker.Fatal "Unknown provider: unknown".
Proof. reflexivity. Qed.

(** ** Aggregation of the voting statistics *)

Lemma fold_left_sumZ {A} (f : A -> Z) (l : list A) (a : Z) :
  fold_left (fun acc x => acc + f x) l a = a + sumZ (map f l).
Proof.
  revert a. induction l as [| x r IH]; intro a; simpl; [lia |].
  rewrite IH. lia.
Qed.

Lemma Math_min_is_minimum (xs : list Z) :
  forall x, is_minimum (Math_min x xs) (x :: xs).
Proof.
  unfold Math_min, is_minimum.
  induction xs as [| y r IH]; intro x; simpl.
  - split; [now left | constructor; [lia | constructor]].
  - destruct (IH (Z.min x y)) as [Hin Hle].
    inversion Hle as [| ? ? Hhd Htl]; subst.
    split.
    + destruct Hin as [Heq | Hin]; [| now right; right].
      rewrite <- Heq.
      destruct (Z.min_spec x y) as [[_ ->] | [_ ->]];
        [now left | now right; left].
    + constructor; [lia |]. constructor; [lia | exact Htl].
Qed.

Lemma Math_max_is_maximum (xs : list Z) :
  forall x, is_maximum (Math_max x xs) (x :: xs).
Proof.
  unfold Math_max, is_maximum.
  induction xs as [| y r IH]; intro x; simpl.
  - split; [now left | constructor; [lia | constructor]].
  - destruct (IH (Z.max x y)) as [Hin Hle].
    inversion Hle as [| ? ? Hhd Htl]; subst.
    split.
    + destruct Hin as [Heq | Hin]; [| now right; right].
      rewrite <- Heq.
      destruct (Z.max_spec x y) as [[_ ->] | [_ ->]];
        [now right; left | now left].
    + constructor; [lia |]. constructor; [lia | exact Htl].
Qed.

Lemma ask_result (fuel : nat) (m : Maker.t) (question : string)
    (options : option AskOptions) (w w' : World) (result : MakerResult.t) :
  Maker.ask fuel m question options w = Ok result w' ->
  exists plan w1 w2 w3,
    Decomposer.decompose (Maker.decomposer m) question
      (Maker.chain options opt_context) w = Ok plan w1
    /\ Maker.resolveAll fuel m options 0 (Decomposer.subQuestions plan) w2
       = Ok (MakerResult.subQuestions result) w3
    /\ MakerResult.votingStats result
       = Maker.aggregateVotingStats m (MakerResult.subQuestions result)
    /\ MakerResult.consensusReached result
       = forallb SubQuestionResult.consensusReached
           (MakerResult.subQuestions result).
Proof.
  unfold Maker.ask. intro H.
  invert_run H. subst result.
  repeat match goal with u : unit |- _ => destruct u end.
  eexists _, _, _, _. simpl.
  repeat split; eassumption.
Qed.

Lemma resolveAll_length (fuel : nat) (m : Maker.t)
    (options : option AskOptions) (sqs : list SubQuestion.t) :
  forall (index : Z) (w w' : World) (srs : list SubQuestionResult.t),
    Maker.resolveAll fuel m options index sqs w = Ok srs w' ->
    List.length srs = List.length sqs.
Proof.
  induction sqs as [| sq rest IH]; intros index w w' srs H; simpl in H.
  - apply ret_Ok in H. destruct H as [<- _]. reflexivity.
  - invert_run H. subst srs. simpl. f_equal.
    eapply IH. eassumption.
Qed.

(** C7: in the result of [ask] there is one sub-result for each
    sub-question of the plan, and [consensusReached] holds exactly when it
    holds for every sub-result; when there are two or more, the aggregated
    [totalVotes], [validVotes] and [redFlaggedVotes] are the sums over the
    sub-results, while the aggregated [winningVoteCount] and [margin] are
    the least values found among the sub-results. *)
Theorem ask_aggregates (fuel : nat) (m : Maker.t) (question : string)
    (options : option AskOptions) (w w' : World) (result : MakerResult.t) :
  Maker.ask fuel m question options w = Ok result w' ->
  let subResults := MakerResult.subQuestions result in
  let stats := MakerResult.votingStats result in
  let each (f : VotingStats.t -> Z) :=
    map (fun r => f (SubQuestionResult.votingStats r)) subResults in
  (exists plan w1,
      Decomposer.decompose (Maker.decomposer m) question
        (Maker.chain options opt_context) w = Ok plan w1
      /\ List.length subResults
         = List.length (Decomposer.subQuestions plan))
  /\ (MakerResult.consensusReached result = true
      <-> Forall (fun r => SubQuestionResult.consensusReached r = true)
            subResults)
  /\ ((2 <= List.length subResults)%nat ->
      VotingStats.totalVotes stats = sumZ (each VotingStats.totalVotes)
      /\ VotingStats.validVotes stats = sumZ (each VotingStats.validVotes)
      /\ VotingStats.redFlaggedVotes stats
         = sumZ (each VotingStats.redFlaggedVotes)
      /\ is_minimum (VotingStats.winningVoteCount stats)
           (each VotingStats.winningVoteCount)
      /\ is_minimum (VotingStats.margin stats) (each VotingStats.margin)).
Proof.
  intros H subResults stats each.
  destruct (ask_result _ _ _ _ _ _ _ H)
    as (plan & w1 & w2 & w3 & Hplan & Hall & Hs & Hc).
  fold subResults in Hs, Hc, Hall. fold stats in Hs.
  split.
  { exists plan, w1. split; [exact Hplan |].
    eapply resolveAll_length. exact Hall. }
  split.
  - rewrite Hc, forallb_forall, Forall_forall. reflexivity.
  - intro Hlen. rewrite Hs. unfold each.
    destruct subResults as [| r1 [| r2 rs]]; simpl in Hlen; try lia.
    unfold Maker.aggregateVotingStats.
    cbn [VotingStats.totalVotes VotingStats.validVotes
         VotingStats.redFlaggedVotes VotingStats.winningVoteCount
         VotingStats.margin].
    rewrite !fold_left_sumZ.
    split; [simpl; lia |]. split; [simpl; lia |]. split; [simpl; lia |].
    split.
    + apply (Math_min_is_minimum
               (map (fun x => VotingStats.winningVoteCount
                                (SubQuestionResult.votingStats x))
                  (r2 :: rs))).
    + apply (Math_min_is_minimum
               (map (fun x => VotingStats.margin
                                (SubQuestionResult.votingStats x))
                  (r2 :: rs))).
Qed.

Lemma ask_aggregates_witness :
  exists result w',
    Maker.ask 10 (makerOf twoStepProvider None) "Complex question?" None
      Maker.start = Ok result w'
    /\ MakerResult.consensusReached result = true
    /\ VotingStats.totalVotes (MakerResult.votingStats result) = 3 + 3
    /\ is_minimum (VotingStats.margin (MakerResult.votingStats result)) [3; 3].
Proof.
  pose proof (ask_aggregates 10 (makerOf twoStepProvider None)
                "Complex question?" None Maker.start _ _
                ltac:(vm_compute; reflexivity)) as (_ & Hall & Hagg).
  eexists. eexists.
  split; [vm_compute; reflexivity |].
  destruct (Hagg ltac:(simpl; lia)) as (Ht & _ & _ & _ & Hm).
  split; [| split; [exact Ht | exact Hm]].
  apply Hall. repeat constructor.
Defined.

(** ** The [k] reported in the statistics *)

Lemma decide_k (e : VotingEngine.t) (st : VotingEngine.LoopState)
    (r : VotingResult.t) :
  VotingEngine.decide e st = VotingEngine.Return r ->
  VotingStats.k (VotingResult.stats r) = VotingEngine.k e.
Proof.
  unfold VotingEngine.decide.
  destruct (map VotingEngine.entryCount (VotingEngine.voteCounts st))
    as [| c cs]; [discriminate |].
  match goal with
  | |- context [match ?x with Some _ => _ | None => _ end] =>
      destruct x as [[key data] |]
  end.
  - intro H. injection H as <-. reflexivity.
  - destruct (_ >=? VotingEngine.maxVotes e); [| discriminate].
    intro H. injection H as <-. reflexivity.
Qed.

Lemma processVote_k (e : VotingEngine.t) (flt : RedFlagFilter.t)
    (st : VotingEngine.LoopState) (vote vote' : Vote.t) (shown : Tally)
    (r : VotingResult.t) :
  VotingEngine.processVote e flt st vote
  = (vote', shown, VotingEngine.Return r) ->
  VotingStats.k (VotingResult.stats r) = VotingEngine.k e.
Proof.
  unfold VotingEngine.processVote.
  destruct (redFlagged _); [discriminate |].
  destruct (negb _); [discriminate |].
  intro H. injection H as _ _ H. now apply decide_k in H.
Qed.

Lemma voteLoop_k (fuel : nat) (e : VotingEngine.t) (provider : LLMProvider)
    (question context : string) (flt : RedFlagFilter.t)
    (onVote : option VotingEngine.OnVote) :
  forall (st : VotingEngine.LoopState) (w w' : World) (r : VotingResult.t),
    VotingEngine.voteLoop fuel e provider question context flt onVote st w
    = Ok r w' ->
    VotingStats.k (VotingResult.stats r) = VotingEngine.k e.
Proof.
  induction fuel as [| fuel IH]; intros st w w' r H; [discriminate |].
  simpl in H.
  apply bind_Ok in H. destruct H as (vote & w1 & _ & H).
  destruct (VotingEngine.processVote e flt st vote)
    as [[vote' shown] step] eqn:E.
  apply bind_Ok in H. destruct H as (u & w2 & _ & H).
  destruct step as [st' | r'].
  - now apply IH in H.
  - apply ret_Ok in H. destruct H as [-> _].
    now apply processVote_k in E.
Qed.

Lemma resolve_k (fuel : nat) (m : Maker.t) (options : option AskOptions)
    (index : Z) (sq : SubQuestion.t) (w w' : World)
    (sr : SubQuestionResult.t) :
  Maker.resolve fuel m options index sq w = Ok sr w' ->
  VotingStats.k (SubQuestionResult.votingStats sr)
  = VotingEngine.k (Maker.engineFor m options).
Proof.
  unfold Maker.resolve. intro H.
  invert_run H. subst sr. cbn [SubQuestionResult.votingStats].
  unfold VotingEngine.voteUntilConsensus in *.
  eapply voteLoop_k. eassumption.
Qed.

Lemma resolveAll_k (fuel : nat) (m : Maker.t) (options : option AskOptions)
    (sqs : list SubQuestion.t) :
  forall (index : Z) (w w' : World) (srs : list SubQuestionResult.t),
    Maker.resolveAll fuel m options index sqs w = Ok srs w' ->
    List.length srs = List.length sqs
    /\ Forall
         (fun sr =>
            VotingStats.k (SubQuestionResult.votingStats sr)
            = VotingEngine.k (Maker.engineFor m options))
         srs.
Proof.
  induction sqs as [| sq rest IH]; intros index w w' srs H; simpl in H.
  - apply ret_Ok in H. destruct H as [<- _]. split; [reflexivity | constructor].
  - invert_run H. subst srs.
    match goal with
    | Hr : Maker.resolveAll _ _ _ _ _ _ = Ok _ _ |- _ =>
        apply IH in Hr; destruct Hr as [Hlen Hall]
    end.
    split; [simpl; now f_equal |].
    constructor; [| exact Hall].
    eapply resolve_k. eassumption.
Qed.

Lemma decompose_nonempty (d : Decomposer.t) (question : string)
    (context : option string) (w w' : World) (plan : Decomposer.Plan) :
  Decomposer.decompose d question context w = Ok plan w' ->
  Decomposer.subQuestions plan <> [].
Proof.
  unfold Decomposer.decompose.
  destruct (negb (Decomposer.enabled d)).
  - intro H. apply ret_Ok in H. destruct H as [<- _]. discriminate.
  - intro H. apply bind_Ok in H. destruct H as (c & w1 & _ & H).
    destruct (negb (Classification.needsDecomposition c)).
    + apply ret_Ok in H. destruct H as [<- _]. discriminate.
    + apply bind_Ok in H. destruct H as (response & w2 & _ & H).
      apply bind_Ok in H. destruct H as (parsed & w3 & _ & H).
      match type of H with
      | (if (List.length ?l =? 0)%nat then _ else _) _ = _ =>
          destruct l as [| sq sqs] eqn:E; simpl in H;
          apply ret_Ok in H; destruct H as [<- _]; simpl
      end.
      * discriminate.
      * discriminate.
Qed.

(** C10: when [ask] is given a per-call [k], every sub-result reports that
    [k]; the aggregated statistics report it when there is exactly one
    sub-result, and report the [k] the orchestrator was constructed with
    (3 when none was configured) when there are two or more; so, unless the
    two values coincide, the aggregate shows the override only for a plan
    of exactly one sub-question. *)
Theorem ask_k_override (sdk : Maker.Sdk) (config : Maker.Config)
    (m : Maker.t) (fuel : nat) (question : string) (context : option string)
    (override : Z) (w w' : World) (result : MakerResult.t) :
  Maker.new sdk config = Maker.Built m ->
  Maker.ask fuel m question (Some (mkAskOptions context (Some override))) w
  = Ok result w' ->
  let configured := nullish (Maker.chain (Maker.cfg_voting config) cfg_k) 3 in
  let subResults := MakerResult.subQuestions result in
  let aggregated := VotingStats.k (MakerResult.votingStats result) in
  Forall
    (fun r => VotingStats.k (SubQuestionResult.votingStats r) = override)
    subResults
  /\ (List.length subResults = 1%nat -> aggregated = override)
  /\ ((2 <= List.length subResults)%nat -> aggregated = configured)
  /\ (configured <> override ->
      (aggregated = override <-> List.length subResults = 1%nat)).
Proof.
  intros Hnew Hask configured subResults aggregated.
  assert (Hengine : VotingEngine.k (Maker.votingEngine m) = configured).
  { unfold Maker.new in Hnew.
    destruct (Maker.createProvider sdk config); [| discriminate].
    injection Hnew as <-. unfold configured. simpl.
    destruct (Maker.cfg_voting config); reflexivity. }
  destruct (ask_result _ _ _ _ _ _ _ Hask)
    as (plan & w1 & w2 & w3 & Hplan & Hall & Hstats & _).
  apply decompose_nonempty in Hplan.
  apply resolveAll_k in Hall. destruct Hall as [Hlen Hks].
  fold subResults in Hlen, Hks, Hstats.
  assert (Hone : List.length subResults = 1%nat -> aggregated = override).
  { intro H1. unfold aggregated. rewrite Hstats.
    destruct subResults as [| r [| r2 rs]]; try discriminate H1.
    simpl. now inversion Hks. }
  assert (Hmany : (2 <= List.length subResults)%nat -> aggregated = configured).
  { intro H2. unfold aggregated. rewrite Hstats.
    destruct subResults as [| r [| r2 rs]]; simpl in H2; try lia.
    exact Hengine. }
  split; [exact Hks |].
  split; [exact Hone |].
  split; [exact Hmany |].
  intro Hdiff. split; [| exact Hone].
  intro Hagg.
  destruct (Decomposer.subQuestions plan) as [| sq sqs]; [contradiction |].
  simpl in Hlen.
  destruct (Nat.eq_dec (List.length subResults) 1) as [H1 | Hn1];
    [exact H1 |].
  exfalso. apply Hdiff. rewrite <- Hmany by lia. exact Hagg.
Qed.

Lemma ask_k_override_witness :
  exists result w',
    Maker.ask 10
      (makerOf twoStepProvider (Some (mkVotingConfig (Some 2) None)))
      "Complex question?" (Some (mkAskOptions None (Some 1))) Maker.start
    = Ok result w'
    /\ Forall
         (fun r => VotingStats.k (SubQuestionResult.votingStats r) = 1)
         (MakerResult.subQuestions result)
    /\ VotingStats.k (MakerResult.votingStats result) = 2.
Proof.
  pose proof (ask_k_override
                (Maker.mkSdk failingProvider failingProvider failingProvider)
                (configOf twoStepProvider (Some (mkVotingConfig (Some 2) None)))
                _ 10 "Complex question?" None 1 Maker.start _ _
                eq_refl ltac:(vm_compute; reflexivity))
    as (Heach & _ & Hmany & _).
  eexists. eexists.
  split; [vm_compute; reflexivity |].
  split; [exact Heach |].
  apply Hmany. simpl. lia.
Defined.

(** ** The safety limit of the voting loop *)

Lemma generateVote_run (provider : LLMProvider) (question context : string)
    (temperature : Q) (voteIndex : Z) (w : World) :
  VotingEngine.generateVote provider question context temperature voteIndex w
  = Ok (sampleOf
          (complete provider (calls w)
             (mkRequest (PromptAnswer question context) temperature true))
          temperature voteIndex)
       (mkWorld (S (calls w)) (events w)).
Proof.
  unfold VotingEngine.generateVote, tryCatch, bind, await_complete.
  destruct (complete provider (calls w) _); reflexivity.
Qed.

Lemma processVote_discarded (e : VotingEngine.t) (flt : RedFlagFilter.t)
    (st : VotingEngine.LoopState) (vote : Vote.t) :
  discarded flt vote = true ->
  exists vote' st',
    VotingEngine.processVote e flt st vote
    = (vote', VotingEngine.voteCounts st, VotingEngine.Continue st')
    /\ VotingEngine.voteCounts st' = VotingEngine.voteCounts st.
Proof.
  unfold discarded, VotingEngine.processVote. intro H.
  destruct (redFlagged _).
  - eexists _, _. split; reflexivity.
  - simpl in H. rewrite H. eexists _, _. split; reflexivity.
Qed.

Lemma voteLoop_all_discarded
    (e : VotingEngine.t) (flt : RedFlagFilter.t) (provider : LLMProvider)
    (question context : string) (onVote : option VotingEngine.OnVote) :
  (forall n request temperature voteIndex,
      discarded flt (sampleOf (complete provider n request)
                       temperature voteIndex) = true) ->
  forall (fuel : nat) (st : VotingEngine.LoopState) (w : World),
    VotingEngine.voteLoop fuel e provider question context flt onVote st w
    = OutOfFuel.
Proof.
  intros Hall fuel.
  induction fuel as [| fuel IH]; intros st w; [reflexivity |].
  cbn [VotingEngine.voteLoop]. unfold bind at 1.
  rewrite generateVote_run.
  destruct (processVote_discarded e flt st _ (Hall (calls w)
              (mkRequest (PromptAnswer question context)
                 (if VotingEngine.voteIndex st =? 0 then 0%Q else (1 # 10)%Q)
                 true)
              (if VotingEngine.voteIndex st =? 0 then 0%Q else (1 # 10)%Q)
              (VotingEngine.voteIndex st)))
    as (vote' & st' & -> & _).
  unfold bind, emitAll. apply IH.
Qed.

(** C1 (the code on oracles none of whose samples reaches the tally): the
    two [continue] statements skip the safety limit, which is only tested
    after a sample was tallied; so when every sample is rejected by the
    filter or normalizes to the empty string, the loop has not returned
    after any number of samples, whatever [maxVotes] is. *)
Theorem voteUntilConsensus_unbounded_when_all_discarded
    (e : VotingEngine.t) (flt : RedFlagFilter.t) (provider : LLMProvider)
    (question context : string) (onVote : option VotingEngine.OnVote) :
  (forall n request temperature voteIndex,
      discarded flt (sampleOf (complete provider n request)
                       temperature voteIndex) = true) ->
  forall (fuel : nat) (w : World),
    VotingEngine.voteUntilConsensus fuel e provider question context flt
      onVote w = OutOfFuel.
Proof.
  intros Hall fuel w. unfold VotingEngine.voteUntilConsensus.
  now apply voteLoop_all_discarded.
Qed.

Lemma voteUntilConsensus_unbounded_witness :
  VotingEngine.voteUntilConsensus 101 (VotingEngine.new Maker.noVoting)
    failingProvider "Test question?" "" RedFlagFilter.default None
    Maker.start = OutOfFuel
  /\ VotingEngine.voteUntilConsensus 101 (VotingEngine.new Maker.noVoting)
       (constantProvider (answers "Hi" high)) "Test question?" ""
       RedFlagFilter.default None Maker.start = OutOfFuel
  /\ VotingEngine.voteUntilConsensus 101 (VotingEngine.new Maker.noVoting)
       (constantProvider (answers "....." high)) "Test question?" ""
       RedFlagFilter.default None Maker.start = OutOfFuel.
Proof.
  split; [| split];
    apply voteUntilConsensus_unbounded_when_all_discarded;
    intros n request temperature voteIndex; reflexivity.
Defined.

(** What the safety limit does guarantee: once a sample has been tallied
    with the total at or above [maxVotes], the loop returns. *)
Lemma decide_returns_at_limit (e : VotingEngine.t)
    (st : VotingEngine.LoopState) :
  VotingEngine.voteCounts st <> [] ->
  VotingEngine.maxVotes e
  <= Z.of_nat (List.length (VotingEngine.allVotes st)) ->
  exists r, VotingEngine.decide e st = VotingEngine.Return r.
Proof.
  intros Hne Hmax. unfold VotingEngine.decide.
  destruct (VotingEngine.voteCounts st) as [| entry rest] eqn:E;
    [contradiction |].
  cbn [map].
  match goal with
  | |- context [match ?x with Some _ => _ | None => _ end] =>
      destruct x as [[key data] |]
  end.
  - eexists. reflexivity.
  - destruct (Z.geb_spec (Z.of_nat (List.length (VotingEngine.allVotes st)))
                (VotingEngine.maxVotes e)) as [_ | Hlt]; [| lia].
    eexists. reflexivity.
Qed.

(** ** An oracle that fails *)

Lemma generateVote_never_raises (provider : LLMProvider)
    (question context : string) (temperature : Q) (voteIndex : Z) (w : World) :
  exists vote w',
    VotingEngine.generateVote provider question context temperature voteIndex w
    = Ok vote w'.
Proof. rewrite generateVote_run. now eexists _, _. Qed.

(** C4 (the code at two failing inputs).  With the default configuration
    the first oracle call is the classification: when it is rejected
    nothing catches the error and [ask] raises.  With decomposition
    disabled the failed calls become rejected votes, none of which reaches
    the test of the safety limit, and [ask] does not return at all. *)
Theorem ask_does_not_resolve_when_oracle_fails (fuel : nat)
    (question : string) (options : option AskOptions) :
  Maker.ask fuel (makerOf failingProvider None) question options Maker.start
  = Throw "API Error" (mkWorld 1 [])
  /\ Maker.ask fuel (makerWith failingProvider decompositionOff None)
       question options Maker.start
     = OutOfFuel.
Proof.
  split; [reflexivity |].
  unfold Maker.ask, makerWith.
  cbn [Maker.decomposer Decomposer.decompose Decomposer.new nullish
       decompositionOff Decomposer.cfg_enabled Decomposer.enabled negb].
  unfold bind at 1. unfold ret at 1.
  cbn [Decomposer.subQuestions].
  unfold bind at 1, emit at 1. unfold bind at 1, emit at 1.
  unfold bind at 1.
  cbn [Maker.resolveAll]. unfold bind at 1.
  unfold Maker.resolve. unfold bind at 1, emit at 1.
  unfold bind at 1.
  unfold VotingEngine.voteUntilConsensus.
  rewrite voteLoop_all_discarded; [reflexivity |].
  intros n request temperature voteIndex. reflexivity.
Qed.

(** ** Sorting by count *)

Section Sorting.
Context {A : Type} (key : A -> Z).

Lemma insertDesc_perm (x : A) (l : list A) :
  Permutation (x :: l) (insertDesc key x l).
Proof.
  induction l as [| y r IH]; simpl; [reflexivity |].
  destruct (key y <=? key x); [reflexivity |].
  rewrite perm_swap. now apply perm_skip.
Qed.

Lemma sortDesc_perm (l : list A) : Permutation l (sortDesc key l).
Proof.
  induction l as [| x r IH]; simpl; [reflexivity |].
  rewrite <- insertDesc_perm. now apply perm_skip.
Qed.

Lemma insertDesc_descending (x : A) (l : list A) :
  descending key l -> descending key (insertDesc key x l).
Proof.
  induction l as [| y r IH]; simpl;
    [intros _; split; [constructor | exact I] |].
  intros [Hy Hr].
  destruct (Z.leb_spec (key y) (key x)) as [Hle | Hgt]; simpl.
  - split; [| split; assumption].
    constructor; [exact Hle |].
    eapply Forall_impl; [| exact Hy]. simpl. intros; lia.
  - split; [| now apply IH].
    rewrite <- insertDesc_perm. constructor; [lia | exact Hy].
Qed.

Lemma sortDesc_descending (l : list A) : descending key (sortDesc key l).
Proof.
  induction l as [| x r IH]; simpl; [exact I |].
  now apply insertDesc_descending.
Qed.

Lemma insertDesc_map (x : A) (l : list A) :
  map key (insertDesc key x l)
  = insertDesc (fun z => z) (key x) (map key l).
Proof.
  induction l as [| y r IH]; simpl; [reflexivity |].
  destruct (key y <=? key x); simpl; [reflexivity | now rewrite IH].
Qed.

Lemma sortDesc_map (l : list A) :
  map key (sortDesc key l) = sortDesc (fun z => z) (map key l).
Proof.
  induction l as [| x r IH]; simpl; [reflexivity |].
  now rewrite insertDesc_map, IH.
Qed.

Lemma sortDesc_length (l : list A) :
  List.length (sortDesc key l) = List.length l.
Proof. symmetry. apply Permutation_length, sortDesc_perm. Qed.

End Sorting.

Lemma is_maximum_perm (m : Z) (l l' : list Z) :
  Permutation l l' -> is_maximum m l -> is_maximum m l'.
Proof.
  intros P [Hin Hall]. split.
  - eapply Permutation_in; eassumption.
  - eapply Permutation_Forall; eassumption.
Qed.

Lemma is_maximum_unique (m m' : Z) (l : list Z) :
  is_maximum m l -> is_maximum m' l -> m = m'.
Proof.
  intros [Hin Hall] [Hin' Hall'].
  rewrite Forall_forall in Hall, Hall'.
  apply Hall' in Hin. apply Hall in Hin'. lia.
Qed.

Lemma is_runner_up_perm (r : Z) (l l' : list Z) :
  Permutation l l' -> is_runner_up l r -> is_runner_up l' r.
Proof.
  intros P [[Hlen Hr] | (m & rest & Hp & Hle & Hall)].
  - left. split; [| exact Hr].
    now rewrite <- (Permutation_length P).
  - right. exists m, rest. split; [| now split].
    now rewrite <- P.
Qed.

(** The head of the sorted counts is the greatest count, and
    [sortedCounts[1]] is the runner-up. *)
Lemma sorted_counts_head (counts : list Z) (m : Z) (rest : list Z) :
  sortDesc (fun z => z) counts = m :: rest -> is_maximum m counts.
Proof.
  intro E.
  apply (is_maximum_perm m (m :: rest)).
  - rewrite <- E. symmetry. apply sortDesc_perm.
  - pose proof (sortDesc_descending (fun z => z) counts) as D.
    rewrite E in D. destruct D as [Hall _].
    split; [now left |]. constructor; [lia | exact Hall].
Qed.

Lemma sorted_counts_second (counts : list Z) :
  is_runner_up counts
    (VotingEngine.second (sortDesc (fun z => z) counts)).
Proof.
  pose proof (sortDesc_perm (fun z => z) counts) as P.
  pose proof (sortDesc_descending (fun z => z) counts) as D.
  destruct (sortDesc (fun z => z) counts) as [| m [| r rest]] eqn:E.
  - left. rewrite (Permutation_length P). simpl. split; [lia | reflexivity].
  - left. rewrite (Permutation_length P). simpl. split; [lia | reflexivity].
  - right. exists m, rest. simpl.
    destruct D as [Hm [Hr _]].
    split; [exact P |].
    split; [now inversion Hm | exact Hr].
Qed.

(** ** What the tally records *)

Lemma recordVote_keys_old (t : Tally) (key : string) (v : Vote.t) :
  In key (map fst t) ->
  map fst (VotingEngine.recordVote t key v) = map fst t.
Proof.
  induction t as [| [k0 d0] rest IH]; simpl; [contradiction |].
  intros [-> | Hin].
  - now rewrite String.eqb_refl.
  - destruct (String.eqb k0 key); simpl; [reflexivity |].
    now rewrite IH.
Qed.

Lemma recordVote_keys_new (t : Tally) (key : string) (v : Vote.t) :
  ~ In key (map fst t) ->
  VotingEngine.recordVote t key v = t ++ [(key, opened v)].
Proof.
  induction t as [| [k0 d0] rest IH]; simpl; [reflexivity |].
  intro Hnot.
  destruct (String.eqb_spec k0 key) as [-> | Hne].
  - exfalso. apply Hnot. now left.
  - rewrite IH; [reflexivity |]. intro H. apply Hnot. now right.
Qed.

Lemma recordVote_entries (t : Tally) (key : string) (v : Vote.t) :
  NoDup (map fst t) ->
  forall k' d',
    In (k', d') (VotingEngine.recordVote t key v) ->
    (k' <> key /\ In (k', d') t)
    \/ (k' = key /\ exists d, In (key, d) t /\ d' = joined d v)
    \/ (k' = key /\ ~ In key (map fst t) /\ d' = opened v).
Proof.
  induction t as [| [k0 d0] rest IH]; simpl; intros Hnd k' d' Hin.
  - destruct Hin as [E | []]. injection E as <- <-.
    right; right. repeat split. tauto.
  - inversion Hnd as [| ? ? Hk0 Hrest]; subst.
    destruct (String.eqb_spec k0 key) as [-> | Hne].
    + destruct Hin as [E | Hin].
      * injection E as <- <-. right; left.
        split; [reflexivity |]. exists d0. split; [now left | reflexivity].
      * left. split; [| now right].
        intros ->. apply Hk0. now apply (in_map fst) in Hin.
    + destruct Hin as [E | Hin].
      * injection E as <- <-. left. split; [exact Hne | now left].
      * destruct (IH Hrest _ _ Hin)
          as [[Hk Hi] | [[Hk (d & Hi & Hd)] | (Hk & Hi & Hd)]].
        -- left. split; [exact Hk | now right].
        -- right; left. split; [exact Hk |].
           exists d. split; [now right | exact Hd].
        -- right; right. repeat split; try assumption.
           intros [E | H]; [now apply Hne | now apply Hi].
Qed.

Lemma recordVote_nonempty (t : Tally) (key : string) (v : Vote.t) :
  VotingEngine.recordVote t key v <> [].
Proof.
  destruct t as [| [k0 d0] rest]; simpl; [discriminate |].
  destruct (String.eqb k0 key); discriminate.
Qed.

Lemma bucket_snoc (key : string) (h : list Vote.t) (v : Vote.t) :
  bucket key (h ++ [v])
  = bucket key h
    ++ (if String.eqb (VotingEngine.normalizeAnswer (Vote.answer v)) key
        then [v] else []).
Proof. unfold bucket. now rewrite filter_app. Qed.

Lemma bucket_In (key : string) (h : list Vote.t) (v : Vote.t) :
  In v (bucket key h)
  <-> In v h /\ VotingEngine.normalizeAnswer (Vote.answer v) = key.
Proof.
  unfold bucket. rewrite filter_In.
  now rewrite String.eqb_eq.
Qed.

(** The ranking the code compares confidences with is the ordering of
    the specification. *)
Lemma compareConfidence_above (a b : ConfidenceLevel) :
  VotingEngine.compareConfidence a b > 0 <-> above a b.
Proof.
  unfold VotingEngine.compareConfidence, VotingEngine.order.
  destruct a, b; split; intro H;
    first [lia | constructor | inversion H].
Qed.

Lemma above_trans (a b c : ConfidenceLevel) :
  above a b -> above b c -> above a c.
Proof. intros Hab Hbc. destruct Hab; inversion Hbc; constructor. Qed.

Lemma above_irrefl (a : ConfidenceLevel) : ~ above a a.
Proof. intro H. inversion H. Qed.

Lemma best_confidence_snoc (c : ConfidenceLevel) (votes : list Vote.t)
    (v : Vote.t) :
  best_confidence c votes ->
  best_confidence
    (if VotingEngine.compareConfidence (Vote.confidence v) c >? 0
     then Vote.confidence v else c)
    (votes ++ [v]).
Proof.
  intros [(v0 & Hin & Hc) Hall].
  destruct (Z.gtb_spec
              (VotingEngine.compareConfidence (Vote.confidence v) c) 0)
    as [Hgt | Hle].
  - assert (Habove : above (Vote.confidence v) c).
    { apply compareConfidence_above. lia. }
    split.
    + exists v. split; [apply in_or_app; right; now left | reflexivity].
    + apply Forall_app. split.
      * eapply Forall_impl; [| exact Hall]. cbn beta.
        intros v1 Hv1 Hno. apply Hv1.
        now apply (above_trans _ (Vote.confidence v)).
      * constructor; [apply above_irrefl | constructor].
  - assert (Hnot : ~ above (Vote.confidence v) c).
    { intro Habove. apply compareConfidence_above in Habove. lia. }
    split.
    + exists v0. split; [apply in_or_app; now left | exact Hc].
    + apply Forall_app. split; [exact Hall |].
      constructor; [exact Hnot | constructor].
Qed.

(** Counting one more vote keeps the tally faithful to the history. *)
Lemma represents_recordVote (t : Tally) (h : list Vote.t) (v : Vote.t) :
  represents t h ->
  represents
    (VotingEngine.recordVote t
       (VotingEngine.normalizeAnswer (Vote.answer v)) v)
    (h ++ [v]).
Proof.
  set (key := VotingEngine.normalizeAnswer (Vote.answer v)).
  intros (Hnd & Hcover & Hrec).
  rewrite Forall_forall in Hrec.
  assert (Hkeys :
            forall k', In k' (map fst t) ->
                       In k' (map fst (VotingEngine.recordVote t key v))).
  { intros k' Hk'.
    destruct (in_dec string_dec key (map fst t)) as [Hold | Hnew].
    - now rewrite recordVote_keys_old.
    - rewrite recordVote_keys_new by assumption.
      rewrite map_app. apply in_or_app. now left. }
  split; [| split].
  - destruct (in_dec string_dec key (map fst t)) as [Hold | Hnew].
    + now rewrite recordVote_keys_old.
    + rewrite recordVote_keys_new by assumption.
      rewrite map_app. simpl.
      apply NoDup_rev in Hnd. rewrite <- (rev_involutive (map fst t ++ [key])).
      apply NoDup_rev. rewrite rev_app_distr. simpl.
      constructor; [| exact Hnd].
      now rewrite <- in_rev.
  - intros v' Hin. apply in_app_or in Hin. destruct Hin as [Hin | [<- | []]].
    + apply Hkeys. now apply Hcover.
    + fold key.
      destruct (in_dec string_dec key (map fst t)) as [Hold | Hnew].
      * now rewrite recordVote_keys_old.
      * rewrite recordVote_keys_new by assumption.
        rewrite map_app. apply in_or_app. right. now left.
  - rewrite Forall_forall. intros [k' d'] Hin.
    unfold records. cbn [fst snd]. rewrite bucket_snoc. fold key.
    destruct (recordVote_entries t key v Hnd _ _ Hin)
      as [[Hk Hi] | [[Hk (d & Hi & Hd)] | (Hk & Hi & Hd)]].
    + destruct (String.eqb_spec key k') as [E | _]; [now symmetry in E |].
      rewrite app_nil_r. exact (Hrec _ Hi).
    + subst k' d'. rewrite String.eqb_refl.
      destruct (Hrec _ Hi) as (first & others & Hb & Hc & Ho & Hbest).
      cbn [fst snd] in Hb, Hc, Ho, Hbest.
      exists first, (others ++ [v]).
      rewrite Hb. split; [reflexivity |].
      unfold joined. cbn [VoteData.count VoteData.originalAnswer
                            VoteData.confidence].
      split; [| split; [exact Ho |]].
      * rewrite Hc. change (first :: others ++ [v])
          with ((first :: others) ++ [v]).
        rewrite length_app. simpl. lia.
      * change (first :: others ++ [v]) with ((first :: others) ++ [v]).
        now apply best_confidence_snoc.
    + subst k' d'. rewrite String.eqb_refl.
      assert (Hempty : bucket key h = []).
      { destruct (bucket key h) as [| v0 rest] eqn:E; [reflexivity |].
        exfalso. apply Hi.
        assert (Hv0 : In v0 (bucket key h)) by (rewrite E; now left).
        apply bucket_In in Hv0. destruct Hv0 as [Hv0 <-].
        now apply Hcover. }
      rewrite Hempty. exists v, []. simpl.
      repeat split.
      * exists v. split; [now left | reflexivity].
      * constructor; [apply above_irrefl | constructor].
Qed.

Lemma represents_nil : represents [] [].
Proof.
  split; [constructor | split; [intros v [] | constructor]].
Qed.

(** ** One-shot scoring *)

Lemma countVotes_represents (votes : list Vote.t) :
  represents (VotingEngine.countVotes votes)
    (filter
       (fun v =>
          JsString.truthy (VotingEngine.normalizeAnswer (Vote.answer v)))
       votes).
Proof.
  unfold VotingEngine.countVotes.
  rewrite <- (app_nil_l (filter _ votes)).
  generalize represents_nil. generalize (@nil Vote.t) as h.
  generalize (@nil (string * VoteData.t)) as t.
  induction votes as [| v vs IH]; intros t h Hrep; simpl.
  - now rewrite app_nil_r.
  - destruct (JsString.truthy
                (VotingEngine.normalizeAnswer (Vote.answer v))) eqn:E; simpl.
    + change (h ++ v :: filter ?f vs) with (h ++ [v] ++ filter f vs).
      rewrite app_assoc. apply IH. now apply represents_recordVote.
    + now apply IH.
Qed.

Lemma bucket_nonempty_answers (key : string) (votes : list Vote.t) :
  key <> "" ->
  bucket key
    (filter
       (fun v =>
          JsString.truthy (VotingEngine.normalizeAnswer (Vote.answer v)))
       votes)
  = bucket key votes.
Proof.
  intro Hkey. unfold bucket.
  induction votes as [| v vs IH]; simpl; [reflexivity |].
  destruct (JsString.truthy (VotingEngine.normalizeAnswer (Vote.answer v)))
    eqn:E; simpl; rewrite IH; [reflexivity |].
  apply truthy_false_iff in E. rewrite E.
  destruct (String.eqb_spec "" key) as [E' | _]; [| reflexivity].
  now symmetry in E'.
Qed.

Lemma represents_key (t : Tally) (h : list Vote.t) (key : string) :
  represents t h ->
  (In key (map fst t)
   <-> exists v, In v h /\ VotingEngine.normalizeAnswer (Vote.answer v) = key).
Proof.
  intros (_ & Hcover & Hrec). rewrite Forall_forall in Hrec. split.
  - intro Hin. apply in_map_iff in Hin. destruct Hin as ([k d] & <- & Hin).
    destruct (Hrec _ Hin) as (first & others & Hb & _).
    exists first. apply bucket_In. rewrite Hb. now left.
  - intros (v & Hin & <-). now apply Hcover.
Qed.

(** The counts of a faithful tally are, up to order, the numbers of votes
    of the distinct answers. *)
Lemma represents_counts (t : Tally) (h : list Vote.t) (keys : list string) :
  represents t h ->
  NoDup keys ->
  (forall key,
      In key keys
      <-> exists v,
            In v h /\ VotingEngine.normalizeAnswer (Vote.answer v) = key) ->
  Permutation
    (map (fun key => Z.of_nat (List.length (bucket key h))) keys)
    (map VotingEngine.entryCount t)
  /\ List.length keys = List.length t.
Proof.
  intros Hrep Hnd Hkeys.
  assert (P : Permutation keys (map fst t)).
  { apply NoDup_Permutation; [exact Hnd | apply Hrep |].
    intro key. rewrite Hkeys. symmetry. now apply represents_key. }
  split.
  - rewrite (Permutation_map _ P), map_map.
    destruct Hrep as (_ & _ & Hrec). rewrite Forall_forall in Hrec.
    erewrite map_ext_in; [reflexivity |].
    intros entry Hin. simpl.
    destruct (Hrec _ Hin) as (first & others & Hb & Hc & _).
    unfold VotingEngine.entryCount. now rewrite Hc, Hb.
  - rewrite (Permutation_length P). apply length_map.
Qed.

(** C3: [determineWinner] drops the red-flagged votes and the votes whose
    normalized answer is empty, and scores what remains: the winning count
    is the greatest number of votes of one normalized answer, the margin is
    that count minus the runner-up count (0 without a runner-up); with two
    or more distinct answers consensus holds exactly when the margin is at
    least [k], with exactly one exactly when its count is at least [k], and
    with none there is no consensus. *)
Theorem determineWinner_scoring (e : VotingEngine.t) (votes : list Vote.t)
    (keys : list string) :
  let valid :=
    filter (fun v => negb (nullish (Vote.redFlagged v) false)) votes in
  let occ := fun key => Z.of_nat (List.length (bucket key valid)) in
  let r := VotingEngine.determineWinner e votes in
  let winning := VotingStats.winningVoteCount (VotingResult.stats r) in
  NoDup keys ->
  (forall key,
      In key keys
      <-> key <> ""
          /\ exists v,
               In v valid
               /\ VotingEngine.normalizeAnswer (Vote.answer v) = key) ->
  exists runnerUp,
    VotingStats.margin (VotingResult.stats r) = winning - runnerUp
    /\ is_runner_up (map occ keys) runnerUp
    /\ (keys <> [] -> is_maximum winning (map occ keys))
    /\ ((2 <= List.length keys)%nat ->
        (VotingResult.consensusReached r = true
         <-> winning - runnerUp >= VotingEngine.k e))
    /\ (List.length keys = 1%nat ->
        (VotingResult.consensusReached r = true
         <-> winning >= VotingEngine.k e))
    /\ (keys = [] ->
        VotingResult.consensusReached r = false /\ winning = 0).
Proof.
  intros valid occ r winning Hnd Hkeys.
  set (h := filter
              (fun v => JsString.truthy
                          (VotingEngine.normalizeAnswer (Vote.answer v)))
              valid).
  pose proof (countVotes_represents valid) as Hrep. fold h in Hrep.
  assert (Hkeys' :
            forall key,
              In key keys
              <-> exists v,
                    In v h
                    /\ VotingEngine.normalizeAnswer (Vote.answer v) = key).
  { intro key. rewrite Hkeys. unfold h. split.
    - intros (Hne & v & Hin & Hv). exists v. split; [| exact Hv].
      apply filter_In. split; [exact Hin |]. rewrite Hv.
      destruct key; [contradiction | reflexivity].
    - intros (v & Hin & Hv). apply filter_In in Hin.
      destruct Hin as [Hin Ht]. rewrite Hv in Ht.
      split; [intros ->; discriminate |]. now exists v. }
  destruct (represents_counts _ _ _ Hrep Hnd Hkeys') as [P Hlen].
  assert (Pocc : Permutation (map occ keys)
                   (map VotingEngine.entryCount
                      (VotingEngine.countVotes valid))).
  { rewrite <- P. erewrite map_ext_in; [reflexivity |].
    intros key Hin. unfold occ, h.
    rewrite bucket_nonempty_answers; [reflexivity |].
    now apply Hkeys in Hin. }
  clear P Hkeys'.
  assert (Hnone : keys = [] -> VotingEngine.countVotes valid = []).
  { intros ->. simpl in Hlen.
    now destruct (VotingEngine.countVotes valid). }
  subst r winning. unfold VotingEngine.determineWinner. fold valid.
  set (t := VotingEngine.countVotes valid) in *.
  pose proof (sortDesc_map VotingEngine.entryCount t) as Hmap.
  pose proof (sortDesc_length VotingEngine.entryCount t) as Hslen.
  pose proof (sorted_counts_second (map VotingEngine.entryCount t)) as Hsecond.
  destruct (List.length valid =? 0)%nat eqn:Hvalid.
  - (* no valid vote at all *)
    apply Nat.eqb_eq in Hvalid.
    assert (Hk : keys = []).
    { destruct keys as [| key ?]; [reflexivity |].
      destruct (proj1 (Hkeys key) (or_introl eq_refl)) as (_ & v & Hin & _).
      destruct valid; [contradiction | discriminate]. }
    exists 0. subst keys. simpl.
    split; [reflexivity |].
    split; [left; simpl; split; [lia | reflexivity] |].
    split; [congruence |].
    split; [simpl; lia |].
    split; [discriminate |].
    intros _. split; reflexivity.
  - destruct (sortDesc VotingEngine.entryCount t)
      as [| [wkey winnerData] others] eqn:Hsorted.
    + (* nothing was tallied *)
      simpl in Hslen.
      assert (Hk : keys = []).
      { destruct keys; [reflexivity |]. simpl in Hlen. lia. }
      exists 0. subst keys. simpl.
      split; [reflexivity |].
      split; [left; simpl; split; [lia | reflexivity] |].
      split; [congruence |].
      split; [simpl; lia |].
      split; [discriminate |].
      intros _. split; reflexivity.
    + set (runnerUpVotes :=
             match others with
             | runnerUp :: _ => VoteData.count (snd runnerUp)
             | [] => 0
             end).
      assert (Hr : VotingEngine.second
                     (sortDesc (fun z => z) (map VotingEngine.entryCount t))
                   = runnerUpVotes).
      { rewrite <- Hmap. simpl. now destruct others. }
      rewrite Hr in Hsecond.
      exists runnerUpVotes.
      cbn [VotingResult.stats VotingResult.consensusReached
           VotingEngine.createStats VotingStats.margin
           VotingStats.winningVoteCount].
      split; [reflexivity |].
      split;
        [eapply is_runner_up_perm; [symmetry; exact Pocc | exact Hsecond] |].
      split.
      { intros _. eapply is_maximum_perm; [symmetry; exact Pocc |].
        eapply sorted_counts_head. rewrite <- Hmap. reflexivity. }
      assert (Hn : List.length ((wkey, winnerData) :: others)
                   = List.length keys) by congruence.
      split; [| split].
      * intro H2.
        destruct (Nat.eqb_spec
                    (List.length ((wkey, winnerData) :: others)) 1)
          as [H1 | _]; [lia |].
        rewrite Z.geb_le. lia.
      * intro H1. rewrite Hn, H1. simpl.
        rewrite Z.geb_le. lia.
      * intros ->. simpl in Hn. discriminate.
Qed.

Example determineWinner_scenarios :
  let engine := VotingEngine.new (mkVotingConfig (Some 2) None) in
  let ahead :=
    VotingEngine.determineWinner engine
      [sample 0 "Paris" high; sample 1 "Paris" high; sample 2 "Paris" high;
       sample 3 "London" medium] in
  let close :=
    VotingEngine.determineWinner engine
      [sample 0 "Paris" high; sample 1 "Paris" high; sample 2 "Paris" high;
       sample 3 "London" high; sample 4 "London" high] in
  (VotingResult.consensusReached ahead = true
   /\ VotingResult.winner ahead = Some "Paris"
   /\ VotingStats.margin (VotingResult.stats ahead) = 2)
  /\ (VotingResult.consensusReached close = false
      /\ VotingStats.margin (VotingResult.stats close) = 1).
Proof. repeat split; reflexivity. Qed.

Lemma determineWinner_scoring_witness :
  let votes :=
    [sample 0 "Paris" high; sample 1 "PARIS" low; sample 2 "Paris." high;
     sample 3 "London" medium] in
  VotingResult.consensusReached
    (VotingEngine.determineWinner
       (VotingEngine.new (mkVotingConfig (Some 2) None)) votes) = true.
Proof.
  intro votes.
  destruct (determineWinner_scoring
              (VotingEngine.new (mkVotingConfig (Some 2) None)) votes
              ["paris"; "london"])
    as (runnerUp & Hmargin & _ & _ & Hmany & _).
  - repeat constructor; simpl; intuition discriminate.
  - intro key. split.
    + intros [<- | [<- | []]].
      * split; [discriminate |].
        exists (sample 0 "Paris" high). split; [now left | reflexivity].
      * split; [discriminate |].
        exists (sample 3 "London" medium).
        split; [now right; right; right; left | reflexivity].
    + intros (_ & v & Hin & <-).
      destruct Hin as [<- | [<- | [<- | [<- | []]]]]; simpl; tauto.
  - apply Hmany; [simpl; lia |].
    rewrite <- Hmargin. vm_compute. discriminate.
Defined.

(** ** The continuous voting loop *)

Lemma voteLoop_step (fuel : nat) (e : VotingEngine.t) (provider : LLMProvider)
    (question context : string) (flt : RedFlagFilter.t)
    (onVote : option VotingEngine.OnVote) (st : VotingEngine.LoopState)
    (w : World) :
  let temperature :=
    if VotingEngine.voteIndex st =? 0 then 0%Q else (1 # 10)%Q in
  let vote :=
    sampleOf
      (complete provider (calls w)
         (mkRequest (PromptAnswer question context) temperature true))
      temperature (VotingEngine.voteIndex st) in
  let shown := fst (VotingEngine.processVote e flt st vote) in
  let w' :=
    mkWorld (S (calls w))
      (events w
       ++ match onVote with
          | Some f => f (fst shown) (snd shown)
          | None => []
          end) in
  VotingEngine.voteLoop (S fuel) e provider question context flt onVote st w
  = match snd (VotingEngine.processVote e flt st vote) with
    | VotingEngine.Continue st' =>
        VotingEngine.voteLoop fuel e provider question context flt onVote
          st' w'
    | VotingEngine.Return r => Ok r w'
    end.
Proof.
  cbn zeta. cbn [VotingEngine.voteLoop]. unfold bind at 1.
  rewrite generateVote_run.
  destruct (VotingEngine.processVote e flt st _) as [[vote' tally] step].
  destruct step; reflexivity.
Qed.

Lemma processVote_tallied (e : VotingEngine.t) (flt : RedFlagFilter.t)
    (st : VotingEngine.LoopState) (vote : Vote.t) :
  discarded flt vote = false ->
  let tally :=
    VotingEngine.recordVote (VotingEngine.voteCounts st)
      (VotingEngine.normalizeAnswer (Vote.answer vote)) vote in
  VotingEngine.processVote e flt st vote
  = (vote, tally,
     VotingEngine.decide e
       (VotingEngine.mkLoop tally (VotingEngine.allVotes st ++ [vote])
          (VotingEngine.validVoteCount st + 1)
          (VotingEngine.voteIndex st + 1))).
Proof.
  unfold discarded, VotingEngine.processVote. intro H.
  apply orb_false_elim in H. destruct H as [-> ->]. reflexivity.
Qed.

Lemma find_count (t : Tally) (m : Z) :
  In m (map VotingEngine.entryCount t) ->
  exists key data,
    find (fun entry => VotingEngine.entryCount entry =? m) t
    = Some (key, data)
    /\ In (key, data) t /\ VoteData.count data = m.
Proof.
  intro Hin.
  destruct (find (fun entry => VotingEngine.entryCount entry =? m) t)
    as [[key data] |] eqn:E.
  - exists key, data. apply find_some in E. destruct E as [Hi He].
    apply Z.eqb_eq in He. now repeat split.
  - exfalso. apply in_map_iff in Hin. destruct Hin as (entry & He & Hi).
    apply (find_none _ _ E) in Hi. simpl in Hi.
    rewrite He, Z.eqb_refl in Hi. discriminate.
Qed.

(** What the checks after a counted vote decide. *)
Lemma decide_spec (e : VotingEngine.t) (st : VotingEngine.LoopState) :
  VotingEngine.voteCounts st <> [] ->
  let counts := map VotingEngine.entryCount (VotingEngine.voteCounts st) in
  let total := Z.of_nat (List.length (VotingEngine.allVotes st)) in
  exists maxCount runnerUpCount,
    is_maximum maxCount counts
    /\ is_runner_up counts runnerUpCount
    /\ (VotingEngine.k e + runnerUpCount <= maxCount ->
        exists key data,
          In (key, data) (VotingEngine.voteCounts st)
          /\ VoteData.count data = maxCount
          /\ VotingEngine.decide e st
             = VotingEngine.Return
                 {| VotingResult.consensusReached := true;
                    VotingResult.winner :=
                      Some (VoteData.originalAnswer data);
                    VotingResult.confidence :=
                      Some (VoteData.confidence data);
                    VotingResult.stats :=
                      {| VotingStats.totalVotes := total;
                         VotingStats.validVotes :=
                           VotingEngine.validVoteCount st;
                         VotingStats.redFlaggedVotes :=
                           total - VotingEngine.validVoteCount st;
                         VotingStats.winningVoteCount := maxCount;
                         VotingStats.margin := maxCount - runnerUpCount;
                         VotingStats.k := VotingEngine.k e |} |})
    /\ (maxCount < VotingEngine.k e + runnerUpCount ->
        VotingEngine.decide e st
        = if total >=? VotingEngine.maxVotes e
          then VotingEngine.Return (VotingEngine.bestGuess e st)
          else VotingEngine.Continue st).
Proof.
  intros Hne counts total.
  unfold VotingEngine.decide. fold counts. fold total.
  destruct counts as [| c cs] eqn:Ecounts.
  { destruct (VotingEngine.voteCounts st); [contradiction | discriminate]. }
  exists (Math_max c cs),
    (VotingEngine.second (sortDesc (fun z => z) (c :: cs))).
  pose proof (Math_max_is_maximum cs c) as Hmax.
  split; [exact Hmax |].
  split; [apply sorted_counts_second |].
  split.
  - intro Hahead.
    destruct (Z.geb_spec (Math_max c cs)
                (VotingEngine.k e
                 + VotingEngine.second (sortDesc (fun z => z) (c :: cs))))
      as [_ | Hlt]; [| lia].
    destruct (find_count (VotingEngine.voteCounts st) (Math_max c cs))
      as (key & data & Hfind & Hin & Hcount).
    { unfold counts in Ecounts. rewrite Ecounts. apply Hmax. }
    exists key, data. rewrite Hfind. now repeat split.
  - intro Hbehind.
    destruct (Z.geb_spec (Math_max c cs)
                (VotingEngine.k e
                 + VotingEngine.second (sortDesc (fun z => z) (c :: cs))))
      as [Hge | _]; [lia |].
    reflexivity.
Qed.

Lemma decide_continue (e : VotingEngine.t) (st st' : VotingEngine.LoopState) :
  VotingEngine.decide e st = VotingEngine.Continue st' -> st' = st.
Proof.
  unfold VotingEngine.decide.
  destruct (map VotingEngine.entryCount (VotingEngine.voteCounts st))
    as [| c cs]; [now intros [= <-] |].
  match goal with
  | |- context [match ?x with Some _ => _ | None => _ end] =>
      destruct x as [[key data] |]; [discriminate |]
  end.
  destruct (_ >=? VotingEngine.maxVotes e); [discriminate |].
  now intros [= <-].
Qed.

(** Along a run the tally stays faithful to the samples that were counted:
    the invariant holds of [VotingEngine.initial] and every iteration that
    continues preserves it. *)
Lemma processVote_invariant (e : VotingEngine.t) (flt : RedFlagFilter.t)
    (st st' : VotingEngine.LoopState) (vote vote' : Vote.t) (shown : Tally) :
  represents (VotingEngine.voteCounts st)
    (counted flt (VotingEngine.allVotes st)) ->
  VotingEngine.processVote e flt st vote
  = (vote', shown, VotingEngine.Continue st') ->
  represents (VotingEngine.voteCounts st')
    (counted flt (VotingEngine.allVotes st')).
Proof.
  intros Hrep Hstep.
  destruct (discarded flt vote) eqn:Hd.
  - revert Hstep. unfold VotingEngine.processVote.
    unfold discarded in Hd.
    destruct (redFlagged _) eqn:Hflag.
    + intros [= _ _ <-]. cbn [VotingEngine.voteCounts VotingEngine.allVotes].
      unfold counted. rewrite filter_app. simpl.
      unfold discarded at 2. cbn [Vote.flag Vote.answer Vote.parseSucceeded].
      rewrite Hflag. simpl. now rewrite app_nil_r.
    + simpl in Hd. rewrite Hd.
      intros [= _ _ <-]. cbn [VotingEngine.voteCounts VotingEngine.allVotes].
      unfold counted. rewrite filter_app. simpl.
      unfold discarded at 2. rewrite Hflag, Hd. simpl.
      now rewrite app_nil_r.
  - rewrite (processVote_tallied e flt st vote Hd) in Hstep.
    injection Hstep as _ _ Hstep.
    apply decide_continue in Hstep. subst st'.
    cbn [VotingEngine.voteCounts VotingEngine.allVotes].
    unfold counted. rewrite filter_app. simpl. rewrite Hd. simpl.
    now apply represents_recordVote.
Qed.

Lemma initial_invariant (flt : RedFlagFilter.t) :
  represents (VotingEngine.voteCounts VotingEngine.initial)
    (counted flt (VotingEngine.allVotes VotingEngine.initial)).
Proof. exact represents_nil. Qed.


(* ================================================================== *)
(** * Further properties *)

(** ** Red-flag filter: admission, padding, statistics *)

(** X1: the filter admits an answer exactly when it is non-empty, its
    estimated token count is at most [maxTokens], its trimmed length is at
    least [minChars], the parse succeeded and the custom validator, when
    there is one, does not flag the trimmed answer. *)
Theorem check_admits_iff (f : RedFlagFilter.t) (answer : string)
    (parseSucceeded : bool) :
  redFlagged (RedFlagFilter.check f answer parseSucceeded) = false
  <-> answer <> ""
      /\ RedFlagFilter.estimateTokens (JsString.length (JsString.trim answer))
         <= RedFlagFilter.maxTokens f
      /\ RedFlagFilter.minChars f <= JsString.length (JsString.trim answer)
      /\ parseSucceeded = true
      /\ match RedFlagFilter.customValidator f with
         | Some validate => redFlagged (validate (JsString.trim answer)) = false
         | None => True
         end.
Proof.
  unfold RedFlagFilter.check.
  destruct (JsString.truthy answer) eqn:Ht; simpl.
  2: { apply truthy_false_iff in Ht. split; [discriminate | tauto]. }
  assert (Hne : answer <> "").
  { intro E. apply truthy_false_iff in E. congruence. }
  destruct (Z.gtb_spec
              (RedFlagFilter.estimateTokens
                 (JsString.length (JsString.trim answer)))
              (RedFlagFilter.maxTokens f)) as [Hlong | Hlong]; simpl.
  { split; [discriminate | intros (_ & H & _); lia]. }
  destruct (Z.ltb_spec (JsString.length (JsString.trim answer))
              (RedFlagFilter.minChars f)) as [Hshort | Hshort]; simpl.
  { split; [discriminate | intros (_ & _ & H & _); lia]. }
  destruct parseSucceeded; simpl.
  2: { split; [discriminate | intros (_ & _ & _ & H & _); discriminate]. }
  destruct (RedFlagFilter.customValidator f) as [validate |].
  - destruct (redFlagged (validate (JsString.trim answer))) eqn:Hv; simpl.
    + rewrite Hv. split; [discriminate | intros (_ & _ & _ & _ & H)];
        discriminate.
    + split; [intros _; repeat split; assumption | reflexivity].
  - split; [intros _; repeat split; assumption | reflexivity].
Qed.

Lemma check_admits_iff_witness :
  redFlagged (RedFlagFilter.check RedFlagFilter.default "Yes!!" true) = false.
Proof.
  apply check_admits_iff.
  split; [discriminate |].
  split; [vm_compute; discriminate |].
  split; [vm_compute; discriminate |].
  split; [reflexivity | exact I].
Defined.

Lemma list_ascii_of_string_app (a b : string) :
  list_ascii_of_string (a ++ b)
  = list_ascii_of_string a ++ list_ascii_of_string b.
Proof. induction a as [| c a IH]; simpl; [reflexivity | now rewrite IH]. Qed.

Lemma dropWhile_all (p : ascii -> bool) (l : list ascii) :
  forallb p l = true -> JsString.dropWhile p l = [].
Proof.
  induction l as [| c r IH]; simpl; [reflexivity |].
  intro H. apply andb_prop in H. destruct H as [-> H]. now apply IH.
Qed.

Lemma dropWhile_padding (p : ascii -> bool) (pre l : list ascii) :
  forallb p pre = true ->
  JsString.dropWhile p (pre ++ l) = JsString.dropWhile p l.
Proof.
  induction pre as [| c r IH]; simpl; [reflexivity |].
  intro H. apply andb_prop in H. destruct H as [-> H]. now apply IH.
Qed.

Lemma forallb_reverse {A} (p : A -> bool) (l : list A) :
  forallb p (rev l) = forallb p l.
Proof.
  induction l as [| x r IH]; simpl; [reflexivity |].
  rewrite forallb_app, IH. simpl. rewrite andb_true_r. apply andb_comm.
Qed.

Lemma dropWhileEnd_padding (p : ascii -> bool) (l post : list ascii) :
  forallb p post = true ->
  JsString.dropWhileEnd p (l ++ post) = JsString.dropWhileEnd p l.
Proof.
  intro H. unfold JsString.dropWhileEnd.
  rewrite rev_app_distr, dropWhile_padding; [reflexivity |].
  now rewrite forallb_reverse.
Qed.

Lemma trim_padding_chars (p : ascii -> bool) (pre l post : list ascii) :
  forallb p pre = true ->
  forallb p post = true ->
  JsString.dropWhileEnd p (JsString.dropWhile p (pre ++ l ++ post))
  = JsString.dropWhileEnd p (JsString.dropWhile p l).
Proof.
  intros Hpre Hpost. rewrite dropWhile_padding by assumption.
  induction l as [| c r IH]; simpl.
  - now rewrite dropWhile_all.
  - destruct (p c); [exact IH |].
    change (c :: r ++ post) with ((c :: r) ++ post).
    now apply dropWhileEnd_padding.
Qed.

Lemma trim_padding (pre a post : string) :
  allChars JsString.isWhiteSpace pre = true ->
  allChars JsString.isWhiteSpace post = true ->
  JsString.trim (pre ++ a ++ post) = JsString.trim a.
Proof.
  unfold allChars, JsString.trim, JsString.onChars. intros Hpre Hpost.
  rewrite !list_ascii_of_string_app.
  now rewrite trim_padding_chars.
Qed.

(** X2: white space around a non-empty answer does not change the verdict
    of the filter. *)
Theorem check_ignores_padding (f : RedFlagFilter.t) (pre answer post : string)
    (parseSucceeded : bool) :
  answer <> "" ->
  allChars JsString.isWhiteSpace pre = true ->
  allChars JsString.isWhiteSpace post = true ->
  RedFlagFilter.check f (pre ++ answer ++ post) parseSucceeded
  = RedFlagFilter.check f answer parseSucceeded.
Proof.
  intros Hne Hpre Hpost. unfold RedFlagFilter.check.
  rewrite (trim_padding pre answer post Hpre Hpost).
  assert (Ht : JsString.truthy (pre ++ answer ++ post)
               = JsString.truthy answer).
  { destruct answer as [| c a]; [contradiction |].
    destruct pre; [reflexivity | reflexivity]. }
  now rewrite Ht.
Qed.

Lemma check_ignores_padding_witness :
  RedFlagFilter.check RedFlagFilter.default ("  " ++ "Paris" ++ " ") true
  = RedFlagFilter.check RedFlagFilter.default "Paris" true.
Proof.
  apply check_ignores_padding; [discriminate | reflexivity | reflexivity].
Defined.

(** X3: an answer that is empty or made of white space only is rejected as
    [response_too_short], whatever the parse flag and the validator, as
    soon as the thresholds are the usual way round ([maxTokens] not
    negative, [minChars] positive). *)
Theorem check_blank_too_short (f : RedFlagFilter.t) (answer : string)
    (parseSucceeded : bool) :
  allChars JsString.isWhiteSpace answer = true ->
  0 <= RedFlagFilter.maxTokens f ->
  0 < RedFlagFilter.minChars f ->
  RedFlagFilter.check f answer parseSucceeded
  = mkRedFlagResult true (Some response_too_short).
Proof.
  intros Hblank Hmax Hmin. unfold RedFlagFilter.check.
  destruct (JsString.truthy answer); simpl; [| reflexivity].
  assert (Ht : JsString.trim answer = "").
  { unfold JsString.trim, JsString.onChars.
    now rewrite (dropWhile_all _ _ Hblank). }
  rewrite Ht. change (JsString.length "") with 0.
  change (RedFlagFilter.estimateTokens 0) with 0.
  destruct (Z.gtb_spec 0 (RedFlagFilter.maxTokens f)); [lia |].
  destruct (Z.ltb_spec 0 (RedFlagFilter.minChars f)); [reflexivity | lia].
Qed.

Lemma check_blank_too_short_witness :
  RedFlagFilter.check RedFlagFilter.default "   " false
  = mkRedFlagResult true (Some response_too_short).
Proof.
  apply check_blank_too_short; [reflexivity | vm_compute | vm_compute];
    congruence.
Defined.

Lemma reason_eqb_eq (a b : RedFlagReason) : reason_eqb a b = true <-> a = b.
Proof. destruct a, b; simpl; split; intro H; congruence. Qed.

Lemma lookup_bumpReason (b : list (RedFlagReason * Z)) (r r' : RedFlagReason) :
  nullish (lookupReason (bumpReason b r) r') 0
  = nullish (lookupReason b r') 0 + (if reason_eqb r r' then 1 else 0)
  /\ (lookupReason (bumpReason b r) r' = None
      <-> lookupReason b r' = None /\ reason_eqb r r' = false).
Proof.
  induction b as [| [r0 n] rest IH]; simpl.
  - destruct (reason_eqb r r'); simpl;
      (split; [reflexivity | split; [intros; try discriminate; tauto | ]]).
    + intros [_ H]; discriminate.
    + reflexivity.
  - destruct (reason_eqb r0 r) eqn:E0; simpl.
    + apply reason_eqb_eq in E0. subst r0.
      destruct (reason_eqb r r') eqn:E; simpl.
      * split; [destruct (n =? 0) eqn:En;
                  [apply Z.eqb_eq in En; subst; reflexivity | reflexivity] |].
        split; [discriminate | intros [_ H]; discriminate].
      * split; [lia |]. tauto.
    + destruct (reason_eqb r0 r') eqn:E1; simpl.
      * assert (E : reason_eqb r r' = false).
        { destruct (reason_eqb r r') eqn:E; [| reflexivity].
          apply reason_eqb_eq in E, E1. subst.
          assert (H : reason_eqb r' r' = true) by now apply reason_eqb_eq.
          congruence. }
        rewrite E. split; [lia |].
        split; [discriminate | intros [H _]; discriminate].
      * exact IH.
Qed.

Lemma countIf_cons {A} (p : A -> bool) (x : A) (l : list A) :
  countIf p (x :: l) = (if p x then 1 else 0) + countIf p l.
Proof.
  unfold countIf. simpl. destruct (p x); [| lia].
  cbn [List.length]. lia.
Qed.

Lemma fold_countResult (results : list RedFlagResult) :
  forall s0 : FilterStats,
    let s := fold_left countResult results s0 in
    stat_total s = stat_total s0
    /\ stat_flagged s = stat_flagged s0 + countIf redFlagged results
    /\ stat_valid s
       = stat_valid s0 + countIf (fun r => negb (redFlagged r)) results
    /\ forall r,
         nullish (lookupReason (stat_byReason s) r) 0
         = nullish (lookupReason (stat_byReason s0) r) 0
           + countIf (flaggedFor r) results
         /\ (lookupReason (stat_byReason s) r = None
             <-> lookupReason (stat_byReason s0) r = None
                 /\ countIf (flaggedFor r) results = 0).
Proof.
  induction results as [| x rest IH]; intro s0; cbn [fold_left]; cbn zeta.
  - unfold countIf. simpl. repeat split; try lia; tauto.
  - destruct (IH (countResult s0 x)) as (Ht & Hf & Hv & Hr).
    cbn zeta in Ht, Hf, Hv, Hr.
    rewrite Ht, Hf, Hv, !countIf_cons. clear Ht Hf Hv IH.
    assert (Hpos : forall r, 0 <= countIf (flaggedFor r) rest).
    { intro r. unfold countIf. lia. }
    split; [unfold countResult; destruct (redFlagged x); reflexivity |].
    split;
      [unfold countResult; destruct (redFlagged x); cbn [stat_flagged]; lia |].
    split;
      [unfold countResult; destruct (redFlagged x); cbn [stat_valid negb];
       lia |].
    intro r. destruct (Hr r) as [Hn Hnone]. rewrite Hn, Hnone, countIf_cons.
    specialize (Hpos r). unfold countResult.
    destruct (redFlagged x) eqn:Ex; cbn [stat_byReason].
    + destruct (reason x) as [rx |] eqn:Erx.
      * assert (E : flaggedFor r x = reason_eqb rx r).
        { unfold flaggedFor. now rewrite Ex, Erx. }
        rewrite E.
        destruct (lookup_bumpReason (stat_byReason s0) rx r) as [Hb Hbn].
        rewrite Hb, Hbn.
        destruct (reason_eqb rx r); (split; [lia |]);
          intuition (try discriminate; try lia).
      * assert (E : flaggedFor r x = false).
        { unfold flaggedFor. now rewrite Ex, Erx. }
        rewrite E. split; [lia |].
        split; intros [H H']; (split; [exact H | lia]).
    + assert (E : flaggedFor r x = false).
      { unfold flaggedFor. now rewrite Ex. }
      rewrite E. split; [lia |].
      split; intros [H H']; (split; [exact H | lia]).
Qed.

(** X4: the statistics of a list of results: [total] is the length of the
    list and the sum of [flagged] and [valid], which count the flagged and
    the unflagged results; [byReason] has a key for exactly the reasons
    that some flagged result carries, each holding the number of such
    results. *)
Theorem getStats_counts (results : list RedFlagResult) :
  let stats := getStats results in
  stat_total stats = Z.of_nat (List.length results)
  /\ stat_total stats = stat_flagged stats + stat_valid stats
  /\ stat_flagged stats = countIf redFlagged results
  /\ stat_valid stats = countIf (fun r => negb (redFlagged r)) results
  /\ forall r,
       lookupReason (stat_byReason stats) r
       = if countIf (flaggedFor r) results =? 0 then None
         else Some (countIf (flaggedFor r) results).
Proof.
  cbn zeta. unfold getStats.
  destruct (fold_countResult results
              (mkFilterStats (Z.of_nat (List.length results)) 0 0 []))
    as (Ht & Hf & Hv & Hr).
  cbn zeta in Ht, Hf, Hv, Hr. simpl in Ht, Hf, Hv, Hr.
  rewrite Ht, Hf, Hv.
  split; [reflexivity |].
  split.
  { unfold countIf.
    rewrite <- (filter_length redFlagged results). lia. }
  split; [reflexivity |]. split; [reflexivity |].
  intro r. destruct (Hr r) as [Hn Hnone].
  destruct (Z.eqb_spec (countIf (flaggedFor r) results) 0) as [E | E].
  - apply Hnone. split; [reflexivity | exact E].
  - destruct (lookupReason _ r) as [n |] eqn:El.
    + simpl in Hn. now rewrite Hn.
    + exfalso. apply E. now apply Hnone.
Qed.

Lemma countIf_map {A B} (p : B -> bool) (g : A -> B) (l : list A) :
  countIf p (map g l) = countIf (fun x => p (g x)) l.
Proof.
  induction l as [| x r IH]; [reflexivity |].
  cbn [map]. now rewrite !countIf_cons, IH.
Qed.

Lemma countIf_ext {A} (p q : A -> bool) (l : list A) :
  (forall x, p x = q x) -> countIf p l = countIf q l.
Proof.
  intro H. induction l as [| x r IH]; [reflexivity |].
  now rewrite !countIf_cons, IH, H.
Qed.

(** X5: the statistics of a batch: [checkMany] returns the items in order,
    each beside its own verdict, so the statistics of its verdicts count
    every item once, and the [valid] ones are the items the filter admits
    under their own parse flag (or the shared default, or [true]). *)
Theorem getStats_checkMany (f : RedFlagFilter.t) (answers : list CheckItem)
    (parseSucceeded : option bool) :
  let checked := checkMany f answers parseSucceeded in
  let stats := getStats (map snd checked) in
  let admitted item :=
    negb (redFlagged
            (RedFlagFilter.check f (item_answer item)
               (match item_parseSucceeded item, parseSucceeded with
                | Some own, _ => own
                | None, Some shared => shared
                | None, None => true
                end))) in
  map fst checked = answers
  /\ stat_total stats = Z.of_nat (List.length answers)
  /\ stat_valid stats = countIf admitted answers
  /\ stat_flagged stats
     = Z.of_nat (List.length answers) - countIf admitted answers.
Proof.
  cbn zeta.
  destruct (getStats_counts (map snd (checkMany f answers parseSucceeded)))
    as (Ht & Hsum & _ & Hv & _).
  assert (Hvalid :
            stat_valid (getStats (map snd (checkMany f answers parseSucceeded)))
            = countIf
                (fun item =>
                   negb (redFlagged
                           (RedFlagFilter.check f (item_answer item)
                              (match
                                 item_parseSucceeded item, parseSucceeded
                               with
                               | Some own, _ => own
                               | None, Some shared => shared
                               | None, None => true
                               end))))
                answers).
  { rewrite Hv. unfold checkMany. rewrite map_map. cbn [snd].
    rewrite countIf_map. apply countIf_ext. intro item.
    now destruct (item_parseSucceeded item), parseSucceeded. }
  split.
  { unfold checkMany. rewrite map_map. simpl. apply map_id. }
  split.
  { rewrite Ht. unfold checkMany. now rewrite !length_map. }
  split; [exact Hvalid |].
  rewrite <- Hvalid.
  assert (Hlen : stat_total
                   (getStats (map snd (checkMany f answers parseSucceeded)))
                 = Z.of_nat (List.length answers)).
  { rewrite Ht. unfold checkMany. now rewrite !length_map. }
  lia.
Qed.

(** ** The voting loop: what every returned result satisfies *)

(** A rule for the loop: an invariant of the loop state and of the number
    of oracle calls made so far that every continuing iteration keeps, and
    from which every returning iteration establishes [Post], gives [Post]
    of every returned result. *)
Lemma voteLoop_rule (e : VotingEngine.t) (provider : LLMProvider)
    (question context : string) (flt : RedFlagFilter.t)
    (onVote : option VotingEngine.OnVote)
    (Inv : VotingEngine.LoopState -> nat -> Prop)
    (Post : VotingResult.t -> nat -> Prop) :
  (forall st n,
      Inv st n ->
      let temperature :=
        if VotingEngine.voteIndex st =? 0 then 0%Q else (1 # 10)%Q in
      let vote :=
        sampleOf
          (complete provider n
             (mkRequest (PromptAnswer question context) temperature true))
          temperature (VotingEngine.voteIndex st) in
      match snd (VotingEngine.processVote e flt st vote) with
      | VotingEngine.Continue st' => Inv st' (S n)
      | VotingEngine.Return r => Post r (S n)
      end) ->
  forall (fuel : nat) (st : VotingEngine.LoopState) (w w' : World)
         (r : VotingResult.t),
    Inv st (calls w) ->
    VotingEngine.voteLoop fuel e provider question context flt onVote st w
    = Ok r w' ->
    Post r (calls w').
Proof.
  intros Hstep fuel.
  induction fuel as [| fuel IH]; intros st w w' r Hinv Hrun;
    [discriminate |].
  rewrite voteLoop_step in Hrun. cbn zeta in Hrun.
  specialize (Hstep st (calls w) Hinv). cbn zeta in Hstep.
  destruct (snd (VotingEngine.processVote e flt st _)) as [st' | r'].
  - eapply IH in Hrun; [exact Hrun | exact Hstep].
  - injection Hrun as <- <-. exact Hstep.
Qed.

(** X6: the voting loop never raises: a rejected oracle call becomes a
    rejected vote, so a run either returns a result or is still sampling. *)
Theorem voteUntilConsensus_never_raises (fuel : nat) (e : VotingEngine.t)
    (provider : LLMProvider) (question context : string)
    (flt : RedFlagFilter.t) (onVote : option VotingEngine.OnVote)
    (w w' : World) (error : string) :
  VotingEngine.voteUntilConsensus fuel e provider question context flt
    onVote w <> Throw error w'.
Proof.
  unfold VotingEngine.voteUntilConsensus.
  generalize VotingEngine.initial as st. revert w.
  induction fuel as [| fuel IH]; intros w st; [discriminate |].
  rewrite voteLoop_step. cbn zeta.
  destruct (snd (VotingEngine.processVote e flt st _)) as [st' | r].
  - apply IH.
  - discriminate.
Qed.

Lemma sorted_entries_head (t : Tally) (entry : string * VoteData.t)
    (others : Tally) :
  sortDesc VotingEngine.entryCount t = entry :: others ->
  In entry t
  /\ is_maximum (VotingEngine.entryCount entry)
       (map VotingEngine.entryCount t)
  /\ VotingEngine.second
       (sortDesc (fun z => z) (map VotingEngine.entryCount t))
     = match others with
       | runnerUp :: _ => VotingEngine.entryCount runnerUp
       | [] => 0
       end.
Proof.
  intro E.
  pose proof (sortDesc_map VotingEngine.entryCount t) as Hmap.
  rewrite E in Hmap. cbn [map] in Hmap.
  split.
  - eapply Permutation_in; [symmetry; apply sortDesc_perm |].
    rewrite E. now left.
  - split.
    + eapply sorted_counts_head. symmetry. exact Hmap.
    + rewrite <- Hmap. now destruct others.
Qed.

(** What the checks after a counted vote decide, in terms of the greatest
    count and of the second entry of the sorted counts. *)
Lemma decide_outcome (e : VotingEngine.t) (st : VotingEngine.LoopState) :
  VotingEngine.voteCounts st <> [] ->
  let counts := map VotingEngine.entryCount (VotingEngine.voteCounts st) in
  let runnerUp := VotingEngine.second (sortDesc (fun z => z) counts) in
  let total := Z.of_nat (List.length (VotingEngine.allVotes st)) in
  exists maxCount,
    is_maximum maxCount counts
    /\ match VotingEngine.decide e st with
       | VotingEngine.Return r =>
           VotingResult.stats r
           = {| VotingStats.totalVotes := total;
                VotingStats.validVotes := VotingEngine.validVoteCount st;
                VotingStats.redFlaggedVotes :=
                  total - VotingEngine.validVoteCount st;
                VotingStats.winningVoteCount := maxCount;
                VotingStats.margin := maxCount - runnerUp;
                VotingStats.k := VotingEngine.k e |}
           /\ (VotingResult.consensusReached r = true
               <-> VotingEngine.k e + runnerUp <= maxCount)
           /\ (VotingResult.consensusReached r = false ->
               VotingEngine.maxVotes e <= total)
           /\ exists key data,
                In (key, data) (VotingEngine.voteCounts st)
                /\ VoteData.count data = maxCount
                /\ VotingResult.winner r
                   = Some (VoteData.originalAnswer data)
                /\ VotingResult.confidence r
                   = Some (VoteData.confidence data)
       | VotingEngine.Continue st' =>
           st' = st
           /\ maxCount < VotingEngine.k e + runnerUp
           /\ total < VotingEngine.maxVotes e
       end.
Proof.
  intros Hne counts runnerUp total.
  destruct (decide_spec e st Hne)
    as (maxCount & ru & Hmax & _ & _ & _).
  fold counts in Hmax.
  exists maxCount. split; [exact Hmax |].
  assert (Hm : forall c cs, counts = c :: cs -> Math_max c cs = maxCount).
  { intros c cs E. eapply is_maximum_unique; [| exact Hmax].
    rewrite E. apply Math_max_is_maximum. }
  unfold VotingEngine.decide. fold counts. fold total.
  destruct counts as [| c cs] eqn:Ecounts.
  { destruct (VotingEngine.voteCounts st); [contradiction | discriminate]. }
  rewrite (Hm c cs eq_refl). fold runnerUp.
  destruct (Z.geb_spec maxCount (VotingEngine.k e + runnerUp))
    as [Hge | Hlt].
  - destruct (find_count (VotingEngine.voteCounts st) maxCount)
      as (key & data & Hfind & Hin & Hcount).
    { unfold counts in Ecounts. rewrite Ecounts. apply Hmax. }
    rewrite Hfind. cbn [VotingResult.stats VotingResult.consensusReached
                        VotingResult.winner VotingResult.confidence].
    split; [reflexivity |].
    split; [split; [intros _; exact Hge | reflexivity] |].
    split; [discriminate |].
    exists key, data. now repeat split.
  - destruct (Z.geb_spec total (VotingEngine.maxVotes e)) as [Hcut | Hgo].
    + destruct (sortDesc VotingEngine.entryCount (VotingEngine.voteCounts st))
        as [| [key data] others] eqn:Esorted.
      { exfalso.
        pose proof (sortDesc_length VotingEngine.entryCount
                      (VotingEngine.voteCounts st)) as Hl.
        rewrite Esorted in Hl.
        destruct (VotingEngine.voteCounts st); [contradiction | discriminate]. }
      destruct (sorted_entries_head _ _ _ Esorted) as (Hin & Hhead & Hsecond).
      fold counts in Hhead, Hsecond. rewrite Ecounts in Hhead, Hsecond.
      fold runnerUp in Hsecond.
      assert (Hc : VoteData.count data = maxCount).
      { eapply is_maximum_unique; [exact Hhead | exact Hmax]. }
      unfold VotingEngine.bestGuess. rewrite Esorted.
      cbn [nth_error option_map snd nullish VotingResult.stats
           VotingResult.consensusReached VotingResult.winner
           VotingResult.confidence].
      fold total.
      split.
      { rewrite Hc. f_equal. f_equal. rewrite Hsecond.
        destruct others as [| [k2 d2] ?]; reflexivity. }
      split; [split; [discriminate | intro; lia] |].
      split; [intros _; exact Hcut |].
      exists key, data. now repeat split.
    + repeat split; assumption.
Qed.

Lemma recordVote_sum (t : Tally) (key : string) (v : Vote.t) :
  sumZ (map VotingEngine.entryCount (VotingEngine.recordVote t key v))
  = sumZ (map VotingEngine.entryCount t) + 1.
Proof.
  induction t as [| [k0 d0] rest IH]; simpl; [reflexivity |].
  destruct (String.eqb k0 key); simpl.
  - unfold VotingEngine.entryCount. simpl. lia.
  - rewrite IH. lia.
Qed.

Lemma recordVote_positive (t : Tally) (key : string) (v : Vote.t) :
  Forall (fun entry => 1 <= VotingEngine.entryCount entry) t ->
  Forall (fun entry => 1 <= VotingEngine.entryCount entry)
    (VotingEngine.recordVote t key v).
Proof.
  induction 1 as [| [k0 d0] rest Hd Hrest IH]; simpl.
  - constructor; [unfold VotingEngine.entryCount; simpl; lia | constructor].
  - destruct (String.eqb k0 key).
    + constructor; [| assumption].
      unfold VotingEngine.entryCount in *. simpl in *. lia.
    + constructor; assumption.
Qed.

Lemma maximum_le_sum (m : Z) (l : list Z) :
  is_maximum m l -> Forall (fun x => 1 <= x) l -> 1 <= m <= sumZ l.
Proof.
  intros [Hin _] Hpos.
  induction Hpos as [| x r Hx Hr IH]; [contradiction |].
  assert (Hsum : 0 <= sumZ r).
  { clear -Hr. induction Hr; simpl; lia. }
  simpl. destruct Hin as [<- | Hin]; [lia |].
  specialize (IH Hin). lia.
Qed.

(** X7: the statistics of every result the loop returns add up: the total
    is the number of oracle calls the run made, it is the sum of the valid
    and the red-flagged votes, the winning count is at least 1 and at most
    the number of valid votes, and [k] is the engine's. *)
Theorem voteUntilConsensus_accounts (fuel : nat) (e : VotingEngine.t)
    (provider : LLMProvider) (question context : string)
    (flt : RedFlagFilter.t) (onVote : option VotingEngine.OnVote)
    (w w' : World) (r : VotingResult.t) :
  VotingEngine.voteUntilConsensus fuel e provider question context flt
    onVote w = Ok r w' ->
  let stats := VotingResult.stats r in
  VotingStats.totalVotes stats = callsBetween w w'
  /\ VotingStats.totalVotes stats
     = VotingStats.validVotes stats + VotingStats.redFlaggedVotes stats
  /\ 0 <= VotingStats.redFlaggedVotes stats
  /\ 1 <= VotingStats.winningVoteCount stats <= VotingStats.validVotes stats
  /\ VotingStats.k stats = VotingEngine.k e.
Proof.
  intro Hrun. cbn zeta. unfold callsBetween.
  refine (voteLoop_rule e provider question context flt onVote
            (fun st n =>
               Z.of_nat (List.length (VotingEngine.allVotes st))
               = Z.of_nat n - Z.of_nat (calls w)
               /\ Forall (fun entry => 1 <= VotingEngine.entryCount entry)
                    (VotingEngine.voteCounts st)
               /\ sumZ (map VotingEngine.entryCount
                          (VotingEngine.voteCounts st))
                  <= VotingEngine.validVoteCount st
                  <= Z.of_nat (List.length (VotingEngine.allVotes st)))
            (fun r n =>
               VotingStats.totalVotes (VotingResult.stats r)
               = Z.of_nat n - Z.of_nat (calls w)
               /\ VotingStats.totalVotes (VotingResult.stats r)
                  = VotingStats.validVotes (VotingResult.stats r)
                    + VotingStats.redFlaggedVotes (VotingResult.stats r)
               /\ 0 <= VotingStats.redFlaggedVotes (VotingResult.stats r)
               /\ 1 <= VotingStats.winningVoteCount (VotingResult.stats r)
                  <= VotingStats.validVotes (VotingResult.stats r)
               /\ VotingStats.k (VotingResult.stats r) = VotingEngine.k e)
            _ fuel VotingEngine.initial w w' r _ Hrun).
  - intros st n (Hlen & Hpos & Hsum). cbn zeta.
    set (vote := sampleOf _ _ _).
    unfold VotingEngine.processVote.
    destruct (redFlagged _).
    + cbn [snd VotingEngine.allVotes VotingEngine.voteCounts
           VotingEngine.validVoteCount].
      rewrite length_app. cbn [List.length].
      split; [lia |]. split; [exact Hpos | lia].
    + destruct (negb _).
      * cbn [snd VotingEngine.allVotes VotingEngine.voteCounts
             VotingEngine.validVoteCount].
        rewrite length_app. cbn [List.length].
        split; [lia |]. split; [exact Hpos | lia].
      * cbn [snd].
        set (st1 := VotingEngine.mkLoop _ _ _ _).
        assert (Hinv1 :
                  Z.of_nat (List.length (VotingEngine.allVotes st1))
                  = Z.of_nat (S n) - Z.of_nat (calls w)
                  /\ Forall (fun entry => 1 <= VotingEngine.entryCount entry)
                       (VotingEngine.voteCounts st1)
                  /\ sumZ (map VotingEngine.entryCount
                             (VotingEngine.voteCounts st1))
                     <= VotingEngine.validVoteCount st1
                     <= Z.of_nat (List.length (VotingEngine.allVotes st1))).
        { unfold st1.
          cbn [VotingEngine.allVotes VotingEngine.voteCounts
               VotingEngine.validVoteCount].
          rewrite length_app, recordVote_sum. cbn [List.length].
          split; [lia |].
          split; [now apply recordVote_positive | lia]. }
        destruct (decide_outcome e st1) as (maxCount & Hmax & Hout).
        { apply recordVote_nonempty. }
        destruct (VotingEngine.decide e st1) as [st' | r'].
        -- destruct Hout as [-> _]. exact Hinv1.
        -- destruct Hout as (-> & _).
           destruct Hinv1 as (Hlen1 & Hpos1 & Hsum1).
           cbn [VotingStats.totalVotes VotingStats.validVotes
                VotingStats.redFlaggedVotes VotingStats.winningVoteCount
                VotingStats.k].
           assert (Hm : 1 <= maxCount
                        <= sumZ (map VotingEngine.entryCount
                                   (VotingEngine.voteCounts st1))).
           { apply maximum_le_sum; [exact Hmax |].
             now rewrite Forall_map. }
           repeat split; lia.
  - cbn [VotingEngine.initial VotingEngine.allVotes VotingEngine.voteCounts
         VotingEngine.validVoteCount List.length map sumZ fold_right].
    split; [lia |]. split; [constructor | lia].
Qed.

Lemma voteUntilConsensus_accounts_witness :
  exists r w',
    VotingEngine.voteUntilConsensus 10
      (VotingEngine.new (mkVotingConfig (Some 2) None))
      parisLondonParisParis "What is the capital of France?" ""
      RedFlagFilter.default None Maker.start = Ok r w'
    /\ VotingStats.totalVotes (VotingResult.stats r) = 4.
Proof.
  pose proof (voteUntilConsensus_accounts 10
                (VotingEngine.new (mkVotingConfig (Some 2) None))
                parisLondonParisParis "What is the capital of France?" ""
                RedFlagFilter.default None Maker.start _ _
                ltac:(vm_compute; reflexivity)) as (Htotal & _).
  eexists. eexists. split; [vm_compute; reflexivity |].
  exact Htotal.
Defined.

(** X8: in every result the loop returns, consensus is reported exactly
    when the reported margin is at least [k]; and a result without
    consensus is only returned once [maxVotes] samples have been drawn. *)
Theorem voteUntilConsensus_consensus_iff_margin (fuel : nat)
    (e : VotingEngine.t) (provider : LLMProvider) (question context : string)
    (flt : RedFlagFilter.t) (onVote : option VotingEngine.OnVote)
    (w w' : World) (r : VotingResult.t) :
  VotingEngine.voteUntilConsensus fuel e provider question context flt
    onVote w = Ok r w' ->
  (VotingResult.consensusReached r = true
   <-> VotingEngine.k e <= VotingStats.margin (VotingResult.stats r))
  /\ (VotingResult.consensusReached r = false ->
      VotingEngine.maxVotes e
      <= VotingStats.totalVotes (VotingResult.stats r))
  /\ VotingResult.winner r <> None
  /\ VotingResult.confidence r <> None.
Proof.
  intro Hrun.
  refine (voteLoop_rule e provider question context flt onVote
            (fun _ _ => True)
            (fun r _ =>
               (VotingResult.consensusReached r = true
                <-> VotingEngine.k e
                    <= VotingStats.margin (VotingResult.stats r))
               /\ (VotingResult.consensusReached r = false ->
                   VotingEngine.maxVotes e
                   <= VotingStats.totalVotes (VotingResult.stats r))
               /\ VotingResult.winner r <> None
               /\ VotingResult.confidence r <> None)
            _ fuel VotingEngine.initial w w' r I Hrun).
  intros st n _. cbn zeta.
  unfold VotingEngine.processVote.
  destruct (redFlagged _); [exact I |].
  destruct (negb _); [exact I |].
  cbn [snd]. set (st1 := VotingEngine.mkLoop _ _ _ _).
  destruct (decide_outcome e st1) as (maxCount & Hmax & Hout).
  { apply recordVote_nonempty. }
  destruct (VotingEngine.decide e st1) as [st' | r']; [exact I |].
  destruct Hout as (Hstats & Hiff & Hcut & key & data & _ & _ & Hw & Hc).
  rewrite Hstats, Hiff, Hw, Hc.
  cbn [VotingStats.margin VotingStats.totalVotes].
  split; [lia |].
  split; [exact Hcut | split; discriminate].
Qed.

Lemma voteUntilConsensus_consensus_iff_margin_witness :
  exists r w',
    VotingEngine.voteUntilConsensus 10
      (VotingEngine.new (mkVotingConfig (Some 5) (Some 4)))
      (scripted
         [answers "Paris" high; answers "London" high;
          answers "Paris" high; answers "London" high]
         (Rejected "no more answers"))
      "What is the capital of France?" "" RedFlagFilter.default None
      Maker.start = Ok r w'
    /\ VotingResult.consensusReached r = false
    /\ 4 <= VotingStats.totalVotes (VotingResult.stats r).
Proof.
  pose proof (voteUntilConsensus_consensus_iff_margin 10
                (VotingEngine.new (mkVotingConfig (Some 5) (Some 4)))
                (scripted
                   [answers "Paris" high; answers "London" high;
                    answers "Paris" high; answers "London" high]
                   (Rejected "no more answers"))
                "What is the capital of France?" "" RedFlagFilter.default
                None Maker.start _ _ ltac:(vm_compute; reflexivity))
    as (_ & Hcut & _).
  eexists. eexists. split; [vm_compute; reflexivity |].
  split; [reflexivity | exact (Hcut eq_refl)].
Defined.

Lemma voteLoop_returns_when_counted (e : VotingEngine.t)
    (flt : RedFlagFilter.t) (provider : LLMProvider)
    (question context : string) (onVote : option VotingEngine.OnVote) :
  (forall n request temperature voteIndex,
      discarded flt (sampleOf (complete provider n request)
                       temperature voteIndex) = false) ->
  forall (fuel : nat) (st : VotingEngine.LoopState) (w : World),
    (1 <= fuel)%nat ->
    VotingEngine.maxVotes e
    <= Z.of_nat (List.length (VotingEngine.allVotes st)) + Z.of_nat fuel ->
    exists r w',
      VotingEngine.voteLoop fuel e provider question context flt onVote st w
      = Ok r w'
      /\ VotingStats.totalVotes (VotingResult.stats r)
         <= Z.max (Z.of_nat (List.length (VotingEngine.allVotes st)) + 1)
              (VotingEngine.maxVotes e).
Proof.
  intros Hall fuel.
  induction fuel as [| fuel IH]; intros st w Hfuel Hmax; [lia |].
  rewrite voteLoop_step. cbn zeta.
  rewrite processVote_tallied by apply Hall.
  cbn [snd]. set (st1 := VotingEngine.mkLoop _ _ _ _).
  assert (Hlen : Z.of_nat (List.length (VotingEngine.allVotes st1))
                 = Z.of_nat (List.length (VotingEngine.allVotes st)) + 1).
  { unfold st1. cbn [VotingEngine.allVotes].
    rewrite length_app. cbn [List.length]. lia. }
  destruct (decide_outcome e st1) as (maxCount & _ & Hout).
  { apply recordVote_nonempty. }
  destruct (VotingEngine.decide e st1) as [st' | r].
  - destruct Hout as (-> & _ & Hgo).
    match goal with
    | |- exists r w', VotingEngine.voteLoop _ _ _ _ _ _ _ _ ?W = _ /\ _ =>
        destruct (IH st1 W) as (r & w' & Hrun & Hbound); [lia | lia |]
    end.
    exists r, w'. split; [exact Hrun | lia].
  - destruct Hout as (Hstats & _).
    eexists _, _. split; [reflexivity |].
    rewrite Hstats. cbn [VotingStats.totalVotes]. lia.
Qed.

(** X9: when every sample of the oracle is admitted by the filter and has a
    non-empty normalized answer, the loop does return, after at most
    [maxVotes] samples (one sample when [maxVotes] is less than 1). *)
Theorem voteUntilConsensus_returns_when_all_counted (e : VotingEngine.t)
    (flt : RedFlagFilter.t) (provider : LLMProvider)
    (question context : string) (onVote : option VotingEngine.OnVote)
    (fuel : nat) (w : World) :
  (forall n request temperature voteIndex,
      discarded flt (sampleOf (complete provider n request)
                       temperature voteIndex) = false) ->
  (1 <= fuel)%nat ->
  VotingEngine.maxVotes e <= Z.of_nat fuel ->
  exists r w',
    VotingEngine.voteUntilConsensus fuel e provider question context flt
      onVote w = Ok r w'
    /\ VotingStats.totalVotes (VotingResult.stats r)
       <= Z.max 1 (VotingEngine.maxVotes e).
Proof.
  intros Hall Hfuel Hmax.
  destruct (voteLoop_returns_when_counted e flt provider question context
              onVote Hall fuel VotingEngine.initial w Hfuel)
    as (r & w' & Hrun & Hbound).
  { simpl. lia. }
  exists r, w'. split; [exact Hrun | exact Hbound].
Qed.

Lemma voteUntilConsensus_returns_when_all_counted_witness :
  exists r w',
    VotingEngine.voteUntilConsensus 100 (VotingEngine.new Maker.noVoting)
      (constantProvider (answers "Paris" high)) "Capital of France?" ""
      RedFlagFilter.default None Maker.start = Ok r w'
    /\ VotingStats.totalVotes (VotingResult.stats r) <= 100.
Proof.
  apply (voteUntilConsensus_returns_when_all_counted
           (VotingEngine.new Maker.noVoting) RedFlagFilter.default
           (constantProvider (answers "Paris" high)) "Capital of France?" ""
           None 100 Maker.start).
  - intros n request temperature voteIndex. reflexivity.
  - lia.
  - vm_compute. discriminate.
Defined.

Lemma recordVote_original (t : Tally) (key : string) (v : Vote.t) :
  forall k' d',
    In (k', d') (VotingEngine.recordVote t key v) ->
    (exists d,
        In (k', d) t
        /\ VoteData.originalAnswer d' = VoteData.originalAnswer d)
    \/ (k' = key /\ VoteData.originalAnswer d' = Vote.answer v).
Proof.
  induction t as [| [k0 d0] rest IH]; simpl; intros k' d' Hin.
  - destruct Hin as [E | []]. injection E as <- <-. now right.
  - destruct (String.eqb k0 key).
    + destruct Hin as [E | Hin].
      * injection E as <- <-. left. exists d0. split; [now left | reflexivity].
      * left. exists d'. split; [now right | reflexivity].
    + destruct Hin as [E | Hin].
      * injection E as <- <-. left. exists d0. split; [now left | reflexivity].
      * destruct (IH _ _ Hin) as [(d & Hd & Ho) | H]; [| now right].
        left. exists d. split; [now right | exact Ho].
Qed.

(** X10: the winner the loop returns is, verbatim, the answer of a sample
    that this run drew from the oracle and that the filter admitted; a
    red-flagged sample is never the winner. *)
Theorem voteUntilConsensus_winner_was_sampled (fuel : nat)
    (e : VotingEngine.t) (provider : LLMProvider) (question context : string)
    (flt : RedFlagFilter.t) (onVote : option VotingEngine.OnVote)
    (w w' : World) (r : VotingResult.t) :
  VotingEngine.voteUntilConsensus fuel e provider question context flt
    onVote w = Ok r w' ->
  exists i temperature voteIndex,
    (calls w <= i < calls w')%nat
    /\ let vote :=
         sampleOf
           (complete provider i
              (mkRequest (PromptAnswer question context) temperature true))
           temperature voteIndex in
       VotingResult.winner r = Some (Vote.answer vote)
       /\ redFlagged
            (RedFlagFilter.check flt (Vote.answer vote)
               (nullish (Vote.parseSucceeded vote) true)) = false.
Proof.
  intro Hrun.
  set (sampled := fun (answer : string) (n : nat) =>
         exists i temperature voteIndex,
           (calls w <= i < n)%nat
           /\ let vote :=
                sampleOf
                  (complete provider i
                     (mkRequest (PromptAnswer question context)
                        temperature true))
                  temperature voteIndex in
              answer = Vote.answer vote
              /\ redFlagged
                   (RedFlagFilter.check flt (Vote.answer vote)
                      (nullish (Vote.parseSucceeded vote) true)) = false).
  assert (Hmono : forall a n, sampled a n -> sampled a (S n)).
  { intros a n (i & t & vi & Hi & H). exists i, t, vi. split; [lia | exact H]. }
  assert (Hpost :
            exists a, VotingResult.winner r = Some a /\ sampled a (calls w')).
  { refine (voteLoop_rule e provider question context flt onVote
              (fun st n =>
                 (calls w <= n)%nat
                 /\ forall key d,
                      In (key, d) (VotingEngine.voteCounts st) ->
                      sampled (VoteData.originalAnswer d) n)
              (fun r n =>
                 exists a, VotingResult.winner r = Some a /\ sampled a n)
              _ fuel VotingEngine.initial w w' r _ Hrun).
    - intros st n [Hn Hinv]. cbn zeta.
      set (temperature := if VotingEngine.voteIndex st =? 0 then _ else _).
      set (vote := sampleOf _ _ _).
      unfold VotingEngine.processVote.
      destruct (redFlagged _) eqn:Hflag.
      + cbn [snd VotingEngine.voteCounts]. split; [lia |].
        intros key d Hin. apply Hmono. now apply (Hinv key).
      + destruct (negb _).
        * cbn [snd VotingEngine.voteCounts]. split; [lia |].
          intros key d Hin. apply Hmono. now apply (Hinv key).
        * cbn [snd]. set (st1 := VotingEngine.mkLoop _ _ _ _).
          assert (Hinv1 : forall key d,
                     In (key, d) (VotingEngine.voteCounts st1) ->
                     sampled (VoteData.originalAnswer d) (S n)).
          { intros key d Hin. unfold st1 in Hin.
            cbn [VotingEngine.voteCounts] in Hin.
            apply recordVote_original in Hin.
            destruct Hin as [(d0 & Hd0 & ->) | [_ ->]].
            - apply Hmono. now apply (Hinv key).
            - exists n, temperature, (VotingEngine.voteIndex st).
              split; [lia |]. cbn zeta. fold vote.
              split; [reflexivity | exact Hflag]. }
          destruct (decide_outcome e st1) as (maxCount & _ & Hout).
          { apply recordVote_nonempty. }
          destruct (VotingEngine.decide e st1) as [st' | r'].
          -- destruct Hout as [-> _]. split; [lia | exact Hinv1].
          -- destruct Hout as (_ & _ & _ & key & data & Hin & _ & Hw & _).
             exists (VoteData.originalAnswer data).
             split; [exact Hw | now apply (Hinv1 key)].
    - split; [lia |]. intros key d []. }
  destruct Hpost as (a & Hw & i & t & vi & Hi & Ha & Hadm).
  exists i, t, vi. split; [exact Hi |]. cbn zeta.
  split; [now rewrite Hw, Ha | exact Hadm].
Qed.

Lemma voteUntilConsensus_winner_was_sampled_witness :
  exists r w',
    VotingEngine.voteUntilConsensus 10
      (VotingEngine.new (mkVotingConfig (Some 2) None))
      parisLondonParisParis "What is the capital of France?" ""
      RedFlagFilter.default None Maker.start = Ok r w'
    /\ VotingResult.winner r <> None.
Proof.
  destruct (voteUntilConsensus_winner_was_sampled 10
              (VotingEngine.new (mkVotingConfig (Some 2) None))
              parisLondonParisParis "What is the capital of France?" ""
              RedFlagFilter.default None Maker.start _ _
              ltac:(vm_compute; reflexivity))
    as (i & temperature & voteIndex & _ & Hw & _).
  eexists. eexists. split; [vm_compute; reflexivity |].
  rewrite Hw. discriminate.
Defined.

Lemma recordVote_grows (t : Tally) (key : string) (v : Vote.t) :
  forall k0 d,
    In (k0, d) t ->
    exists d',
      In (k0, d') (VotingEngine.recordVote t key v)
      /\ VoteData.count d <= VoteData.count d'
      /\ VoteData.originalAnswer d' = VoteData.originalAnswer d
      /\ VotingEngine.order (VoteData.confidence d)
         <= VotingEngine.order (VoteData.confidence d').
Proof.
  induction t as [| [k1 d1] rest IH]; simpl; intros k0 d Hin; [contradiction |].
  destruct (String.eqb k1 key).
  - destruct Hin as [E | Hin].
    + injection E as <- <-. eexists. split; [now left |].
      cbn [VoteData.count VoteData.originalAnswer VoteData.confidence].
      split; [lia |]. split; [reflexivity |].
      unfold VotingEngine.compareConfidence.
      destruct (Z.gtb_spec
                  (VotingEngine.order (Vote.confidence v)
                   - VotingEngine.order (VoteData.confidence d1)) 0); lia.
    + exists d. split; [now right |]. repeat split; lia.
  - destruct Hin as [E | Hin].
    + injection E as <- <-. exists d1. split; [now left |].
      repeat split; lia.
    + destruct (IH _ _ Hin) as (d' & Hin' & H). exists d'.
      split; [now right | exact H].
Qed.

(** X11: one iteration of the loop never removes a bucket of the tally,
    never lowers a count or a recorded confidence and never changes the
    answer text a bucket shows; and a sample that is red-flagged or
    normalizes to the empty string leaves the tally exactly as it was. *)
Theorem processVote_tally_grows (e : VotingEngine.t) (flt : RedFlagFilter.t)
    (st : VotingEngine.LoopState) (vote : Vote.t) :
  let after := snd (fst (VotingEngine.processVote e flt st vote)) in
  (forall key d,
      In (key, d) (VotingEngine.voteCounts st) ->
      exists d',
        In (key, d') after
        /\ VoteData.count d <= VoteData.count d'
        /\ VoteData.originalAnswer d' = VoteData.originalAnswer d
        /\ VotingEngine.order (VoteData.confidence d)
           <= VotingEngine.order (VoteData.confidence d'))
  /\ (discarded flt vote = true -> after = VotingEngine.voteCounts st)
  /\ (forall st',
         snd (VotingEngine.processVote e flt st vote)
         = VotingEngine.Continue st' ->
         VotingEngine.voteCounts st' = after).
Proof.
  cbn zeta.
  destruct (discarded flt vote) eqn:Hd.
  - destruct (processVote_discarded e flt st vote Hd)
      as (vote' & st' & -> & Htally).
    cbn [fst snd].
    split; [| split; [reflexivity |]].
    + intros key d Hin. exists d. split; [exact Hin |]. repeat split; lia.
    + intros st'' [= <-]. exact Htally.
  - rewrite (processVote_tallied e flt st vote Hd). cbn [fst snd].
    split; [apply recordVote_grows |].
    split; [discriminate |].
    intros st' Hdec. apply decide_continue in Hdec. now subst st'.
Qed.

Lemma sortDesc_head_is_first_max {A} (key : A -> Z) (l : list A) :
  forall x rest,
    sortDesc key l = x :: rest ->
    find (fun y => key y =? key x) l = Some x.
Proof.
  induction l as [| a l' IH]; intros x rest E; [discriminate |].
  simpl in E.
  destruct (sortDesc key l') as [| y s] eqn:Es.
  - simpl in E. injection E as <- _. simpl. now rewrite Z.eqb_refl.
  - simpl in E.
    destruct (Z.leb_spec (key y) (key a)) as [Hle | Hgt].
    + injection E as <- _. simpl. now rewrite Z.eqb_refl.
    + injection E as <- _. simpl.
      destruct (Z.eqb_spec (key a) (key y)) as [Heq | _]; [lia |].
      now apply (IH y s).
Qed.

Lemma countVotes_snoc (votes : list Vote.t) (v : Vote.t) :
  VotingEngine.countVotes (votes ++ [v])
  = if negb (JsString.truthy (VotingEngine.normalizeAnswer (Vote.answer v)))
    then VotingEngine.countVotes votes
    else VotingEngine.recordVote (VotingEngine.countVotes votes)
           (VotingEngine.normalizeAnswer (Vote.answer v)) v.
Proof. unfold VotingEngine.countVotes. now rewrite fold_left_app. Qed.

(** The checks of the loop and the one-shot scoring give the same verdict
    on the same tally. *)
Lemma decide_agrees_with_determineWinner (e : VotingEngine.t)
    (st : VotingEngine.LoopState) (votes : list Vote.t) (r : VotingResult.t) :
  forallb unmarked votes = true ->
  VotingEngine.voteCounts st = VotingEngine.countVotes votes ->
  VotingEngine.decide e st = VotingEngine.Return r ->
  verdict r = verdict (VotingEngine.determineWinner e votes).
Proof.
  intros Hun Htally Hdec.
  assert (Hne : VotingEngine.voteCounts st <> []).
  { intro E. unfold VotingEngine.decide in Hdec. rewrite E in Hdec.
    discriminate. }
  destruct (decide_outcome e st Hne) as (maxCount & Hmax & Hout).
  rewrite Hdec in Hout.
  destruct Hout as (Hstats & Hiff & _ & key & data & Hin & Hcount & Hw & Hc).
  unfold VotingEngine.determineWinner.
  assert (Hvalid : filter (fun v => negb (nullish (Vote.redFlagged v) false))
                     votes = votes).
  { clear -Hun. induction votes as [| v vs IH]; [reflexivity |].
    simpl in *. apply andb_prop in Hun. destruct Hun as [Hv Hvs].
    unfold unmarked in Hv. rewrite Hv. now rewrite IH. }
  rewrite Hvalid. rewrite <- Htally.
  destruct (List.length votes =? 0)%nat eqn:Hlen.
  { exfalso. apply Hne. rewrite Htally.
    apply Nat.eqb_eq in Hlen. now destruct votes. }
  destruct (sortDesc VotingEngine.entryCount (VotingEngine.voteCounts st))
    as [| [wkey winnerData] others] eqn:Esorted.
  { exfalso.
    pose proof (sortDesc_length VotingEngine.entryCount
                  (VotingEngine.voteCounts st)) as Hl.
    rewrite Esorted in Hl.
    destruct (VotingEngine.voteCounts st); [contradiction | discriminate]. }
  destruct (sorted_entries_head _ _ _ Esorted) as (_ & Hhead & Hsecond).
  assert (Hwc : VoteData.count winnerData = maxCount).
  { eapply is_maximum_unique; [exact Hhead | exact Hmax]. }
  set (runnerUp := VotingEngine.second
                     (sortDesc (fun z => z)
                        (map VotingEngine.entryCount
                           (VotingEngine.voteCounts st)))) in *.
  assert (Hru : match others with
                | runnerUp :: _ => VoteData.count (snd runnerUp)
                | [] => 0
                end = runnerUp).
  { rewrite Hsecond. now destruct others. }
  rewrite Hru.
  (* the winner of the loop is the head of the sorted entries, or the
     result is the best guess, which is that head too *)
  assert (Hsame : VotingResult.winner r
                  = Some (VoteData.originalAnswer winnerData)
                  /\ VotingResult.confidence r
                     = Some (VoteData.confidence winnerData)).
  { pose proof (sortDesc_head_is_first_max VotingEngine.entryCount _ _ _
                  Esorted) as Hfind.
    unfold VotingEngine.decide in Hdec.
    destruct (map VotingEngine.entryCount (VotingEngine.voteCounts st))
      as [| c cs] eqn:Ecounts.
    { destruct (VotingEngine.voteCounts st); [contradiction | discriminate]. }
    assert (Hm : Math_max c cs = maxCount).
    { eapply is_maximum_unique; [apply Math_max_is_maximum | exact Hmax]. }
    rewrite Hm in Hdec.
    unfold VotingEngine.entryCount in Hfind at 2. cbn [snd] in Hfind.
    rewrite Hwc in Hfind.
    destruct (maxCount >=? _).
    - rewrite Hfind in Hdec. injection Hdec as <-. now split.
    - destruct (_ >=? VotingEngine.maxVotes e); [| discriminate].
      injection Hdec as <-. unfold VotingEngine.bestGuess.
      rewrite Esorted. now split. }
  destruct Hsame as [Hw' Hc'].
  unfold verdict.
  cbn [VotingResult.consensusReached VotingResult.winner
       VotingResult.confidence VotingResult.stats VotingEngine.createStats
       VotingStats.winningVoteCount VotingStats.margin VotingStats.k].
  rewrite Hw', Hc', Hstats, Hwc.
  cbn [VotingStats.winningVoteCount VotingStats.margin VotingStats.k].
  f_equal. f_equal. f_equal. f_equal. f_equal.
  (* the two consensus tests *)
  assert (Hone : (List.length ((wkey, winnerData) :: others) =? 1)%nat = true
                 -> runnerUp = 0).
  { intro H1. rewrite <- Hru. destruct others; [reflexivity | discriminate]. }
  destruct (VotingResult.consensusReached r) eqn:Hcons.
  - assert (Hle : VotingEngine.k e + runnerUp <= maxCount) by now apply Hiff.
    destruct (List.length ((wkey, winnerData) :: others) =? 1)%nat eqn:H1;
      symmetry; rewrite Z.geb_le; [rewrite (Hone eq_refl) in Hle |]; lia.
  - assert (Hlt : ~ VotingEngine.k e + runnerUp <= maxCount).
    { intro H. apply Hiff in H. discriminate. }
    destruct (List.length ((wkey, winnerData) :: others) =? 1)%nat eqn:H1;
      symmetry; apply not_true_is_false; rewrite Z.geb_le;
      [rewrite (Hone eq_refl) in Hlt |]; lia.
Qed.

Lemma sampleOf_unmarked (flt : RedFlagFilter.t) (outcome : Completion)
    (temperature : Q) (voteIndex : Z) :
  discarded flt (sampleOf outcome temperature voteIndex) = false ->
  unmarked (sampleOf outcome temperature voteIndex) = true.
Proof.
  destruct outcome as [response | err]; simpl.
  - intros _. unfold unmarked, VotingEngine.parseVote.
    destruct (content response) as [s | o |]; try reflexivity.
    destruct (obj_answer o); reflexivity.
  - discriminate.
Qed.

Lemma processVote_discarded_state (e : VotingEngine.t)
    (flt : RedFlagFilter.t) (st : VotingEngine.LoopState) (vote : Vote.t) :
  discarded flt vote = true ->
  exists vote' st',
    VotingEngine.processVote e flt st vote
    = (vote', VotingEngine.voteCounts st, VotingEngine.Continue st')
    /\ VotingEngine.voteCounts st' = VotingEngine.voteCounts st
    /\ VotingEngine.allVotes st' = VotingEngine.allVotes st ++ [vote']
    /\ discarded flt vote' = true
    /\ VotingEngine.voteIndex st' = VotingEngine.voteIndex st + 1.
Proof.
  intro Hd. pose proof Hd as Hd'.
  unfold discarded in Hd'. unfold VotingEngine.processVote.
  destruct (redFlagged _) eqn:Hflag.
  - eexists _, _. split; [reflexivity |].
    cbn [VotingEngine.voteCounts VotingEngine.allVotes VotingEngine.voteIndex].
    repeat split.
    unfold discarded. cbn [Vote.flag Vote.answer Vote.parseSucceeded].
    now rewrite Hflag.
  - simpl in Hd'. rewrite Hd'.
    eexists _, _. split; [reflexivity |].
    cbn [VotingEngine.voteCounts VotingEngine.allVotes VotingEngine.voteIndex].
    repeat split. exact Hd.
Qed.

(** X12: the result the loop returns carries the verdict (consensus,
    winner, confidence, winning count, margin, [k]) that the one-shot
    [determineWinner] gives on the samples of the run that were admitted
    and have a non-empty normalized answer: the two scoring paths agree. *)
Theorem voteUntilConsensus_agrees_with_determineWinner (fuel : nat)
    (e : VotingEngine.t) (provider : LLMProvider) (question context : string)
    (flt : RedFlagFilter.t) (onVote : option VotingEngine.OnVote)
    (w w' : World) (r : VotingResult.t) :
  VotingEngine.voteUntilConsensus fuel e provider question context flt
    onVote w = Ok r w' ->
  let total := Z.to_nat (VotingStats.totalVotes (VotingResult.stats r)) in
  verdict r
  = verdict
      (VotingEngine.determineWinner e
         (counted flt (samples provider question context (calls w) total))).
Proof.
  intro Hrun. cbn zeta.
  refine (voteLoop_rule e provider question context flt onVote
            (fun st n =>
               let len := List.length (VotingEngine.allVotes st) in
               n = (calls w + len)%nat
               /\ VotingEngine.voteIndex st = Z.of_nat len
               /\ counted flt (VotingEngine.allVotes st)
                  = counted flt
                      (samples provider question context (calls w) len)
               /\ VotingEngine.voteCounts st
                  = VotingEngine.countVotes
                      (counted flt (VotingEngine.allVotes st))
               /\ forallb unmarked (counted flt (VotingEngine.allVotes st))
                  = true)
            (fun r _ =>
               verdict r
               = verdict
                   (VotingEngine.determineWinner e
                      (counted flt
                         (samples provider question context (calls w)
                            (Z.to_nat
                               (VotingStats.totalVotes
                                  (VotingResult.stats r)))))))
            _ fuel VotingEngine.initial w w' r _ Hrun).
  - intros st n (Hn & Hidx & Hsame & Htally & Hun). cbn zeta.
    set (len := List.length (VotingEngine.allVotes st)) in *.
    assert (Hvote :
              sampleOf
                (complete provider n
                   (mkRequest (PromptAnswer question context)
                      (if VotingEngine.voteIndex st =? 0
                       then 0%Q else (1 # 10)%Q) true))
                (if VotingEngine.voteIndex st =? 0 then 0%Q else (1 # 10)%Q)
                (VotingEngine.voteIndex st)
              = drawn provider question context (calls w) len).
    { unfold drawn. now rewrite Hn, Hidx. }
    rewrite Hvote. set (vote := drawn provider question context (calls w) len).
    assert (Hnext : samples provider question context (calls w) (S len)
                    = samples provider question context (calls w) len
                      ++ [vote]).
    { unfold samples. rewrite seq_S, map_app. reflexivity. }
    destruct (discarded flt vote) eqn:Hd.
    + assert (Hskip : counted flt
                        (samples provider question context (calls w) (S len))
                      = counted flt
                          (samples provider question context (calls w) len)).
      { rewrite Hnext. unfold counted. rewrite filter_app. cbn [filter].
        rewrite Hd. cbn [negb]. now rewrite app_nil_r. }
      destruct (processVote_discarded_state e flt st vote Hd)
        as (vote' & st' & -> & Hvc & Hav & Hdv & Hvi).
      cbn [snd].
      assert (Hlen' : List.length (VotingEngine.allVotes st') = S len).
      { rewrite Hav, length_app. cbn [List.length]. unfold len. lia. }
      assert (Hc' : counted flt (VotingEngine.allVotes st')
                    = counted flt (VotingEngine.allVotes st)).
      { rewrite Hav. unfold counted. rewrite filter_app. cbn [filter].
        rewrite Hdv. cbn [negb]. now rewrite app_nil_r. }
      rewrite Hlen', Hc', Hskip, Hvc, Hvi.
      repeat split; try assumption; lia.
    + rewrite (processVote_tallied e flt st vote Hd). cbn [snd].
      set (st1 := VotingEngine.mkLoop _ _ _ _).
      assert (Hlen1 : List.length (VotingEngine.allVotes st1) = S len).
      { unfold st1. cbn [VotingEngine.allVotes].
        rewrite length_app. cbn [List.length]. unfold len. lia. }
      assert (Hcounted : counted flt (VotingEngine.allVotes st1)
                         = counted flt (VotingEngine.allVotes st) ++ [vote]).
      { unfold st1, counted. cbn [VotingEngine.allVotes].
        rewrite filter_app. cbn [filter]. now rewrite Hd. }
      assert (Hinv1 :
                S n = (calls w + List.length (VotingEngine.allVotes st1))%nat
                /\ VotingEngine.voteIndex st1
                   = Z.of_nat (List.length (VotingEngine.allVotes st1))
                /\ counted flt (VotingEngine.allVotes st1)
                   = counted flt
                       (samples provider question context (calls w)
                          (List.length (VotingEngine.allVotes st1)))
                /\ VotingEngine.voteCounts st1
                   = VotingEngine.countVotes
                       (counted flt (VotingEngine.allVotes st1))
                /\ forallb unmarked (counted flt (VotingEngine.allVotes st1))
                   = true).
      { rewrite Hlen1, Hcounted.
        split; [lia |].
        split; [unfold st1; cbn [VotingEngine.voteIndex]; lia |].
        split.
        { rewrite Hnext. unfold counted at 2. rewrite filter_app.
          cbn [filter]. rewrite Hd. cbn [negb].
          fold (counted flt
                  (samples provider question context (calls w) len)).
          now rewrite Hsame. }
        split.
        - rewrite countVotes_snoc.
          unfold discarded in Hd. apply orb_false_elim in Hd.
          destruct Hd as [_ ->]. unfold st1.
          cbn [VotingEngine.voteCounts]. now rewrite Htally.
        - rewrite forallb_app, Hun. cbn [forallb andb].
          rewrite andb_true_r.
          unfold vote, drawn in *. now apply sampleOf_unmarked with flt. }
      destruct (VotingEngine.decide e st1) as [st' | r'] eqn:Hdec.
      * apply decide_continue in Hdec. subst st'. exact Hinv1.
      * destruct Hinv1 as (_ & _ & Hsame1 & Ht1 & Hun1).
        assert (Htotal : Z.to_nat
                           (VotingStats.totalVotes (VotingResult.stats r'))
                         = List.length (VotingEngine.allVotes st1)).
        { destruct (decide_outcome e st1) as (m & _ & Hout).
          { apply recordVote_nonempty. }
          rewrite Hdec in Hout. destruct Hout as (-> & _).
          cbn [VotingStats.totalVotes]. lia. }
        rewrite Htotal, <- Hsame1.
        exact (decide_agrees_with_determineWinner e st1 _ r' Hun1 Ht1 Hdec).
  - cbn zeta. cbn [VotingEngine.initial VotingEngine.allVotes List.length
                   VotingEngine.voteIndex VotingEngine.voteCounts].
    repeat split. lia.
Qed.

Lemma voteUntilConsensus_agrees_with_determineWinner_witness :
  exists r w',
    VotingEngine.voteUntilConsensus 10
      (VotingEngine.new (mkVotingConfig (Some 2) None))
      parisLondonParisParis "What is the capital of France?" ""
      RedFlagFilter.default None Maker.start = Ok r w'
    /\ verdict r
       = verdict
           (VotingEngine.determineWinner
              (VotingEngine.new (mkVotingConfig (Some 2) None))
              [sample 0 "Paris" high; sample 1 "London" high;
               sample 2 "Paris" high; sample 3 "Paris" high]).
Proof.
  pose proof (voteUntilConsensus_agrees_with_determineWinner 10
                (VotingEngine.new (mkVotingConfig (Some 2) None))
                parisLondonParisParis "What is the capital of France?" ""
                RedFlagFilter.default None Maker.start _ _
                ltac:(vm_compute; reflexivity)) as Hverdict.
  eexists. eexists. split; [vm_compute; reflexivity |].
  exact Hverdict.
Defined.

(** ** The stopping rule of the loop *)

Lemma is_runner_up_unique (counts : list Z) (r r' : Z) :
  is_runner_up counts r -> is_runner_up counts r' -> r = r'.
Proof.
  intros [[Hlen ->] | (m & rest & Hp & Hrm & Hrest)]
         [[Hlen' ->] | (m' & rest' & Hp' & Hrm' & Hrest')].
  - reflexivity.
  - apply Permutation_length in Hp'. simpl in Hp'. lia.
  - apply Permutation_length in Hp. simpl in Hp. lia.
  - assert (Hmax : is_maximum m (m :: r :: rest)).
    { split; [now left |].
      constructor; [lia |]. constructor; [lia |].
      eapply Forall_impl; [| exact Hrest]. cbn beta. intros; lia. }
    assert (Hmax' : is_maximum m' (m' :: r' :: rest')).
    { split; [now left |].
      constructor; [lia |]. constructor; [lia |].
      eapply Forall_impl; [| exact Hrest']. cbn beta. intros; lia. }
    assert (Em : m = m').
    { apply (is_maximum_unique m m' counts).
      - eapply is_maximum_perm; [symmetry; exact Hp | exact Hmax].
      - eapply is_maximum_perm; [symmetry; exact Hp' | exact Hmax']. }
    subst m'.
    assert (Hq : Permutation (r :: rest) (r' :: rest')).
    { apply (Permutation_cons_inv (a := m)).
      etransitivity; [symmetry; exact Hp | exact Hp']. }
    apply (is_maximum_unique r r' (r' :: rest')).
    + eapply is_maximum_perm; [exact Hq |].
      split; [now left |]. constructor; [lia | exact Hrest].
    + split; [now left |]. constructor; [lia | exact Hrest'].
Qed.

(** The counts of a faithful tally are the standing of its history. *)
Lemma represents_standing (t : Tally) (h : list Vote.t) (m ru : Z) :
  represents t h ->
  (standing h m ru
   <-> is_maximum m (map VotingEngine.entryCount t)
       /\ is_runner_up (map VotingEngine.entryCount t) ru).
Proof.
  intro Hrep. split.
  - intros (keys & [Hnd Hkeys] & Hmax & Hru).
    destruct (represents_counts t h keys Hrep Hnd Hkeys) as [Hp _].
    split.
    + eapply is_maximum_perm; [exact Hp | exact Hmax].
    + eapply is_runner_up_perm; [exact Hp | exact Hru].
  - intros [Hmax Hru].
    assert (Hd : distinct_answers (map fst t) h).
    { split; [apply Hrep |]. intro key. now apply represents_key. }
    exists (map fst t). split; [exact Hd |].
    destruct Hd as [Hnd Hkeys].
    destruct (represents_counts t h (map fst t) Hrep Hnd Hkeys) as [Hp _].
    split.
    + eapply is_maximum_perm; [symmetry; exact Hp | exact Hmax].
    + eapply is_runner_up_perm; [symmetry; exact Hp | exact Hru].
Qed.

Lemma samples_S (provider : LLMProvider) (question context : string)
    (n0 n : nat) :
  samples provider question context n0 (S n)
  = samples provider question context n0 n
    ++ [drawn provider question context n0 n].
Proof. unfold samples. rewrite seq_S, map_app. reflexivity. Qed.

Lemma counted_snoc (flt : RedFlagFilter.t) (votes : list Vote.t)
    (v : Vote.t) :
  counted flt (votes ++ [v])
  = counted flt votes ++ (if discarded flt v then [] else [v]).
Proof.
  unfold counted. rewrite filter_app. cbn [filter].
  now destruct (discarded flt v).
Qed.

(** The loop does stop on the first counted sample that puts the leader
    ahead by [k], when that sample comes before the safety limit. *)
Lemma voteLoop_stops_when_ahead (e : VotingEngine.t)
    (provider : LLMProvider) (question context : string)
    (flt : RedFlagFilter.t) (onVote : option VotingEngine.OnVote)
    (n0 n : nat) (maxCount runnerUpCount : Z) :
  let tallied :=
    fun i => counted flt (samples provider question context n0 i) in
  discarded flt (drawn provider question context n0 n) = false ->
  standing (tallied (S n)) maxCount runnerUpCount ->
  VotingEngine.k e + runnerUpCount <= maxCount ->
  (forall i m ru,
      (i <= n)%nat -> standing (tallied i) m ru ->
      m < VotingEngine.k e + ru) ->
  Z.of_nat n < VotingEngine.maxVotes e ->
  forall (todo : nat) (st : VotingEngine.LoopState) (w : World)
         (fuel : nat),
    let len := List.length (VotingEngine.allVotes st) in
    (len + todo = n)%nat ->
    calls w = (n0 + len)%nat ->
    VotingEngine.voteIndex st = Z.of_nat len ->
    represents (VotingEngine.voteCounts st) (tallied len) ->
    exists r w',
      VotingEngine.voteLoop (S todo + fuel) e provider question context flt
        onVote st w = Ok r w'
      /\ calls w' = (n0 + S n)%nat
      /\ VotingResult.consensusReached r = true.
Proof.
  intros tallied Hkept Hst Hahead Hnever Hlimit.
  induction todo as [| todo IH]; intros st w fuel len Hlen Hcalls Hidx Hrep.
  - assert (En : n = len) by lia.
    cbn [plus]. rewrite voteLoop_step. cbn zeta.
    assert (Hvote :
              sampleOf
                (complete provider (calls w)
                   (mkRequest (PromptAnswer question context)
                      (if VotingEngine.voteIndex st =? 0
                       then 0%Q else (1 # 10)%Q) true))
                (if VotingEngine.voteIndex st =? 0 then 0%Q else (1 # 10)%Q)
                (VotingEngine.voteIndex st)
              = drawn provider question context n0 n).
    { unfold drawn. now rewrite Hcalls, Hidx, En. }
    rewrite Hvote.
    set (vote := drawn provider question context n0 n) in *.
    rewrite (processVote_tallied e flt st vote Hkept). cbn [snd].
    set (st1 := VotingEngine.mkLoop _ _ _ _).
    assert (Hrep1 : represents (VotingEngine.voteCounts st1) (tallied (S n))).
    { unfold tallied. rewrite samples_S, counted_snoc. fold vote.
      rewrite Hkept. unfold st1. cbn [VotingEngine.voteCounts].
      apply represents_recordVote.
      rewrite En. exact Hrep. }
    apply (represents_standing _ _ _ _ Hrep1) in Hst.
    destruct Hst as [Hmax Hru].
    destruct (decide_outcome e st1) as (maxCount' & Hmax' & Hout).
    { apply recordVote_nonempty. }
    rewrite (is_maximum_unique _ _ _ Hmax' Hmax) in Hout.
    rewrite <- (is_runner_up_unique _ _ _ Hru
                  (sorted_counts_second
                     (map VotingEngine.entryCount
                        (VotingEngine.voteCounts st1)))) in Hout.
    destruct (VotingEngine.decide e st1) as [st' | r].
    + destruct Hout as (_ & Hbehind & _). lia.
    + destruct Hout as (_ & Hiff & _).
      eexists _, _. split; [reflexivity |]. cbn [calls].
      split; [lia | now apply Hiff].
  - change (S (S todo) + fuel)%nat with (S (S todo + fuel)).
    rewrite voteLoop_step. cbn zeta.
    assert (Hvote :
              sampleOf
                (complete provider (calls w)
                   (mkRequest (PromptAnswer question context)
                      (if VotingEngine.voteIndex st =? 0
                       then 0%Q else (1 # 10)%Q) true))
                (if VotingEngine.voteIndex st =? 0 then 0%Q else (1 # 10)%Q)
                (VotingEngine.voteIndex st)
              = drawn provider question context n0 len).
    { unfold drawn. now rewrite Hcalls, Hidx. }
    rewrite Hvote.
    set (vote := drawn provider question context n0 len) in *.
    assert (Hnext : tallied (S len)
                    = tallied len
                      ++ (if discarded flt vote then [] else [vote])).
    { unfold tallied. now rewrite samples_S, counted_snoc. }
    destruct (discarded flt vote) eqn:Hd.
    + rewrite app_nil_r in Hnext.
      destruct (processVote_discarded_state e flt st vote Hd)
        as (vote' & st' & -> & Hvc & Hav & _ & Hvi).
      cbn [snd].
      assert (Hlen' : List.length (VotingEngine.allVotes st') = S len).
      { rewrite Hav, length_app. cbn [List.length]. unfold len. lia. }
      match goal with
      | |- exists r w', VotingEngine.voteLoop _ _ _ _ _ _ _ _ ?W = _ /\ _ =>
          apply (IH st' W fuel)
      end.
      * rewrite Hlen'. lia.
      * cbn [calls]. rewrite Hlen'. lia.
      * rewrite Hvi, Hlen'. lia.
      * rewrite Hlen', Hvc, Hnext. exact Hrep.
    + rewrite (processVote_tallied e flt st vote Hd). cbn [snd].
      set (st1 := VotingEngine.mkLoop _ _ _ _).
      assert (Hlen1 : List.length (VotingEngine.allVotes st1) = S len).
      { unfold st1. cbn [VotingEngine.allVotes].
        rewrite length_app. cbn [List.length]. unfold len. lia. }
      assert (Hrep1 : represents (VotingEngine.voteCounts st1)
                        (tallied (S len))).
      { rewrite Hnext. unfold st1. cbn [VotingEngine.voteCounts].
        now apply represents_recordVote. }
      destruct (decide_outcome e st1) as (maxCount' & Hmax' & Hout).
      { apply recordVote_nonempty. }
      assert (Hbehind :
                maxCount'
                < VotingEngine.k e
                  + VotingEngine.second
                      (sortDesc (fun z => z)
                         (map VotingEngine.entryCount
                            (VotingEngine.voteCounts st1)))).
      { apply (Hnever (S len)); [lia |].
        apply (represents_standing _ _ _ _ Hrep1).
        split; [exact Hmax' | apply sorted_counts_second]. }
      destruct (VotingEngine.decide e st1) as [st' | r].
      * destruct Hout as (-> & _).
        match goal with
        | |- exists r w', VotingEngine.voteLoop _ _ _ _ _ _ _ _ ?W = _ /\ _ =>
            apply (IH st1 W fuel)
        end.
        -- rewrite Hlen1. lia.
        -- cbn [calls]. rewrite Hlen1. lia.
        -- unfold st1 at 1. cbn [VotingEngine.voteIndex].
           rewrite Hlen1. lia.
        -- rewrite Hlen1. exact Hrep1.
      * exfalso. destruct Hout as (Hstats & Hiff & Hcut & _).
        destruct (VotingResult.consensusReached r) eqn:Hc.
        -- destruct Hiff as [Hiff _]. specialize (Hiff eq_refl). lia.
        -- specialize (Hcut eq_refl). rewrite Hlen1 in Hcut. lia.
Qed.

(** The standing of a list of votes that all count, read off the tally. *)
Lemma standing_countVotes (votes : list Vote.t) (m ru : Z) :
  filter
    (fun v => JsString.truthy (VotingEngine.normalizeAnswer (Vote.answer v)))
    votes = votes ->
  (standing votes m ru
   <-> is_maximum m
         (map VotingEngine.entryCount (VotingEngine.countVotes votes))
       /\ is_runner_up
            (map VotingEngine.entryCount (VotingEngine.countVotes votes))
            ru).
Proof.
  intro Hall. apply represents_standing.
  pose proof (countVotes_represents votes) as Hrep.
  now rewrite Hall in Hrep.
Qed.

Lemma parisTallied_votes :
  parisTallied 0 = []
  /\ parisTallied 1 = [sample 0 "Paris" high]
  /\ parisTallied 2 = [sample 0 "Paris" high; sample 1 "London" high]
  /\ parisTallied 3
     = [sample 0 "Paris" high; sample 1 "London" high; sample 2 "Paris" high]
  /\ parisTallied 4
     = [sample 0 "Paris" high; sample 1 "London" high; sample 2 "Paris" high;
        sample 3 "Paris" high].
Proof. repeat split; vm_compute; reflexivity. Qed.

Lemma parisTallied_standing : standing (parisTallied 4) 3 1.
Proof.
  destruct parisTallied_votes as (_ & _ & _ & _ & ->).
  apply standing_countVotes; [reflexivity |].
  split.
  - change (is_maximum 3 [3; 1]).
    split; [now left | repeat constructor; lia].
  - exact (sorted_counts_second [3; 1]).
Qed.

Lemma parisTallied_not_ahead (i : nat) (m ru : Z) :
  (i <= 3)%nat -> standing (parisTallied i) m ru -> m < 2 + ru.
Proof.
  intros Hi Hst.
  destruct parisTallied_votes as (E0 & E1 & E2 & E3 & _).
  assert (Hread :
            forall counts,
              is_maximum m counts /\ is_runner_up counts ru ->
              forall m' : Z,
                is_maximum m' counts ->
                m' < 2 + VotingEngine.second (sortDesc (fun z => z) counts) ->
                m < 2 + ru).
  { intros counts [Hm Hr] m' Hm' Hlt.
    rewrite (is_maximum_unique _ _ _ Hm Hm').
    now rewrite (is_runner_up_unique _ _ _ Hr (sorted_counts_second counts)). }
  destruct i as [| [| [| [| i]]]]; [| | | | lia].
  - rewrite E0 in Hst. apply standing_countVotes in Hst; [| reflexivity].
    destruct Hst as [[[] _] _].
  - rewrite E1 in Hst. apply standing_countVotes in Hst; [| reflexivity].
    apply (Hread [1] Hst 1); [| reflexivity].
    split; [now left | repeat constructor; lia].
  - rewrite E2 in Hst. apply standing_countVotes in Hst; [| reflexivity].
    apply (Hread [1; 1] Hst 1); [| reflexivity].
    split; [now left | repeat constructor; lia].
  - rewrite E3 in Hst. apply standing_countVotes in Hst; [| reflexivity].
    apply (Hread [2; 1] Hst 2); [| reflexivity].
    split; [now left | repeat constructor; lia].
Qed.

(** C2: the first-to-ahead-by-K rule of [voteUntilConsensus].  A run that
    returns stops on a sample that was counted (admitted by the filter,
    normalized answer not empty).  With the samples counted up to that one,
    [maxCount] the greatest number of votes of one normalized answer and
    [runnerUpCount] the second greatest (0 with a single answer), the run
    reports consensus exactly when [maxCount >= k + runnerUpCount], and at
    no earlier sample of the run was the leader that far ahead.
    Conversely, on the first counted sample that puts the leader that far
    ahead, if it comes before the safety limit, the loop does return, on
    that very sample and with consensus.  With consensus it reports
    [maxCount] as the winning count, [maxCount - runnerUpCount] as the
    margin, and, for an answer with [maxCount] votes, the answer text of
    its first vote as the winner and the best confidence among its votes
    ([high] above [medium] above [low]).  With [k = 2] and the answers
    Paris, London, Paris, Paris the loop returns after exactly four samples
    with winner ["Paris"] and margin 2. *)
Theorem first_to_ahead_by_K :
  (forall (fuel : nat) (e : VotingEngine.t) (provider : LLMProvider)
          (question context : string) (flt : RedFlagFilter.t)
          (onVote : option VotingEngine.OnVote) (w w' : World)
          (r : VotingResult.t),
      VotingEngine.voteUntilConsensus fuel e provider question context flt
        onVote w = Ok r w' ->
      let tallied :=
        fun n =>
          counted flt (samples provider question context (calls w) n) in
      exists n maxCount runnerUpCount,
        calls w' = (calls w + S n)%nat
        /\ discarded flt (drawn provider question context (calls w) n)
           = false
        /\ standing (tallied (S n)) maxCount runnerUpCount
        /\ (VotingResult.consensusReached r = true
            <-> VotingEngine.k e + runnerUpCount <= maxCount)
        /\ (forall i m ru,
               (i <= n)%nat ->
               standing (tallied i) m ru ->
               m < VotingEngine.k e + ru)
        /\ (VotingResult.consensusReached r = true ->
            VotingStats.winningVoteCount (VotingResult.stats r) = maxCount
            /\ VotingStats.margin (VotingResult.stats r)
               = maxCount - runnerUpCount
            /\ exists key first others,
                 bucket key (tallied (S n)) = first :: others
                 /\ Z.of_nat (List.length (first :: others)) = maxCount
                 /\ VotingResult.winner r = Some (Vote.answer first)
                 /\ exists c,
                      VotingResult.confidence r = Some c
                      /\ best_confidence c (first :: others)))
  /\ (forall (fuel n : nat) (e : VotingEngine.t) (provider : LLMProvider)
             (question context : string) (flt : RedFlagFilter.t)
             (onVote : option VotingEngine.OnVote) (w : World)
             (maxCount runnerUpCount : Z),
         let tallied :=
           fun i =>
             counted flt (samples provider question context (calls w) i) in
         discarded flt (drawn provider question context (calls w) n)
         = false ->
         standing (tallied (S n)) maxCount runnerUpCount ->
         VotingEngine.k e + runnerUpCount <= maxCount ->
         (forall i m ru,
             (i <= n)%nat ->
             standing (tallied i) m ru ->
             m < VotingEngine.k e + ru) ->
         Z.of_nat n < VotingEngine.maxVotes e ->
         exists r w',
           VotingEngine.voteUntilConsensus (S n + fuel) e provider question
             context flt onVote w = Ok r w'
           /\ calls w' = (calls w + S n)%nat
           /\ VotingResult.consensusReached r = true)
  /\ (forall fuel : nat,
         VotingEngine.voteUntilConsensus (4 + fuel)
           (VotingEngine.new (mkVotingConfig (Some 2) None))
           parisLondonParisParis "What is the capital of France?" ""
           RedFlagFilter.default None Maker.start
         = Ok {| VotingResult.consensusReached := true;
                 VotingResult.winner := Some "Paris";
                 VotingResult.confidence := Some high;
                 VotingResult.stats :=
                   {| VotingStats.totalVotes := 4;
                      VotingStats.validVotes := 4;
                      VotingStats.redFlaggedVotes := 0;
                      VotingStats.winningVoteCount := 3;
                      VotingStats.margin := 2;
                      VotingStats.k := 2 |} |}
              (mkWorld 4 [])).
Proof.
  split; [| split; [| intro fuel; reflexivity]].
  2:{ intros fuel n e provider question context flt onVote w maxCount
        runnerUpCount tallied Hkept Hst Hahead Hnever Hlimit.
      unfold VotingEngine.voteUntilConsensus.
      apply (voteLoop_stops_when_ahead e provider question context flt
               onVote (calls w) n maxCount runnerUpCount Hkept Hst Hahead
               Hnever Hlimit n VotingEngine.initial w fuel).
      - reflexivity.
      - cbn [VotingEngine.initial VotingEngine.allVotes List.length]. lia.
      - reflexivity.
      - exact represents_nil. }
  intros fuel e provider question context flt onVote w w' r Hrun tallied.
  unfold VotingEngine.voteUntilConsensus in Hrun.
  refine (voteLoop_rule e provider question context flt onVote
            (fun st n' =>
               let len := List.length (VotingEngine.allVotes st) in
               n' = (calls w + len)%nat
               /\ VotingEngine.voteIndex st = Z.of_nat len
               /\ represents (VotingEngine.voteCounts st) (tallied len)
               /\ forall i m ru,
                    (i <= len)%nat ->
                    standing (tallied i) m ru ->
                    m < VotingEngine.k e + ru)
            (fun r n' =>
               exists n maxCount runnerUpCount,
                 n' = (calls w + S n)%nat
                 /\ discarded flt
                      (drawn provider question context (calls w) n) = false
                 /\ standing (tallied (S n)) maxCount runnerUpCount
                 /\ (VotingResult.consensusReached r = true
                     <-> VotingEngine.k e + runnerUpCount <= maxCount)
                 /\ (forall i m ru,
                        (i <= n)%nat ->
                        standing (tallied i) m ru ->
                        m < VotingEngine.k e + ru)
                 /\ (VotingResult.consensusReached r = true ->
                     VotingStats.winningVoteCount (VotingResult.stats r)
                     = maxCount
                     /\ VotingStats.margin (VotingResult.stats r)
                        = maxCount - runnerUpCount
                     /\ exists key first others,
                          bucket key (tallied (S n)) = first :: others
                          /\ Z.of_nat (List.length (first :: others))
                             = maxCount
                          /\ VotingResult.winner r
                             = Some (Vote.answer first)
                          /\ exists c,
                               VotingResult.confidence r = Some c
                               /\ best_confidence c (first :: others)))
            _ fuel VotingEngine.initial w w' r _ Hrun).
  - intros st n' (Hn & Hidx & Hrep & Hnever). cbn zeta.
    set (len := List.length (VotingEngine.allVotes st)) in *.
    assert (Hvote :
              sampleOf
                (complete provider n'
                   (mkRequest (PromptAnswer question context)
                      (if VotingEngine.voteIndex st =? 0
                       then 0%Q else (1 # 10)%Q) true))
                (if VotingEngine.voteIndex st =? 0 then 0%Q else (1 # 10)%Q)
                (VotingEngine.voteIndex st)
              = drawn provider question context (calls w) len).
    { unfold drawn. now rewrite Hn, Hidx. }
    rewrite Hvote.
    set (vote := drawn provider question context (calls w) len).
    assert (Hnext : tallied (S len)
                    = tallied len
                      ++ (if discarded flt vote then [] else [vote])).
    { unfold tallied. now rewrite samples_S, counted_snoc. }
    destruct (discarded flt vote) eqn:Hd.
    + rewrite app_nil_r in Hnext.
      destruct (processVote_discarded_state e flt st vote Hd)
        as (vote' & st' & -> & Hvc & Hav & _ & Hvi).
      cbn [snd].
      assert (Hlen' : List.length (VotingEngine.allVotes st') = S len).
      { rewrite Hav, length_app. cbn [List.length]. unfold len. lia. }
      rewrite Hlen', Hvc, Hvi, Hnext.
      split; [lia |]. split; [lia |]. split; [exact Hrep |].
      intros i m ru Hi Hst.
      destruct (Nat.eq_dec i (S len)) as [-> | Hne].
      * rewrite Hnext in Hst. now apply (Hnever len).
      * apply (Hnever i); [lia | exact Hst].
    + rewrite (processVote_tallied e flt st vote Hd). cbn [snd].
      set (st1 := VotingEngine.mkLoop _ _ _ _).
      assert (Hlen1 : List.length (VotingEngine.allVotes st1) = S len).
      { unfold st1. cbn [VotingEngine.allVotes].
        rewrite length_app. cbn [List.length]. unfold len. lia. }
      assert (Hrep1 : represents (VotingEngine.voteCounts st1)
                        (tallied (S len))).
      { rewrite Hnext. unfold st1. cbn [VotingEngine.voteCounts].
        now apply represents_recordVote. }
      destruct (decide_outcome e st1) as (maxCount & Hmax & Hout).
      { apply recordVote_nonempty. }
      set (runnerUp :=
             VotingEngine.second
               (sortDesc (fun z => z)
                  (map VotingEngine.entryCount
                     (VotingEngine.voteCounts st1)))) in *.
      assert (Hru : is_runner_up
                      (map VotingEngine.entryCount
                         (VotingEngine.voteCounts st1)) runnerUp).
      { apply sorted_counts_second. }
      assert (Hst1 : standing (tallied (S len)) maxCount runnerUp).
      { apply (represents_standing _ _ _ _ Hrep1). now split. }
      destruct (VotingEngine.decide e st1) as [st' | r'].
      * destruct Hout as (-> & Hbehind & _).
        rewrite Hlen1.
        split; [lia |].
        split; [unfold st1; cbn [VotingEngine.voteIndex]; lia |].
        split; [exact Hrep1 |].
        intros i m ru Hi Hst.
        destruct (Nat.eq_dec i (S len)) as [-> | Hne].
        -- apply (represents_standing _ _ _ _ Hrep1) in Hst.
           destruct Hst as [Hm Hr].
           rewrite (is_maximum_unique _ _ _ Hm Hmax).
           rewrite (is_runner_up_unique _ _ _ Hr Hru). exact Hbehind.
        -- apply (Hnever i); [lia | exact Hst].
      * destruct Hout as (Hstats & Hiff & _ & key & data & Hin & Hcount
                          & Hw & Hc).
        exists len, maxCount, runnerUp.
        split; [lia |]. split; [exact Hd |]. split; [exact Hst1 |].
        split; [exact Hiff |]. split; [exact Hnever |].
        intros _. rewrite Hstats.
        cbn [VotingStats.winningVoteCount VotingStats.margin].
        split; [reflexivity |]. split; [reflexivity |].
        destruct Hrep1 as (_ & _ & Hrec). rewrite Forall_forall in Hrec.
        destruct (Hrec _ Hin) as (first & others & Hb & Hn1 & Ho & Hbest).
        cbn [fst snd] in Hb, Hn1, Ho, Hbest.
        exists key, first, others.
        split; [exact Hb |]. split; [congruence |].
        split; [now rewrite Hw, Ho |].
        exists (VoteData.confidence data). split; [exact Hc | exact Hbest].
  - cbn zeta. cbn [VotingEngine.initial VotingEngine.allVotes List.length
                   VotingEngine.voteIndex VotingEngine.voteCounts].
    split; [lia |]. split; [reflexivity |].
    split; [exact represents_nil |].
    intros i m ru Hi Hst.
    assert (i = 0%nat) by lia. subst i.
    change (tallied 0%nat) with (@nil Vote.t) in Hst.
    apply (represents_standing [] [] m ru represents_nil) in Hst.
    destruct Hst as [[[] _] _].
Qed.

Lemma first_to_ahead_by_K_witness :
  (exists r w' n,
      VotingEngine.voteUntilConsensus 10
        (VotingEngine.new (mkVotingConfig (Some 2) None))
        parisLondonParisParis "What is the capital of France?" ""
        RedFlagFilter.default None Maker.start = Ok r w'
      /\ calls w' = S n
      /\ discarded RedFlagFilter.default
           (drawn parisLondonParisParis "What is the capital of France?" ""
              0 n) = false)
  /\ (exists r w',
         VotingEngine.voteUntilConsensus 4
           (VotingEngine.new (mkVotingConfig (Some 2) None))
           parisLondonParisParis "What is the capital of France?" ""
           RedFlagFilter.default None Maker.start = Ok r w'
         /\ calls w' = 4%nat
         /\ VotingResult.consensusReached r = true).
Proof.
  split.
  - destruct (proj1 first_to_ahead_by_K 10%nat
                (VotingEngine.new (mkVotingConfig (Some 2) None))
                parisLondonParisParis "What is the capital of France?" ""
                RedFlagFilter.default None Maker.start _ _
                ltac:(vm_compute; reflexivity))
      as (n & maxCount & runnerUpCount & Hcalls & Hkept & _).
    eexists. eexists. exists n.
    split; [vm_compute; reflexivity |].
    split; [exact Hcalls | exact Hkept].
  - apply (proj1 (proj2 first_to_ahead_by_K) 0%nat 3%nat
             (VotingEngine.new (mkVotingConfig (Some 2) None))
             parisLondonParisParis "What is the capital of France?" ""
             RedFlagFilter.default None Maker.start 3 1).
    + reflexivity.
    + exact parisTallied_standing.
    + change (2 + 1 <= 3). lia.
    + exact parisTallied_not_ahead.
    + change (Z.of_nat 3 < 100). lia.
Defined.

(** ** The fixed-sample mode *)

Lemma collectFrom_run (e : FixedSampling.t) (provider : LLMProvider)
    (question context : string) (n0 : nat) :
  forall (count i : nat) (w : World),
    calls w = (n0 + i)%nat ->
    FixedSampling.collectFrom e provider question context i count w
    = Ok (map
            (fun j =>
               let temperature :=
                 nullish (nth_error (FixedSampling.temperatures e) j)
                   (1 # 10)%Q in
               sampleOf
                 (complete provider (n0 + j)
                    (mkRequest (PromptAnswer question context)
                       temperature true))
                 temperature (Z.of_nat j))
            (seq i count))
         (mkWorld (n0 + i + count) (events w)).
Proof.
  induction count as [| count IH]; intros i w Hw.
  - simpl. unfold ret. f_equal. destruct w as [c ev]. simpl in *.
    f_equal. lia.
  - cbn [FixedSampling.collectFrom seq map]. unfold bind at 1.
    rewrite generateVote_run. unfold bind at 1.
    rewrite (IH (S i)); [| simpl; lia].
    unfold ret. cbn [events]. rewrite Hw. f_equal. f_equal. lia.
Qed.

Lemma default_temperature (n i : nat) :
  (i < n)%nat ->
  nth_error (FixedSampling.generateDefaultTemperatures (Z.of_nat n)) i
  = Some (if Z.of_nat i =? 0 then 0%Q else (1 # 10)%Q).
Proof.
  intro Hi. unfold FixedSampling.generateDefaultTemperatures.
  destruct (Z.leb_spec (Z.of_nat n) 0) as [H0 | H0]; [lia |].
  destruct (Z.eqb_spec (Z.of_nat n) 1) as [H1 | H1].
  - assert (i = 0%nat) by lia. subst i. reflexivity.
  - destruct i as [| i]; [reflexivity |].
    cbn [nth_error].
    destruct (Z.eqb_spec (Z.of_nat (S i)) 0) as [E | _]; [lia |].
    apply nth_error_repeat. lia.
Qed.

(** X13: the deprecated fixed-sample collection never raises and makes
    exactly [samples] oracle calls (none when [samples] is not positive);
    with the default temperatures its votes are, index for index, the
    first [samples] samples the continuous loop would draw: temperature 0
    for the first and 0.1 for the others, a failed call giving a vote that
    is marked red-flagged. *)
Theorem collectVotes_draws_the_first_samples (fixed : option Z)
    (provider : LLMProvider) (question context : string) (w : World) :
  let e := FixedSampling.new (FixedSampling.mkConfig fixed None) in
  let n := Z.to_nat (FixedSampling.samples e) in
  FixedSampling.collectVotes e provider question context w
  = Ok (samples provider question context (calls w) n)
       (mkWorld (calls w + n) (events w)).
Proof.
  cbn zeta. unfold FixedSampling.collectVotes.
  rewrite (collectFrom_run _ provider question context (calls w))
    by (simpl; lia).
  f_equal; [| f_equal; lia].
  unfold samples. apply map_ext_in. intros j Hj.
  apply in_seq in Hj. cbn zeta.
  set (s := FixedSampling.samples _) in *.
  assert (Ht : nth_error
                 (FixedSampling.temperatures
                    (FixedSampling.new (FixedSampling.mkConfig fixed None)))
                 j
               = Some (if Z.of_nat j =? 0 then 0%Q else (1 # 10)%Q)).
  { unfold FixedSampling.new.
    cbn [FixedSampling.temperatures FixedSampling.cfg_temperatures nullish
         FixedSampling.cfg_samples].
    change (nullish fixed FixedSampling.DEFAULT_samples) with s.
    assert (Hs : s = Z.of_nat (Z.to_nat s)) by lia.
    rewrite Hs. apply default_temperature. lia. }
  rewrite Ht. reflexivity.
Qed.

(** ** Normalization: what two answers must share to fall in one bucket *)

Lemma normalizeAnswer_as_chars (s : string) :
  VotingEngine.normalizeAnswer s
  = string_of_list_ascii (normalizeChars (list_ascii_of_string s)).
Proof. apply NormalizeFacts.normalizeAnswer_chars. Qed.

(** X14: normalization only sees the lower-cased answer: two answers that
    differ in the case of their letters alone have the same normalized
    form, so they fall in the same bucket. *)
Theorem normalizeAnswer_ignores_case (s t : string) :
  JsString.toLowerCase s = JsString.toLowerCase t ->
  VotingEngine.normalizeAnswer s = VotingEngine.normalizeAnswer t.
Proof.
  intro H. rewrite !normalizeAnswer_as_chars. unfold normalizeChars.
  unfold JsString.toLowerCase, JsString.onChars in H.
  apply (f_equal list_ascii_of_string) in H.
  rewrite !list_ascii_of_string_of_list_ascii in H.
  now rewrite H.
Qed.

Lemma normalizeAnswer_ignores_case_witness :
  VotingEngine.normalizeAnswer "New York"
  = VotingEngine.normalizeAnswer "nEW yORK".
Proof. apply normalizeAnswer_ignores_case. reflexivity. Defined.

Lemma forallb_white_lower (l : list ascii) :
  forallb JsString.isWhiteSpace (map JsString.lowerChar l)
  = forallb JsString.isWhiteSpace l.
Proof.
  induction l as [| c r IH]; simpl; [reflexivity |].
  now rewrite NormalizeFacts.lowerChar_white, IH.
Qed.

(** X15: white space before and after an answer does not change its
    normalized form. *)
Theorem normalizeAnswer_ignores_padding (pre s post : string) :
  allChars JsString.isWhiteSpace pre = true ->
  allChars JsString.isWhiteSpace post = true ->
  VotingEngine.normalizeAnswer (pre ++ s ++ post)
  = VotingEngine.normalizeAnswer s.
Proof.
  unfold allChars. intros Hpre Hpost.
  rewrite !normalizeAnswer_as_chars. unfold normalizeChars.
  rewrite !list_ascii_of_string_app, !map_app.
  rewrite trim_padding_chars; [reflexivity | |];
    now rewrite forallb_white_lower.
Qed.

Lemma normalizeAnswer_ignores_padding_witness :
  VotingEngine.normalizeAnswer ("  " ++ "Paris" ++ " ")
  = VotingEngine.normalizeAnswer "Paris".
Proof. apply normalizeAnswer_ignores_padding; reflexivity. Defined.

Lemma string_length_chars (l : list ascii) :
  String.length (string_of_list_ascii l) = List.length l.
Proof. induction l; simpl; [reflexivity | now f_equal]. Qed.


(** X16: a normalized answer is in canonical form: lower-casing it,
    collapsing its white space or stripping its trailing punctuation
    changes nothing, it does not start with white space, and it is never
    longer than the lower-cased answer it was made from (the steps after
    the lower-casing only remove characters). *)
Theorem normalizeAnswer_canonical (s : string) :
  let n := VotingEngine.normalizeAnswer s in
  JsString.toLowerCase n = n
  /\ JsString.replaceWhiteSpaceRuns n = n
  /\ JsString.stripTrailingPunct n = n
  /\ startsClean (list_ascii_of_string n)
  /\ (String.length n <= String.length (JsString.toLowerCase s))%nat.
Proof.
  cbn zeta. rewrite normalizeAnswer_as_chars.
  set (l := list_ascii_of_string s).
  unfold JsString.toLowerCase, JsString.replaceWhiteSpaceRuns,
    JsString.stripTrailingPunct, JsString.onChars.
  rewrite !list_ascii_of_string_of_list_ascii.
  assert (Hlow : lowered (normalizeChars l)).
  { apply NormalizeFacts.lowered_dropWhileEnd,
      NormalizeFacts.lowered_collapseRuns,
      NormalizeFacts.lowered_dropWhileEnd, NormalizeFacts.lowered_dropWhile,
      NormalizeFacts.lowered_map. }
  split; [now rewrite (NormalizeFacts.lowered_fixed _ Hlow) |].
  split.
  { f_equal. unfold normalizeChars.
    match goal with
    | |- context [JsString.dropWhileEnd JsString.isTrailingPunct ?y] =>
        destruct (NormalizeFacts.dropWhileEnd_prefix
                    JsString.isTrailingPunct y) as [q Hq];
        apply (NormalizeFacts.collapseRuns_fixed_prefix _ q);
        rewrite <- Hq
    end.
    apply NormalizeFacts.collapseRuns_idem. }
  split.
  { f_equal. apply NormalizeFacts.dropWhileEnd_idem. }
  split.
  { apply NormalizeFacts.startsClean_dropWhileEnd,
      NormalizeFacts.startsClean_collapseRuns,
      NormalizeFacts.startsClean_dropWhileEnd,
      NormalizeFacts.startsClean_dropWhile. }
  rewrite !string_length_chars. unfold normalizeChars.
  etransitivity; [apply NormalizeFacts.dropWhileEnd_length |].
  etransitivity; [apply NormalizeFacts.collapseRuns_length |].
  etransitivity; [apply NormalizeFacts.dropWhileEnd_length |].
  apply NormalizeFacts.dropWhile_length.
Qed.

(** ** The decomposer: the shape, the cost and the failures of a plan *)

Lemma await_complete_Ok (provider : LLMProvider) (request : CompletionRequest)
    (w w' : World) (r : CompletionResponse) :
  await_complete provider request w = Ok r w' ->
  complete provider (calls w) request = Resolved r
  /\ w' = mkWorld (S (calls w)) (events w).
Proof.
  unfold await_complete.
  destruct (complete provider (calls w) request); intro H; [| discriminate].
  injection H as <- <-. now split.
Qed.

Lemma slice0_length {A} (n : Z) (xs : list A) :
  0 <= n -> Z.of_nat (List.length (Decomposer.slice0 n xs)) <= n.
Proof.
  intro Hn. unfold Decomposer.slice0.
  destruct (Z.ltb_spec n 0); [lia |].
  rewrite length_firstn. lia.
Qed.

(** X17: a plan of the decomposer with the built-in classifier and a limit
    that is not negative holds at least one sub-question and at most
    [maxSubQuestions] of them (one when the limit is 0); it costs at most
    two oracle calls and emits nothing; and unless both calls were made,
    the plan is the question itself, verbatim, with strategy "none". *)
Theorem decompose_plan (d : Decomposer.t) (question : string)
    (context : option string) (w w' : World) (plan : Decomposer.Plan) :
  Decomposer.classifier d = Decomposer.Auto ->
  0 <= Decomposer.maxSubQuestions d ->
  Decomposer.decompose d question context w = Ok plan w' ->
  1 <= Z.of_nat (List.length (Decomposer.subQuestions plan))
    <= Z.max 1 (Decomposer.maxSubQuestions d)
  /\ 0 <= callsBetween w w' <= 2
  /\ events w' = events w
  /\ (callsBetween w w' < 2 ->
      Decomposer.synthesisStrategy plan = "none"
      /\ exists type,
           Decomposer.subQuestions plan
           = [Decomposer.createSingleSubQuestion question type]).
Proof.
  intros Hauto Hmax. unfold Decomposer.decompose, Decomposer.classify.
  rewrite Hauto. unfold callsBetween.
  destruct (negb (Decomposer.enabled d)).
  { intro H. apply ret_Ok in H. destruct H as [<- <-].
    cbn [Decomposer.subQuestions Decomposer.synthesisStrategy List.length].
    repeat split; try lia. now exists None. }
  intro H. apply bind_Ok in H. destruct H as (c & w1 & Hc & H).
  apply bind_Ok in Hc. destruct Hc as (r1 & w0 & Hr1 & Hc).
  apply ret_Ok in Hc. destruct Hc as [Hc <-].
  apply await_complete_Ok in Hr1. destruct Hr1 as [_ ->].
  destruct (negb (Classification.needsDecomposition c)).
  { apply ret_Ok in H. destruct H as [<- <-].
    cbn [Decomposer.subQuestions Decomposer.synthesisStrategy List.length
         calls events].
    repeat split; try lia. eexists. reflexivity. }
  apply bind_Ok in H. destruct H as (r2 & w2 & Hr2 & H).
  apply await_complete_Ok in Hr2. destruct Hr2 as [_ ->].
  apply bind_Ok in H. destruct H as (parsed & w3 & Hparsed & H).
  apply sync_Ok in Hparsed. destruct Hparsed as [_ <-].
  cbn zeta in H.
  match type of H with
  | (if (List.length ?l =? 0)%nat then _ else _) _ = _ =>
      assert (Hlen : Z.of_nat (List.length l)
                     <= Decomposer.maxSubQuestions d);
      [| destruct l as [| sq sqs] eqn:E;
         cbn [List.length Nat.eqb] in H;
         apply ret_Ok in H; destruct H as [<- <-];
         cbn [Decomposer.subQuestions Decomposer.synthesisStrategy
              List.length calls events] in * ]
  end.
  { destruct (Z.gtb_spec (Z.of_nat (List.length (fst parsed)))
                (Decomposer.maxSubQuestions d)).
    - now apply slice0_length.
    - assumption. }
  - repeat split; try lia.
  - repeat split; try lia.
Qed.

Lemma decompose_plan_witness :
  exists plan w',
    Decomposer.decompose
      (Decomposer.new twoStepProvider
         (Decomposer.mkConfig None (Some 1) None None))
      "What is the capital of France and of Spain?" None Maker.start
    = Ok plan w'
    /\ List.length (Decomposer.subQuestions plan) = 1%nat
    /\ callsBetween Maker.start w' = 2.
Proof.
  pose proof (decompose_plan
                (Decomposer.new twoStepProvider
                   (Decomposer.mkConfig None (Some 1) None None))
                "What is the capital of France and of Spain?" None
                Maker.start _ _
                eq_refl ltac:(simpl; lia)
                ltac:(vm_compute; reflexivity)) as (Hlen & Hcalls & _).
  eexists. eexists. split; [vm_compute; reflexivity |].
  split; reflexivity.
Defined.

(** ** Parsing a decomposition *)

Lemma mapi_length {A B} (f : A -> Z -> B) (l : list A) :
  forall i, List.length (mapi f i l) = List.length l.
Proof. induction l; intro i; simpl; [reflexivity | now rewrite IHl]. Qed.

Lemma mapi_map {A B C} (g : B -> C) (f : A -> Z -> B) (l : list A) :
  forall i, map g (mapi f i l) = mapi (fun x j => g (f x j)) i l.
Proof. induction l; intro i; simpl; [reflexivity | now rewrite IHl]. Qed.

Lemma mapi_seq {A B} (h : Z -> B) (l : list A) :
  forall (i : Z) (n : nat),
    i = Z.of_nat n ->
    mapi (fun _ j => h j) i l
    = map (fun j => h (Z.of_nat j)) (seq n (List.length l)).
Proof.
  induction l as [| x r IH]; intros i n Hi; simpl; [reflexivity |].
  subst i. f_equal. apply IH. lia.
Qed.

Lemma mapi_ext_in {A B} (f g : A -> Z -> B) (l : list A) :
  (forall x j, In x l -> f x j = g x j) ->
  forall i, mapi f i l = mapi g i l.
Proof.
  induction l as [| x r IH]; intros H i; simpl; [reflexivity |].
  rewrite H by now left. f_equal. apply IH.
  intros y j Hy. apply H. now right.
Qed.

Lemma mapi_plain {A B} (g : A -> B) (l : list A) :
  forall i, mapi (fun x _ => g x) i l = map g l.
Proof. induction l; intro i; simpl; [reflexivity | now rewrite IHl]. Qed.

Lemma decimal_inj (a b : Z) :
  0 <= a -> 0 <= b -> decimal a = decimal b -> a = b.
Proof.
  unfold decimal. intros Ha Hb H.
  apply (f_equal NilEmpty.uint_of_string) in H.
  rewrite !NilEmpty.usu in H. injection H as H.
  apply DecimalN.Unsigned.to_uint_inj in H. lia.
Qed.

(** The callback throws on the first entry whose properties cannot be
    read, and otherwise maps the entries one by one. *)
Lemma mapiTry_parseSubQuestion (entries : list (option RawSubQuestion)) :
  forall index,
    match mapiTry parseSubQuestion index entries with
    | Thrown error => error = TypeError /\ In None entries
    | Returned parsed =>
        exists objects,
          entries = map Some objects
          /\ parsed
             = mapi
                 (fun sqObj i =>
                    {| SubQuestion.id :=
                         orFalsy (raw_id sqObj) ("sq" ++ decimal (i + 1));
                       SubQuestion.question :=
                         orFalsy (raw_question sqObj) "";
                       SubQuestion.dependencies :=
                         nullish (raw_dependencies sqObj) [];
                       SubQuestion.type := nullish (raw_type sqObj) factual;
                       SubQuestion.index := Some i |})
                 index objects
    end.
Proof.
  induction entries as [| entry rest IH]; intro index; cbn [mapiTry].
  - exists []. now split.
  - destruct entry as [sqObj |]; cbn [parseSubQuestion].
    + specialize (IH (index + 1)).
      destruct (mapiTry parseSubQuestion (index + 1) rest)
        as [parsed | error].
      * destruct IH as (objects & -> & ->).
        exists (sqObj :: objects). now split.
      * destruct IH as [-> Hin]. split; [reflexivity | now right].
    + split; [reflexivity | now left].
Qed.

(** X19: [parseDecomposition] throws a TypeError exactly when the
    [subQuestions] array of the response holds a [null] or [undefined]
    entry.  Otherwise it returns the entries in their order, one
    sub-question for each, numbered from 0, each with the question text of
    its entry (empty when there is none); and when no entry brings an id,
    the ids given, "sq1", "sq2", ..., are pairwise distinct. *)
Theorem parseDecomposition_entries (r : ResponseObject)
    (entries : list (option RawSubQuestion)) :
  obj_subQuestions r = Some entries ->
  match parseDecomposition (ContentObject r) with
  | Thrown error => error = TypeError /\ In None entries
  | Returned (parsed, _) =>
      exists objects,
        entries = map Some objects
        /\ List.length parsed = List.length entries
        /\ map SubQuestion.index parsed
           = map (fun i => Some (Z.of_nat i)) (seq 0 (List.length entries))
        /\ map SubQuestion.question parsed
           = map (fun sqObj => orFalsy (raw_question sqObj) "") objects
        /\ (Forall (fun sqObj => raw_id sqObj = None) objects ->
            NoDup (map SubQuestion.id parsed))
  end.
Proof.
  intro E. unfold parseDecomposition. rewrite E.
  pose proof (mapiTry_parseSubQuestion entries 0) as H.
  destruct (mapiTry parseSubQuestion 0 entries) as [parsed | error];
    [| exact H].
  destruct H as (objects & -> & ->).
  exists objects. split; [reflexivity |].
  rewrite !length_map.
  split; [apply mapi_length |].
  split.
  { rewrite mapi_map. cbn [SubQuestion.index].
    now rewrite (mapi_seq (fun j => Some j) objects 0 0). }
  split.
  { rewrite mapi_map. cbn [SubQuestion.question]. apply mapi_plain. }
  intro Hnone. rewrite mapi_map. cbn [SubQuestion.id].
  rewrite (mapi_ext_in _ (fun _ j => "sq" ++ decimal (j + 1))%string).
  2:{ intros x j Hx. rewrite Forall_forall in Hnone.
      now rewrite (Hnone x Hx). }
  rewrite (mapi_seq (fun j => "sq" ++ decimal (j + 1))%string objects 0 0)
    by reflexivity.
  apply NoDup_map_NoDup_ForallPairs; [| apply seq_NoDup].
  intros a b _ _ Hab.
  injection Hab as Hab.
  apply decimal_inj in Hab; lia.
Qed.

Lemma parseDecomposition_entries_witness :
  exists parsed strategy,
    parseDecomposition
      (ContentObject
         (mkResponseObject None None false None None None
            (Some [Some (mkRawSubQuestion None (Some "Who?") None None);
                   Some (mkRawSubQuestion None (Some "When?") None None)])
            None None))
    = Returned (parsed, strategy)
    /\ List.length parsed = 2%nat
    /\ NoDup (map SubQuestion.id parsed).
Proof.
  pose proof (parseDecomposition_entries
                (mkResponseObject None None false None None None
                   (Some [Some (mkRawSubQuestion None (Some "Who?") None
                                  None);
                          Some (mkRawSubQuestion None (Some "When?") None
                                  None)])
                   None None)
                _ eq_refl) as H.
  destruct (parseDecomposition _) as [[parsed strategy] | error] eqn:E.
  - exists parsed, strategy. split; [reflexivity |].
    destruct H as (objects & Hentries & Hlen & _ & _ & Hids).
    split; [exact Hlen |].
    apply Hids.
    apply (f_equal (map (option_map raw_id))) in Hentries.
    rewrite map_map in Hentries. cbn in Hentries.
    destruct objects as [| a [| b [| c rest]]]; try discriminate.
    injection Hentries as Ha Hb.
    repeat constructor; congruence.
  - exfalso. vm_compute in E. discriminate.
Defined.

Example parseDecomposition_null_entry :
  parseDecomposition
    (ContentObject
       (mkResponseObject None None false None None None
          (Some [Some (mkRawSubQuestion None (Some "Who?") None None); None])
          None None))
  = Thrown TypeError.
Proof. reflexivity. Qed.

(** X18: with the built-in classifier the decomposer needs no fuel, and it
    raises in two cases only.  Either an oracle call was rejected, the
    first or the second call it makes, and it raises that call's error
    right after the call; or both calls resolved and the [subQuestions]
    array of the second response holds a [null] or [undefined] entry, and
    it raises the parser's TypeError.  Nothing is emitted in either
    case. *)
Theorem decompose_raises (d : Decomposer.t) (question : string)
    (context : option string) (w : World) :
  Decomposer.classifier d = Decomposer.Auto ->
  match Decomposer.decompose d question context w with
  | Ok _ _ => True
  | Throw error w' =>
      (exists n request,
          (calls w <= n < calls w + 2)%nat
          /\ complete (Decomposer.provider d) n request = Rejected error
          /\ w' = mkWorld (S n) (events w))
      \/ (exists request response o entries,
             complete (Decomposer.provider d) (S (calls w)) request
             = Resolved response
             /\ content response = ContentObject o
             /\ obj_subQuestions o = Some entries
             /\ In None entries
             /\ error = TypeError
             /\ w' = mkWorld (S (S (calls w))) (events w))
  | OutOfFuel => False
  end.
Proof.
  intro Hauto. unfold Decomposer.decompose, Decomposer.classify.
  rewrite Hauto.
  destruct (negb (Decomposer.enabled d)); [exact I |].
  unfold bind at 1. unfold bind at 1. unfold await_complete at 1.
  destruct (complete (Decomposer.provider d) (calls w) _) as [r1 | e1] eqn:E1.
  2:{ left. eexists _, _. split; [| split; [exact E1 | reflexivity]]. lia. }
  unfold ret at 1.
  destruct (negb (Classification.needsDecomposition _)); [exact I |].
  unfold bind at 1. unfold await_complete. cbn [calls events].
  match goal with
  | |- context [complete (Decomposer.provider d) (S (calls w)) ?req] =>
      destruct (complete (Decomposer.provider d) (S (calls w)) req)
        as [r2 | e2] eqn:E2
  end.
  2:{ left. eexists _, _. split; [| split; [exact E2 | reflexivity]]. lia. }
  unfold bind, sync.
  destruct (parseDecomposition (content r2)) as [parsed | error] eqn:Ep.
  - cbn zeta.
    match goal with
    | |- context [if ?b then _ else _] => destruct b; exact I
    end.
  - right. unfold parseDecomposition in Ep.
    destruct (content r2) as [s | o |] eqn:Ec; try discriminate.
    destruct (obj_subQuestions o) as [entries |] eqn:Es; [| discriminate].
    pose proof (mapiTry_parseSubQuestion entries 0) as H.
    destruct (mapiTry parseSubQuestion 0 entries) as [ok | error'];
      [discriminate |].
    injection Ep as <-. destruct H as [-> Hin].
    eexists _, r2, o, entries.
    split; [exact E2 |]. now repeat split.
Qed.

Lemma decompose_raises_witness :
  exists n request,
    (0 <= n < 2)%nat
    /\ complete failingProvider n request = Rejected "API Error".
Proof.
  pose proof (decompose_raises
                (Decomposer.new failingProvider Decomposer.noConfig)
                "What is the capital of France?" None Maker.start eq_refl)
    as H.
  vm_compute in H.
  destruct H as [(n & request & Hn & Hrej & _)
                | (request & response & _ & _ & Hres & _)].
  - exists n, request. split; [lia | exact Hrej].
  - discriminate Hres.
Defined.

(** ** The synthesizer *)

Lemma countConfidence_positive (c : ConfidenceLevel)
    (subAnswers : list SubQuestionResult.t) :
  0 < Synthesizer.countConfidence c subAnswers
  <-> Exists (fun sa => SubQuestionResult.confidence sa = c) subAnswers.
Proof.
  unfold Synthesizer.countConfidence.
  induction subAnswers as [| sa rest IH]; simpl.
  - split; [lia | intro H; inversion H].
  - destruct (confidence_eqb (SubQuestionResult.confidence sa) c) eqn:E.
    + split; [intros _ | simpl; lia].
      constructor.
      destruct (SubQuestionResult.confidence sa), c;
        reflexivity || discriminate.
    + rewrite IH, Exists_cons. split; [now right |].
      intros [Hhd | Htl]; [| assumption].
      rewrite Hhd in E. destruct c; discriminate.
Qed.

(** X20: the confidence the synthesizer reports is never above the one the
    oracle gave for the synthesis; it is [low] exactly when that one is
    [low] or some sub-answer has [low] confidence, and [high] exactly when
    that one is [high], no sub-answer is [low] and the [medium] sub-answers
    do not outnumber the [high] ones. *)
Theorem calculateConfidence_cautious (synthesisConfidence : ConfidenceLevel)
    (subAnswers : list SubQuestionResult.t) :
  let result :=
    Synthesizer.calculateConfidence synthesisConfidence subAnswers in
  VotingEngine.order result <= VotingEngine.order synthesisConfidence
  /\ (result = low
      <-> synthesisConfidence = low
          \/ Exists (fun sa => SubQuestionResult.confidence sa = low)
               subAnswers)
  /\ (result = high
      <-> synthesisConfidence = high
          /\ Forall (fun sa => SubQuestionResult.confidence sa <> low)
               subAnswers
          /\ Synthesizer.countConfidence medium subAnswers
             <= Synthesizer.countConfidence high subAnswers).
Proof.
  cbn zeta. unfold Synthesizer.calculateConfidence.
  pose proof (countConfidence_positive low subAnswers) as Hlow.
  assert (Hnone : ~ Exists (fun sa => SubQuestionResult.confidence sa = low)
                      subAnswers
                  <-> Forall (fun sa => SubQuestionResult.confidence sa <> low)
                        subAnswers).
  { rewrite <- Forall_Exists_neg. reflexivity. }
  destruct (Z.gtb_spec (Synthesizer.countConfidence low subAnswers) 0)
    as [Hpos | Hzero].
  - rewrite orb_true_r.
    assert (Hex : Exists (fun sa => SubQuestionResult.confidence sa = low)
                    subAnswers) by (apply Hlow; lia).
    split; [destruct synthesisConfidence; simpl; lia |].
    split; [split; [now right | reflexivity] |].
    split; [discriminate |].
    intros (_ & Hall & _). apply Hnone in Hall. contradiction.
  - assert (Hno : ~ Exists (fun sa => SubQuestionResult.confidence sa = low)
                      subAnswers) by (rewrite <- Hlow; lia).
    destruct (Z.gtb_spec (Synthesizer.countConfidence medium subAnswers)
                (Synthesizer.countConfidence high subAnswers)) as [Hm | Hm];
      destruct synthesisConfidence; simpl;
      (split; [lia |]); split;
      try (split;
           [ intro H; first [discriminate H | now left]
           | intros [H | H];
             [first [discriminate H | reflexivity] | contradiction] ]);
      (split;
       [ intro H;
         first [ discriminate H
               | split; [reflexivity |]; split; [now apply Hnone | lia] ]
       | intros (H1 & _ & H3);
         first [discriminate H1 | lia | reflexivity] ]).
Qed.

Lemma concat_nonempty (sep : string) (l : list string) :
  (forall x, In x l -> x <> ""%string) ->
  String.concat sep l = ""%string -> l = [].
Proof.
  destruct l as [| x r]; [reflexivity |].
  intros Hne H. exfalso. apply (Hne x); [now left |].
  destruct x as [| c x']; [reflexivity |].
  simpl in H. destruct r; discriminate H.
Qed.

Lemma trim_empty : JsString.trim "" = ""%string.
Proof. reflexivity. Qed.

Lemma fallbackSynthesis_empty (subAnswers : list SubQuestionResult.t) :
  Synthesizer.fallbackSynthesis subAnswers = ""%string ->
  Forall (fun sa => JsString.trim (SubQuestionResult.answer sa) = ""%string)
    subAnswers.
Proof.
  unfold Synthesizer.fallbackSynthesis.
  destruct subAnswers as [| sa [| sb rest]]; [discriminate | |].
  - intro H. constructor; [now rewrite H | constructor].
  - set (l := sa :: sb :: rest). intro H.
    apply concat_nonempty in H.
    + apply map_eq_nil in H. apply Forall_forall. intros x Hx.
      destruct (JsString.truthy (SubQuestionResult.answer x)
                && JsString.truthy
                     (JsString.trim (SubQuestionResult.answer x))) eqn:E.
      * assert (Hin : In x (filter
                              (fun sa =>
                                 JsString.truthy (SubQuestionResult.answer sa)
                                 && JsString.truthy
                                      (JsString.trim
                                         (SubQuestionResult.answer sa)))
                              l)).
        { apply filter_In. now split. }
        rewrite H in Hin. contradiction.
      * apply andb_false_iff in E. destruct E as [E | E];
          apply truthy_false_iff in E; [now rewrite E | exact E].
    + intros x Hx. apply in_map_iff in Hx.
      destruct Hx as (sa0 & <- & Hin). apply filter_In in Hin.
      destruct Hin as [_ Hp]. apply andb_true_iff in Hp.
      destruct Hp as [Hp _]. intro E. rewrite E in Hp. discriminate.
Qed.

(** X21: an enabled synthesizer asks the oracle once when there are two or
    more sub-answers and not at all otherwise, and emits nothing; however
    confident the oracle is, the result has [low] confidence as soon as
    one sub-answer has; and the answer is empty only when every sub-answer
    is empty or white space. *)
Theorem synthesize_enabled (s : Synthesizer.t) (originalQuestion : string)
    (subAnswers : list SubQuestionResult.t) (w w' : World)
    (r : Synthesizer.Synthesis) :
  Synthesizer.enabled s = true ->
  Synthesizer.synthesize s originalQuestion subAnswers w = Ok r w' ->
  events w' = events w
  /\ callsBetween w w'
     = (if (2 <=? List.length subAnswers)%nat then 1 else 0)
  /\ (Exists (fun sa => SubQuestionResult.confidence sa = low) subAnswers ->
      Synthesizer.confidence r = low)
  /\ (Synthesizer.answer r = ""%string ->
      Forall
        (fun sa => JsString.trim (SubQuestionResult.answer sa) = ""%string)
        subAnswers).
Proof.
  intros Hon. unfold Synthesizer.synthesize, callsBetween. rewrite Hon.
  cbn [negb orb].
  destruct subAnswers as [| sa [| sb rest]].
  - intro H. apply ret_Ok in H. destruct H as [<- <-].
    cbn [List.length Nat.leb Synthesizer.answer Synthesizer.confidence
         nth_error option_map nullish].
    split; [reflexivity |]. split; [lia |].
    split; [reflexivity | discriminate].
  - intro H. cbn [List.length Nat.eqb] in H.
    apply ret_Ok in H. destruct H as [<- <-].
    cbn [List.length Nat.leb Synthesizer.answer Synthesizer.confidence].
    split; [reflexivity |]. split; [lia |].
    split.
    + intro Hex. apply Exists_cons in Hex.
      destruct Hex as [Hex | Hex]; [exact Hex | inversion Hex].
    + intro H. constructor; [now rewrite H | constructor].
  - set (l := sa :: sb :: rest).
    intro H. cbn [List.length Nat.eqb] in H.
    apply bind_Ok in H. destruct H as (response & w1 & Hcall & H).
    apply await_complete_Ok in Hcall. destruct Hcall as [_ ->].
    apply ret_Ok in H. destruct H as [<- <-].
    cbn [List.length Nat.leb Synthesizer.answer Synthesizer.confidence
         calls events].
    split; [reflexivity |].
    split; [unfold l; cbn [List.length]; lia |].
    split.
    + intro Hex. apply countConfidence_positive in Hex.
      unfold Synthesizer.calculateConfidence.
      destruct (Z.gtb_spec (Synthesizer.countConfidence low l) 0);
        [| lia].
      now rewrite orb_true_r.
    + destruct (JsString.truthy (fst (parseSynthesis (content response))))
        eqn:E.
      * intro H. rewrite H in E. discriminate.
      * apply fallbackSynthesis_empty.
Qed.

Lemma synthesize_enabled_witness :
  exists r w',
    Synthesizer.synthesize
      (Synthesizer.new
         (constantProvider (answers "Paris is larger than Lyon." high))
         Maker.noSynthesis)
      "Which is larger, Paris or Lyon?"
      [SubQuestionResult.mk "How large is Paris?" "2.1 million" high true
         (VotingStats.mk 3 3 0 3 3 3);
       SubQuestionResult.mk "How large is Lyon?" "0.5 million" low false
         (VotingStats.mk 100 100 0 50 0 3)]
      Maker.start = Ok r w'
    /\ Synthesizer.confidence r = low
    /\ callsBetween Maker.start w' = 1.
Proof.
  pose proof (synthesize_enabled
                (Synthesizer.new
                   (constantProvider
                      (answers "Paris is larger than Lyon." high))
                   Maker.noSynthesis)
                "Which is larger, Paris or Lyon?"
                [SubQuestionResult.mk "How large is Paris?" "2.1 million"
                   high true (VotingStats.mk 3 3 0 3 3 3);
                 SubQuestionResult.mk "How large is Lyon?" "0.5 million"
                   low false (VotingStats.mk 100 100 0 50 0 3)]
                Maker.start _ _ eq_refl ltac:(vm_compute; reflexivity))
    as (_ & Hcalls & Hlow & _).
  eexists. eexists. split; [vm_compute; reflexivity |].
  split; [| exact Hcalls].
  apply Hlow. constructor 2. now constructor 1.
Defined.

(** ** The orchestrator: cost, events and confidence of a run *)

Lemma processVote_total (e : VotingEngine.t) (flt : RedFlagFilter.t)
    (st : VotingEngine.LoopState) (vote : Vote.t) :
  match snd (VotingEngine.processVote e flt st vote) with
  | VotingEngine.Continue st' =>
      List.length (VotingEngine.allVotes st')
      = S (List.length (VotingEngine.allVotes st))
  | VotingEngine.Return r =>
      VotingStats.totalVotes (VotingResult.stats r)
      = Z.of_nat (S (List.length (VotingEngine.allVotes st)))
  end.
Proof.
  unfold VotingEngine.processVote.
  destruct (redFlagged _).
  { cbn [snd VotingEngine.allVotes]. rewrite length_app. simpl. lia. }
  destruct (negb _).
  { cbn [snd VotingEngine.allVotes]. rewrite length_app. simpl. lia. }
  cbn [snd]. set (st1 := VotingEngine.mkLoop _ _ _ _).
  assert (Hlen : List.length (VotingEngine.allVotes st1)
                 = S (List.length (VotingEngine.allVotes st))).
  { unfold st1. cbn [VotingEngine.allVotes]. rewrite length_app. simpl. lia. }
  destruct (decide_outcome e st1) as (maxCount & _ & Hout).
  { apply recordVote_nonempty. }
  destruct (VotingEngine.decide e st1) as [st' | r].
  - destruct Hout as [-> _]. exact Hlen.
  - destruct Hout as [-> _]. cbn [VotingStats.totalVotes]. now rewrite Hlen.
Qed.

Lemma voteLoop_cost (e : VotingEngine.t) (provider : LLMProvider)
    (question context : string) (flt : RedFlagFilter.t)
    (onVote : option VotingEngine.OnVote) (quiet : Event -> Prop) :
  (forall vote tally,
      Forall quiet
        (match onVote with Some f => f vote tally | None => [] end)) ->
  forall (fuel : nat) (st : VotingEngine.LoopState) (w w' : World)
         (r : VotingResult.t),
    VotingEngine.voteLoop fuel e provider question context flt onVote st w
    = Ok r w' ->
    VotingStats.totalVotes (VotingResult.stats r)
    = Z.of_nat (List.length (VotingEngine.allVotes st)) + callsBetween w w'
    /\ exists es, events w' = events w ++ es /\ Forall quiet es.
Proof.
  intros Hquiet fuel.
  induction fuel as [| fuel IH]; intros st w w' r Hrun; [discriminate |].
  rewrite voteLoop_step in Hrun. cbn zeta in Hrun.
  match type of Hrun with
  | context [VotingEngine.processVote e flt st ?v] =>
      pose proof (processVote_total e flt st v) as Htotal;
      set (vote := v) in *
  end.
  unfold callsBetween in *.
  destruct (snd (VotingEngine.processVote e flt st vote)) as [st' | r'].
  - apply IH in Hrun. destruct Hrun as (Hr & es & Hes & Hq).
    cbn [calls events] in Hr, Hes.
    split; [rewrite Hr, Htotal; lia |].
    eexists. split; [rewrite Hes, <- app_assoc; reflexivity |].
    apply Forall_app. split; [apply Hquiet | exact Hq].
  - injection Hrun as <- <-. cbn [calls events].
    split; [rewrite Htotal; lia |].
    eexists. split; [reflexivity | apply Hquiet].
Qed.

Lemma resolvedIn_app (a b : list Event) :
  resolvedIn (a ++ b) = resolvedIn a ++ resolvedIn b.
Proof. apply flat_map_app. Qed.

Lemma resolvedIn_quiet (es : list Event) :
  Forall (fun ev => resolvedIn [ev] = []) es -> resolvedIn es = [].
Proof.
  induction 1 as [| ev rest Hev _ IH]; [reflexivity |].
  change (ev :: rest) with ([ev] ++ rest).
  now rewrite resolvedIn_app, Hev, IH.
Qed.

Lemma onVote_quiet (index : Z) (vote : Vote.t) (tally : Tally) :
  Forall (fun ev => resolvedIn [ev] = []) (Maker.onVote index vote tally).
Proof.
  unfold Maker.onVote.
  repeat (constructor; [reflexivity |]).
  destruct (Vote.redFlagReason vote); [| constructor].
  destruct (nullish (Vote.redFlagged vote) false); repeat constructor.
Qed.

Lemma resolve_run (fuel : nat) (m : Maker.t) (options : option AskOptions)
    (index : Z) (sq : SubQuestion.t) (w w' : World)
    (sr : SubQuestionResult.t) :
  Maker.resolve fuel m options index sq w = Ok sr w' ->
  SubQuestionResult.question sr = SubQuestion.question sq
  /\ votesOf sr = callsBetween w w'
  /\ exists es, events w' = events w ++ es /\ resolvedIn es = [(index, sr)].
Proof.
  unfold Maker.resolve. intro H.
  apply bind_Ok in H. destruct H as (u0 & w0 & H0 & H).
  unfold emit in H0. injection H0 as _ <-.
  apply bind_Ok in H. destruct H as (r & w1 & Hvote & H).
  apply bind_Ok in H. destruct H as (u1 & w2 & H1 & H).
  unfold emit in H1. injection H1 as _ <-.
  apply bind_Ok in H. destruct H as (u2 & w3 & H2 & H).
  unfold emit in H2. injection H2 as _ <-.
  apply ret_Ok in H. destruct H as [<- <-].
  unfold VotingEngine.voteUntilConsensus in Hvote.
  eapply (voteLoop_cost _ _ _ _ _ _ (fun ev => resolvedIn [ev] = []))
    in Hvote.
  2:{ intros vote tally. apply onVote_quiet. }
  destruct Hvote as (Htotal & es & Hes & Hq).
  unfold callsBetween, votesOf in *.
  cbn [calls events SubQuestionResult.question
       SubQuestionResult.votingStats VotingEngine.initial
       VotingEngine.allVotes List.length] in *.
  split; [reflexivity |]. split; [rewrite Htotal; lia |].
  eexists. split.
  { rewrite Hes, <- !app_assoc. reflexivity. }
  rewrite !resolvedIn_app, (resolvedIn_quiet es Hq). reflexivity.
Qed.

Lemma resolveAll_run (fuel : nat) (m : Maker.t) (options : option AskOptions)
    (sqs : list SubQuestion.t) :
  forall (index : Z) (w w' : World) (srs : list SubQuestionResult.t),
    Maker.resolveAll fuel m options index sqs w = Ok srs w' ->
    map SubQuestionResult.question srs = map SubQuestion.question sqs
    /\ sumZ (map votesOf srs) = callsBetween w w'
    /\ exists es,
         events w' = events w ++ es
         /\ resolvedIn es = mapi (fun sr i => (i, sr)) index srs.
Proof.
  induction sqs as [| sq rest IH]; intros index w w' srs H; simpl in H.
  - apply ret_Ok in H. destruct H as [<- <-]. unfold callsBetween.
    split; [reflexivity |]. split; [simpl; lia |].
    exists []. split; [now rewrite app_nil_r | reflexivity].
  - apply bind_Ok in H. destruct H as (sr & w1 & Hone & H).
    apply bind_Ok in H. destruct H as (srs' & w2 & Hrest & H).
    apply ret_Ok in H. destruct H as [<- <-].
    apply resolve_run in Hone. destruct Hone as (Hq & Hv & es1 & He1 & Hr1).
    apply IH in Hrest. destruct Hrest as (Hqs & Hvs & es2 & He2 & Hr2).
    unfold callsBetween in *.
    split; [simpl; now rewrite Hq, Hqs |].
    split; [cbn [map sumZ fold_right]; fold (sumZ (map votesOf srs')); lia |].
    exists (es1 ++ es2).
    split; [now rewrite He2, He1, app_assoc |].
    rewrite resolvedIn_app, Hr1, Hr2. reflexivity.
Qed.

Lemma aggregateVotingStats_total (m : Maker.t)
    (srs : list SubQuestionResult.t) :
  VotingStats.totalVotes (Maker.aggregateVotingStats m srs)
  = sumZ (map votesOf srs).
Proof.
  unfold Maker.aggregateVotingStats.
  destruct srs as [| r [| r2 rs]].
  - reflexivity.
  - unfold votesOf. simpl. lia.
  - cbn [VotingStats.totalVotes]. rewrite fold_left_sumZ. unfold votesOf.
    lia.
Qed.

Lemma decompose_cost (d : Decomposer.t) (question : string)
    (context : option string) (w w' : World) (plan : Decomposer.Plan) :
  Decomposer.classifier d = Decomposer.Auto ->
  Decomposer.decompose d question context w = Ok plan w' ->
  events w' = events w
  /\ 0 <= callsBetween w w' <= 2
  /\ (Decomposer.enabled d = false ->
      callsBetween w w' = 0
      /\ List.length (Decomposer.subQuestions plan) = 1%nat).
Proof.
  intros Hauto. unfold Decomposer.decompose, Decomposer.classify.
  rewrite Hauto. unfold callsBetween.
  destruct (Decomposer.enabled d); cbn [negb].
  2:{ intro H. apply ret_Ok in H. destruct H as [<- <-].
      repeat split; lia. }
  intro H. apply bind_Ok in H. destruct H as (c & w1 & Hc & H).
  apply bind_Ok in Hc. destruct Hc as (r1 & w0 & Hr1 & Hc).
  apply ret_Ok in Hc. destruct Hc as [_ <-].
  apply await_complete_Ok in Hr1. destruct Hr1 as [_ ->].
  destruct (negb (Classification.needsDecomposition c)).
  { apply ret_Ok in H. destruct H as [_ <-]. cbn [calls events].
    repeat split; first [lia | discriminate]. }
  apply bind_Ok in H. destruct H as (r2 & w2 & Hr2 & H).
  apply await_complete_Ok in Hr2. destruct Hr2 as [_ ->].
  apply bind_Ok in H. destruct H as (parsed & w3 & Hparsed & H).
  apply sync_Ok in Hparsed. destruct Hparsed as [_ <-].
  cbn zeta in H.
  match type of H with
  | (if ?b then _ else _) _ = _ =>
      destruct b; apply ret_Ok in H; destruct H as [_ <-];
      cbn [calls events]; repeat split; first [lia | discriminate]
  end.
Qed.

Lemma synthesize_cost (s : Synthesizer.t) (originalQuestion : string)
    (subAnswers : list SubQuestionResult.t) (w w' : World)
    (r : Synthesizer.Synthesis) :
  Synthesizer.synthesize s originalQuestion subAnswers w = Ok r w' ->
  events w' = events w
  /\ 0 <= callsBetween w w' <= 1
  /\ ((List.length subAnswers <= 1)%nat -> callsBetween w w' = 0).
Proof.
  unfold Synthesizer.synthesize, callsBetween.
  destruct subAnswers as [| sa [| sb rest]]; cbn [List.length Nat.eqb].
  - rewrite orb_true_r.
    intro H. apply ret_Ok in H. destruct H as [_ <-]. repeat split; lia.
  - destruct (negb (Synthesizer.enabled s)); cbn [orb];
      intro H; apply ret_Ok in H; destruct H as [_ <-]; repeat split; lia.
  - destruct (negb (Synthesizer.enabled s)); cbn [orb]; intro H.
    + apply ret_Ok in H. destruct H as [_ <-]. repeat split; lia.
    + apply bind_Ok in H. destruct H as (r1 & w1 & Hr1 & H).
      apply await_complete_Ok in Hr1. destruct Hr1 as [_ ->].
      apply ret_Ok in H. destruct H as [_ <-]. cbn [calls events].
      repeat split; lia.
Qed.

Lemma ask_run (fuel : nat) (m : Maker.t) (question : string)
    (options : option AskOptions) (w w' : World) (result : MakerResult.t) :
  Maker.ask fuel m question options w = Ok result w' ->
  exists plan w1 w2 synthesis w3,
    Decomposer.decompose (Maker.decomposer m) question
      (Maker.chain options opt_context) w = Ok plan w1
    /\ Maker.resolveAll fuel m options 0 (Decomposer.subQuestions plan)
         (mkWorld (calls w1)
            ((events w1
              ++ [classificationComplete (Decomposer.classification plan)])
             ++ [decomposed (Decomposer.subQuestions plan)]))
       = Ok (MakerResult.subQuestions result) w2
    /\ Synthesizer.synthesize (Maker.synthesizer m) question
         (MakerResult.subQuestions result)
         (mkWorld (calls w2)
            (events w2 ++ [synthesisStart (MakerResult.subQuestions result)]))
       = Ok synthesis w3
    /\ MakerResult.answer result = Synthesizer.answer synthesis
    /\ MakerResult.confidence result
       = Maker.calculateOverallConfidence (MakerResult.subQuestions result)
           (Synthesizer.confidence synthesis)
    /\ MakerResult.consensusReached result
       = forallb SubQuestionResult.consensusReached
           (MakerResult.subQuestions result)
    /\ MakerResult.isDecomposed result
       = (1 <? List.length (Decomposer.subQuestions plan))%nat
    /\ MakerResult.votingStats result
       = Maker.aggregateVotingStats m (MakerResult.subQuestions result)
    /\ w' = mkWorld (calls w3)
              ((events w3
                ++ [synthesisComplete (MakerResult.answer result)])
               ++ [completeEvent result]).
Proof.
  unfold Maker.ask. intro H.
  apply bind_Ok in H. destruct H as (plan & w1 & Hplan & H).
  apply bind_Ok in H. destruct H as (u0 & w1a & H0 & H).
  unfold emit in H0. injection H0 as _ <-.
  apply bind_Ok in H. destruct H as (u1 & w1b & H1 & H).
  unfold emit in H1. injection H1 as _ <-.
  apply bind_Ok in H. destruct H as (srs & w2 & Hall & H).
  apply bind_Ok in H. destruct H as (u2 & w2a & H2 & H).
  unfold emit in H2. injection H2 as _ <-.
  apply bind_Ok in H. destruct H as (synthesis & w3 & Hsyn & H).
  apply bind_Ok in H. destruct H as (u3 & w3a & H3 & H).
  unfold emit in H3. injection H3 as _ <-.
  apply bind_Ok in H. destruct H as (u4 & w4 & H4 & H).
  unfold emit in H4. injection H4 as _ <-.
  apply ret_Ok in H. destruct H as [<- <-].
  exists plan, w1, w2, synthesis, w3.
  cbn [calls events MakerResult.subQuestions MakerResult.answer
       MakerResult.confidence MakerResult.consensusReached
       MakerResult.isDecomposed MakerResult.votingStats].
  repeat split; assumption || reflexivity.
Qed.

Lemma confidence_eqb_eq (a b : ConfidenceLevel) :
  confidence_eqb a b = true <-> a = b.
Proof. destruct a, b; simpl; split; intro H; congruence. Qed.

Lemma hasLowConfidence_iff (l : list SubQuestionResult.t) :
  existsb
    (fun r =>
       confidence_eqb (SubQuestionResult.confidence r) low
       || negb (SubQuestionResult.consensusReached r)) l = true
  <-> Exists
        (fun r =>
           SubQuestionResult.confidence r = low
           \/ SubQuestionResult.consensusReached r = false) l.
Proof.
  rewrite existsb_exists, Exists_exists.
  split; intros (x & Hin & Hx); exists x; (split; [exact Hin |]).
  - apply orb_true_iff in Hx. destruct Hx as [Hx | Hx].
    + left. now apply confidence_eqb_eq.
    + right. now apply negb_true_iff.
  - apply orb_true_iff. destruct Hx as [Hx | Hx].
    + left. now apply confidence_eqb_eq.
    + right. now apply negb_true_iff.
Qed.

Lemma calculateOverallConfidence_low (subResults : list SubQuestionResult.t)
    (synthesisConfidence : ConfidenceLevel) :
  Maker.calculateOverallConfidence subResults synthesisConfidence = low
  <-> subResults = []
      \/ synthesisConfidence = low
      \/ Exists
           (fun r =>
              SubQuestionResult.confidence r = low
              \/ SubQuestionResult.consensusReached r = false)
           subResults.
Proof.
  unfold Maker.calculateOverallConfidence.
  destruct subResults as [| r0 rs]; [cbn; tauto |].
  set (l := r0 :: rs). cbn [List.length Nat.eqb].
  pose proof (hasLowConfidence_iff l) as Hsome.
  destruct (existsb _ l) eqn:E.
  { cbn [orb]. split; [intros _ | reflexivity].
    right. right. now apply Hsome. }
  cbn [orb].
  assert (Hno : ~ Exists
                    (fun r =>
                       SubQuestionResult.confidence r = low
                       \/ SubQuestionResult.consensusReached r = false) l).
  { rewrite <- Hsome. discriminate. }
  destruct synthesisConfidence; cbn [confidence_eqb orb];
    try destruct (_ <? _)%nat; cbn [orb];
    (split;
     [ intro H; first [discriminate H | now right; left]
     | intros [H | [H | H]];
       first [discriminate H | contradiction | reflexivity] ]).
Qed.

Lemma calculateOverallConfidence_high (subResults : list SubQuestionResult.t)
    (synthesisConfidence : ConfidenceLevel) :
  Maker.calculateOverallConfidence subResults synthesisConfidence = high
  <-> subResults <> []
      /\ synthesisConfidence = high
      /\ Forall
           (fun r =>
              SubQuestionResult.confidence r <> low
              /\ SubQuestionResult.consensusReached r = true)
           subResults
      /\ 2 * countIf
               (fun r =>
                  confidence_eqb (SubQuestionResult.confidence r) medium)
               subResults
         <= Z.of_nat (List.length subResults).
Proof.
  unfold Maker.calculateOverallConfidence, countIf.
  destruct subResults as [| r0 rs].
  { split; [discriminate | intros (H & _); contradiction]. }
  set (l := r0 :: rs).
  assert (Hlen : (List.length l =? 0)%nat = false) by reflexivity.
  rewrite Hlen.
  pose proof (hasLowConfidence_iff l) as Hsome.
  destruct (existsb _ l) eqn:E.
  { cbn [orb]. split; [discriminate |].
    intros (_ & _ & Hall & _). exfalso.
    destruct Hsome as [Hsome _]. specialize (Hsome eq_refl).
    apply Exists_exists in Hsome. destruct Hsome as (x & Hin & Hx).
    rewrite Forall_forall in Hall. destruct (Hall x Hin) as [H1 H2].
    destruct Hx as [Hx | Hx]; congruence. }
  cbn [orb].
  assert (Hall : Forall
                   (fun r =>
                      SubQuestionResult.confidence r <> low
                      /\ SubQuestionResult.consensusReached r = true) l).
  { apply Forall_forall. intros x Hin.
    assert (Hx : ~ (SubQuestionResult.confidence x = low
                    \/ SubQuestionResult.consensusReached x = false)).
    { intro Hx.
      assert (Hex : false = true);
        [apply Hsome, Exists_exists; now exists x | discriminate Hex]. }
    split; [tauto |].
    destruct (SubQuestionResult.consensusReached x); tauto. }
  destruct synthesisConfidence; cbn [confidence_eqb orb];
    destruct (Nat.ltb_spec (List.length l)
                (2 * List.length
                        (filter
                           (fun r =>
                              confidence_eqb
                                (SubQuestionResult.confidence r) medium)
                           l))) as [Hm | Hm];
    cbn [orb];
    (split;
     [ intro H;
       first [ discriminate H
             | split; [discriminate |];
               split; [reflexivity |]; split; [exact Hall | lia] ]
     | intros (_ & H1 & _ & H3);
       first [discriminate H1 | lia | reflexivity] ]).
Qed.

(** X22: the overall confidence is [low] exactly when there are no
    sub-results, the synthesis is [low], or some sub-result is [low] or
    missed consensus; and it is [high] exactly when the synthesis is
    [high], every sub-result reached consensus with a confidence that is
    not [low], and at most half of the sub-results are [medium]. *)
Theorem calculateOverallConfidence_spec
    (subResults : list SubQuestionResult.t)
    (synthesisConfidence : ConfidenceLevel) :
  let result :=
    Maker.calculateOverallConfidence subResults synthesisConfidence in
  (result = low
   <-> subResults = []
       \/ synthesisConfidence = low
       \/ Exists
            (fun r =>
               SubQuestionResult.confidence r = low
               \/ SubQuestionResult.consensusReached r = false)
            subResults)
  /\ (result = high
      <-> subResults <> []
          /\ synthesisConfidence = high
          /\ Forall
               (fun r =>
                  SubQuestionResult.confidence r <> low
                  /\ SubQuestionResult.consensusReached r = true)
               subResults
          /\ 2 * countIf
                   (fun r =>
                      confidence_eqb (SubQuestionResult.confidence r) medium)
                   subResults
             <= Z.of_nat (List.length subResults)).
Proof.
  cbn zeta. split.
  - apply calculateOverallConfidence_low.
  - apply calculateOverallConfidence_high.
Qed.

Lemma synthesize_single (s : Synthesizer.t) (originalQuestion : string)
    (sa : SubQuestionResult.t) (w : World) :
  Synthesizer.synthesize s originalQuestion [sa] w
  = Ok (Synthesizer.mkSynthesis (SubQuestionResult.answer sa)
          (SubQuestionResult.confidence sa)) w.
Proof.
  unfold Synthesizer.synthesize.
  destruct (negb (Synthesizer.enabled s)); reflexivity.
Qed.

(** X23: when the result of [ask] says the question was not decomposed,
    there is exactly one sub-result and the result is that sub-result: its
    answer, its consensus flag and its voting statistics, with its
    confidence when consensus was reached and [low] otherwise. *)
Theorem ask_undecomposed (fuel : nat) (m : Maker.t) (question : string)
    (options : option AskOptions) (w w' : World) (result : MakerResult.t) :
  Maker.ask fuel m question options w = Ok result w' ->
  MakerResult.isDecomposed result = false ->
  exists sr,
    MakerResult.subQuestions result = [sr]
    /\ MakerResult.answer result = SubQuestionResult.answer sr
    /\ MakerResult.consensusReached result
       = SubQuestionResult.consensusReached sr
    /\ MakerResult.confidence result
       = (if SubQuestionResult.consensusReached sr
          then SubQuestionResult.confidence sr else low)
    /\ MakerResult.votingStats result = SubQuestionResult.votingStats sr.
Proof.
  intros Hrun Hone.
  destruct (ask_run _ _ _ _ _ _ _ Hrun)
    as (plan & w1 & w2 & synthesis & w3 & Hplan & Hall & Hsyn & Ha & Hc
        & Hcons & Hdec & Hstats & _).
  apply decompose_nonempty in Hplan.
  apply resolveAll_length in Hall.
  rewrite Hone in Hdec.
  destruct (MakerResult.subQuestions result) as [| sr [| sr2 rest]] eqn:E.
  - destruct (Decomposer.subQuestions plan); [contradiction | discriminate].
  - exists sr. rewrite synthesize_single in Hsyn.
    injection Hsyn as <- _.
    cbn [Synthesizer.answer Synthesizer.confidence] in Ha, Hc.
    split; [reflexivity |]. split; [exact Ha |].
    split; [rewrite Hcons; simpl; apply andb_true_r |].
    split; [| exact Hstats].
    rewrite Hc. destruct sr as [q a c reached stats].
    destruct c, reached; reflexivity.
  - exfalso. destruct (Decomposer.subQuestions plan) as [| a [| b c]];
      simpl in Hall, Hdec; discriminate.
Qed.

Lemma ask_undecomposed_witness :
  exists result w',
    Maker.ask 10
      (makerWith parisLondonParisParis decompositionOff
         (Some (mkVotingConfig (Some 2) None)))
      "What is the capital of France?" None Maker.start = Ok result w'
    /\ MakerResult.answer result = "Paris"
    /\ List.length (MakerResult.subQuestions result) = 1%nat.
Proof.
  pose proof (ask_undecomposed 10
                (makerWith parisLondonParisParis decompositionOff
                   (Some (mkVotingConfig (Some 2) None)))
                "What is the capital of France?" None Maker.start _ _
                ltac:(vm_compute; reflexivity) eq_refl)
    as (sr & Hsubs & Hanswer & _).
  eexists. eexists. split; [vm_compute; reflexivity |].
  split; [reflexivity |]. now rewrite Hsubs.
Defined.

(** X24: the oracle calls of a run of [ask] with the built-in classifier:
    the reported [totalVotes] is the sum of the votes of the sub-results,
    whatever their number; every call of the run is one of these votes or
    one of at most three other calls (classification, decomposition,
    synthesis); and with decomposition disabled there is no other call. *)
Theorem ask_calls (fuel : nat) (m : Maker.t) (question : string)
    (options : option AskOptions) (w w' : World) (result : MakerResult.t) :
  Decomposer.classifier (Maker.decomposer m) = Decomposer.Auto ->
  Maker.ask fuel m question options w = Ok result w' ->
  let votes := VotingStats.totalVotes (MakerResult.votingStats result) in
  votes = sumZ (map votesOf (MakerResult.subQuestions result))
  /\ votes <= callsBetween w w' <= votes + 3
  /\ (Decomposer.enabled (Maker.decomposer m) = false ->
      callsBetween w w' = votes).
Proof.
  intros Hauto Hrun. cbn zeta.
  destruct (ask_run _ _ _ _ _ _ _ Hrun)
    as (plan & w1 & w2 & synthesis & w3 & Hplan & Hall & Hsyn & _ & _
        & _ & _ & Hstats & ->).
  rewrite Hstats, aggregateVotingStats_total.
  pose proof Hplan as Hne. apply decompose_nonempty in Hne.
  apply (decompose_cost _ _ _ _ _ _ Hauto) in Hplan.
  destruct Hplan as (_ & Hd & Hoff).
  pose proof Hall as Hlen. apply resolveAll_length in Hlen.
  apply resolveAll_run in Hall. destruct Hall as (_ & Hvotes & _).
  apply synthesize_cost in Hsyn. destruct Hsyn as (_ & Hs & Hs1).
  unfold callsBetween in *. cbn [calls events] in *.
  split; [reflexivity |]. split; [lia |].
  intro Hdis. destruct (Hoff Hdis) as [Hzero Hone].
  rewrite Hone in Hlen.
  assert (Hsingle : (List.length (MakerResult.subQuestions result) <= 1)%nat)
    by lia.
  specialize (Hs1 Hsingle). lia.
Qed.

Lemma ask_calls_witness :
  exists result w',
    Maker.ask 10 (makerOf twoStepProvider (Some (mkVotingConfig (Some 2) None)))
      "Complex question?" None Maker.start = Ok result w'
    /\ VotingStats.totalVotes (MakerResult.votingStats result) = 4
    /\ callsBetween Maker.start w' = 7.
Proof.
  pose proof (ask_calls 10
                (makerOf twoStepProvider (Some (mkVotingConfig (Some 2) None)))
                "Complex question?" None Maker.start _ _ eq_refl
                ltac:(vm_compute; reflexivity)) as (Hsum & _).
  eexists. eexists. split; [vm_compute; reflexivity |].
  split; [exact Hsum | reflexivity].
Defined.

(** X25: the events of a run of [ask] with the built-in classifier are
    added after those already logged, in this order: first
    [classificationComplete] and [decomposed]; last [synthesisStart] with
    the sub-results, [synthesisComplete] with the final answer and
    [complete] with the very result that is returned; in between, the
    [subQuestionResolved] events report the sub-results of the result, one
    each, in order and under their positions, and these answer the
    sub-questions that [decomposed] announced. *)
Theorem ask_events (fuel : nat) (m : Maker.t) (question : string)
    (options : option AskOptions) (w w' : World) (result : MakerResult.t) :
  Decomposer.classifier (Maker.decomposer m) = Decomposer.Auto ->
  Maker.ask fuel m question options w = Ok result w' ->
  exists classification subQuestions voting,
    events w'
    = events w
      ++ [classificationComplete classification; decomposed subQuestions]
      ++ voting
      ++ [synthesisStart (MakerResult.subQuestions result);
          synthesisComplete (MakerResult.answer result);
          completeEvent result]
    /\ map SubQuestionResult.question (MakerResult.subQuestions result)
       = map SubQuestion.question subQuestions
    /\ resolvedIn voting
       = mapi (fun sr i => (i, sr)) 0 (MakerResult.subQuestions result).
Proof.
  intros Hauto Hrun.
  destruct (ask_run _ _ _ _ _ _ _ Hrun)
    as (plan & w1 & w2 & synthesis & w3 & Hplan & Hall & Hsyn & _ & _
        & _ & _ & _ & ->).
  apply (decompose_cost _ _ _ _ _ _ Hauto) in Hplan.
  destruct Hplan as (Hev1 & _).
  apply resolveAll_run in Hall.
  destruct Hall as (Hq & _ & voting & Hev2 & Hres).
  apply synthesize_cost in Hsyn. destruct Hsyn as (Hev3 & _).
  cbn [calls events] in *.
  exists (Decomposer.classification plan), (Decomposer.subQuestions plan),
    voting.
  split; [| split; [exact Hq | exact Hres]].
  rewrite Hev3, Hev2, Hev1. rewrite <- !app_assoc. reflexivity.
Qed.

Lemma ask_events_witness :
  exists result w',
    Maker.ask 10
      (makerWith parisLondonParisParis decompositionOff
         (Some (mkVotingConfig (Some 2) None)))
      "What is the capital of France?" None Maker.start = Ok result w'
    /\ exists classification subQuestions voting,
         events w'
         = [classificationComplete classification; decomposed subQuestions]
           ++ voting
           ++ [synthesisStart (MakerResult.subQuestions result);
               synthesisComplete (MakerResult.answer result);
               completeEvent result].
Proof.
  pose proof (ask_events 10
                (makerWith parisLondonParisParis decompositionOff
                   (Some (mkVotingConfig (Some 2) None)))
                "What is the capital of France?" None Maker.start _ _
                eq_refl ltac:(vm_compute; reflexivity))
    as (classification & subQuestions & voting & Hev & _).
  eexists. eexists. split; [vm_compute; reflexivity |].
  exists classification, subQuestions, voting. exact Hev.
Defined.

Lemma forallb_false_exists {A} (p : A -> bool) (l : list A) :
  forallb p l = false -> exists x, In x l /\ p x = false.
Proof.
  induction l as [| a r IH]; simpl; [discriminate |].
  intro H. apply andb_false_iff in H. destruct H as [H | H].
  - exists a. split; [now left | exact H].
  - destruct (IH H) as (x & Hin & Hx). exists x. split; [now right | exact Hx].
Qed.

(** X26: the confidence of the result of [ask] is [low] whenever some
    sub-question missed consensus or has a [low] confidence; so a result
    of [high] confidence reports consensus, and none of its sub-results is
    [low]. *)
Theorem ask_confidence (fuel : nat) (m : Maker.t) (question : string)
    (options : option AskOptions) (w w' : World) (result : MakerResult.t) :
  Maker.ask fuel m question options w = Ok result w' ->
  (MakerResult.consensusReached result = false ->
   MakerResult.confidence result = low)
  /\ (Exists (fun sr => SubQuestionResult.confidence sr = low)
        (MakerResult.subQuestions result) ->
      MakerResult.confidence result = low)
  /\ (MakerResult.confidence result = high ->
      MakerResult.consensusReached result = true
      /\ Forall (fun sr => SubQuestionResult.confidence sr <> low)
           (MakerResult.subQuestions result)).
Proof.
  intro Hrun.
  destruct (ask_run _ _ _ _ _ _ _ Hrun)
    as (plan & w1 & w2 & synthesis & w3 & _ & _ & _ & _ & Hc & Hcons & _).
  rewrite Hc, Hcons.
  split; [| split].
  - intro Hmiss. apply calculateOverallConfidence_low. right. right.
    apply Exists_exists. apply forallb_false_exists in Hmiss.
    destruct Hmiss as (x & Hin & Hx). exists x. split; [exact Hin | now right].
  - intro Hex. apply calculateOverallConfidence_low. right. right.
    apply Exists_exists. apply Exists_exists in Hex.
    destruct Hex as (x & Hin & Hx). exists x. split; [exact Hin | now left].
  - intro Hhigh. apply calculateOverallConfidence_high in Hhigh.
    destruct Hhigh as (_ & _ & Hall & _).
    rewrite Forall_forall in Hall.
    split.
    + apply forallb_forall. intros x Hin. now apply Hall.
    + apply Forall_forall. intros x Hin. now apply Hall.
Qed.

Lemma ask_confidence_witness :
  exists result w',
    Maker.ask 10
      (makerWith parisLondonParisParis decompositionOff
         (Some (mkVotingConfig (Some 2) None)))
      "What is the capital of France?" None Maker.start = Ok result w'
    /\ MakerResult.confidence result = high
    /\ MakerResult.consensusReached result = true.
Proof.
  pose proof (ask_confidence 10
                (makerWith parisLondonParisParis decompositionOff
                   (Some (mkVotingConfig (Some 2) None)))
                "What is the capital of France?" None Maker.start _ _
                ltac:(vm_compute; reflexivity)) as (_ & _ & Hhigh).
  eexists. eexists. split; [vm_compute; reflexivity |].
  split; [reflexivity |]. apply Hhigh. reflexivity.
Defined.

(** ** What reaches the tally *)

Lemma check_unparsed (f : RedFlagFilter.t) (answer : string) :
  redFlagged (RedFlagFilter.check f answer false) = true.
Proof.
  unfold RedFlagFilter.check.
  destruct (negb (JsString.truthy answer)); [reflexivity |].
  cbn zeta. destruct (_ >? _); [reflexivity |].
  destruct (_ <? _); reflexivity.
Qed.

Lemma check_empty (f : RedFlagFilter.t) (parseSucceeded : bool) :
  redFlagged (RedFlagFilter.check f "" parseSucceeded) = true.
Proof. reflexivity. Qed.

(** X27: a sample is counted in the tally only when its oracle call
    resolved to a structured response with an [answer] property that is
    not the empty string, and the vote then carries that answer verbatim
    and the response's confidence ([medium] when there is none).  A
    rejected call, a plain-text response and a response without an answer
    are never counted, whatever the filter's configuration. *)
Theorem only_structured_answers_are_counted (flt : RedFlagFilter.t)
    (provider : LLMProvider) (question context : string) (temperature : Q)
    (voteIndex : Z) (w w' : World) (vote : Vote.t) :
  VotingEngine.generateVote provider question context temperature voteIndex w
  = Ok vote w' ->
  discarded flt vote = false ->
  exists response o,
    complete provider (calls w)
      (mkRequest (PromptAnswer question context) temperature true)
    = Resolved response
    /\ content response = ContentObject o
    /\ obj_answer o = Some (Vote.answer vote)
    /\ Vote.answer vote <> ""%string
    /\ Vote.confidence vote = nullish (obj_confidence o) medium.
Proof.
  rewrite generateVote_run. intro H. injection H as <- _.
  unfold discarded, sampleOf. intro Hd.
  apply orb_false_iff in Hd. destruct Hd as [Hflag _].
  destruct (complete provider (calls w) _) as [response | error].
  2:{ cbn in Hflag. discriminate. }
  unfold VotingEngine.parseVote in *.
  destruct (content response) as [s | o |] eqn:Ec.
  - cbn [Vote.answer Vote.parseSucceeded nullish] in Hflag.
    rewrite check_unparsed in Hflag. discriminate.
  - destruct (obj_answer o) as [a |] eqn:Ea.
    + exists response, o. cbn [Vote.answer Vote.confidence].
      repeat split; try reflexivity; try assumption.
      intros ->. cbn [Vote.answer Vote.parseSucceeded nullish] in Hflag.
      rewrite check_empty in Hflag. discriminate.
    + cbn [Vote.answer Vote.parseSucceeded nullish] in Hflag.
      rewrite check_unparsed in Hflag. discriminate.
  - cbn [Vote.answer Vote.parseSucceeded nullish] in Hflag.
    rewrite check_unparsed in Hflag. discriminate.
Qed.

Lemma only_structured_answers_are_counted_witness :
  exists response o,
    complete parisLondonParisParis 0
      (mkRequest (PromptAnswer "What is the capital of France?" "") 0%Q true)
    = Resolved response
    /\ content response = ContentObject o
    /\ obj_answer o = Some "Paris".
Proof.
  destruct (only_structured_answers_are_counted RedFlagFilter.default
              parisLondonParisParis "What is the capital of France?" ""
              0%Q 0 Maker.start _ _ eq_refl eq_refl)
    as (response & o & Hcall & Hcontent & Hanswer & _).
  exists response, o. repeat split; assumption.
Defined.

(** ** One-shot scoring: who wins, and who wins a tie *)

Lemma find_split {A} (p : A -> bool) (l : list A) (x : A) :
  find p l = Some x ->
  exists l1 l2,
    l = l1 ++ x :: l2 /\ Forall (fun y => p y = false) l1.
Proof.
  induction l as [| a r IH]; [discriminate |].
  simpl. destruct (p a) eqn:E.
  - intro H. injection H as ->. exists [], r.
    split; [reflexivity | constructor].
  - intro H. destruct (IH H) as (l1 & l2 & -> & Hall).
    exists (a :: l1), l2. split; [reflexivity | now constructor].
Qed.

Lemma inOrderOfFirstVote_recordVote (t : Tally) (h : list Vote.t)
    (v : Vote.t) :
  represents t h ->
  inOrderOfFirstVote (map fst t) h ->
  inOrderOfFirstVote
    (map fst
       (VotingEngine.recordVote t
          (VotingEngine.normalizeAnswer (Vote.answer v)) v))
    (h ++ [v]).
Proof.
  intros Hrep Hord.
  set (key := VotingEngine.normalizeAnswer (Vote.answer v)).
  assert (Hgrow : forall earlier k later,
             map fst t = earlier ++ k :: later ->
             exists before first after,
               h ++ [v] = before ++ first :: after
               /\ VotingEngine.normalizeAnswer (Vote.answer first) = k
               /\ Forall
                    (fun v0 =>
                       In (VotingEngine.normalizeAnswer (Vote.answer v0))
                         earlier)
                    before).
  { intros earlier k later E.
    destruct (Hord earlier k later E)
      as (before & first & after & -> & Hk & Hb).
    exists before, first, (after ++ [v]).
    split; [now rewrite <- app_assoc | now split]. }
  destruct (in_dec string_dec key (map fst t)) as [Hold | Hnew].
  - rewrite recordVote_keys_old by exact Hold. exact Hgrow.
  - rewrite recordVote_keys_new by exact Hnew.
    rewrite map_app. cbn [map fst].
    intros earlier k later E.
    destruct later as [| k2 later'].
    + apply app_inj_tail in E. destruct E as [<- <-].
      exists h, v, []. split; [reflexivity |]. split; [reflexivity |].
      apply Forall_forall. intros v0 Hv0.
      apply (represents_key t h). { exact Hrep. } now exists v0.
    + assert (E' : map fst t = earlier ++ k :: removelast (k2 :: later')).
      { apply (f_equal (@removelast string)) in E.
        rewrite removelast_last in E. rewrite E.
        rewrite removelast_app by discriminate.
        change (k :: k2 :: later') with ([k] ++ k2 :: later').
        rewrite (removelast_app [k]) by discriminate. reflexivity. }
      exact (Hgrow _ _ _ E').
Qed.

Lemma countVotes_in_order (votes : list Vote.t) :
  inOrderOfFirstVote (map fst (VotingEngine.countVotes votes))
    (filter
       (fun v =>
          JsString.truthy (VotingEngine.normalizeAnswer (Vote.answer v)))
       votes).
Proof.
  induction votes as [| v vs IH] using rev_ind.
  - intros earlier key later E. destruct earlier; discriminate.
  - rewrite countVotes_snoc, filter_app. cbn [filter].
    destruct (JsString.truthy
                (VotingEngine.normalizeAnswer (Vote.answer v))) eqn:E;
      cbn [negb].
    + apply inOrderOfFirstVote_recordVote; [apply countVotes_represents |].
      exact IH.
    + now rewrite app_nil_r.
Qed.

Lemma bucket_app (key : string) (a b : list Vote.t) :
  bucket key (a ++ b) = bucket key a ++ bucket key b.
Proof. apply filter_app. Qed.

Lemma bucket_none (key : string) (h : list Vote.t) :
  (forall v, In v h ->
     VotingEngine.normalizeAnswer (Vote.answer v) <> key) ->
  bucket key h = [].
Proof.
  intro Hno. unfold bucket.
  induction h as [| v r IH]; [reflexivity |].
  simpl. destruct (String.eqb_spec
                     (VotingEngine.normalizeAnswer (Vote.answer v)) key)
    as [Heq | _].
  - exfalso. apply (Hno v); [now left | exact Heq].
  - apply IH. intros x Hx. apply Hno. now right.
Qed.

(** X28: when some vote is scored, [determineWinner] names as the winner
    the answer text of the first vote of a largest bucket, with the best
    confidence found in that bucket; and among several largest buckets it
    names the one whose first vote was cast first. *)
Theorem determineWinner_winner (e : VotingEngine.t) (votes : list Vote.t) :
  let r := VotingEngine.determineWinner e votes in
  let size key := List.length (bucket key (scored votes)) in
  scored votes <> [] ->
  exists key before first after others,
    scored votes = before ++ first :: after
    /\ bucket key (scored votes) = first :: others
    /\ VotingResult.winner r = Some (Vote.answer first)
    /\ (exists c,
           VotingResult.confidence r = Some c
           /\ best_confidence c (first :: others))
    /\ VotingStats.winningVoteCount (VotingResult.stats r)
       = Z.of_nat (size key)
    /\ (forall key', (size key' <= size key)%nat)
    /\ (forall key', size key' = size key -> bucket key' before = []).
Proof.
  cbn zeta. intro Hsome.
  set (valid := filter unmarked votes).
  set (h := scored votes) in *.
  pose proof (countVotes_represents valid) as Hrep.
  pose proof (countVotes_in_order valid) as Hord.
  change (filter _ valid) with h in Hrep, Hord.
  set (tally := VotingEngine.countVotes valid) in *.
  assert (Hvalid : valid <> []).
  { intro E. apply Hsome. unfold h, scored. fold valid. now rewrite E. }
  assert (Htally : tally <> []).
  { destruct h as [| v0 h'] eqn:Eh; [contradiction |].
    intro E.
    assert (Hin : In (VotingEngine.normalizeAnswer (Vote.answer v0))
                    (map fst tally)).
    { apply (represents_key tally (v0 :: h')); [exact Hrep |].
      exists v0. split; [now left | reflexivity]. }
    rewrite E in Hin. contradiction. }
  destruct (sortDesc VotingEngine.entryCount tally)
    as [| [key data] rest] eqn:Esorted.
  { exfalso.
    pose proof (sortDesc_length VotingEngine.entryCount tally) as Hl.
    rewrite Esorted in Hl. destruct tally; [contradiction | discriminate]. }
  destruct (sorted_entries_head _ _ _ Esorted) as (Hin & Hmax & _).
  pose proof (sortDesc_head_is_first_max _ _ _ _ Esorted) as Hfind.
  apply find_split in Hfind.
  destruct Hfind as (t1 & t2 & Esplit & Hbefore).
  destruct Hrep as (Hnd & Hkeys & Hrec).
  assert (Hcount : forall k d,
             In (k, d) tally ->
             VoteData.count d = Z.of_nat (List.length (bucket k h))).
  { intros k d Hkd. rewrite Forall_forall in Hrec.
    destruct (Hrec (k, d) Hkd) as (f0 & o0 & Hb & Hc & _).
    cbn [fst snd] in Hb, Hc. now rewrite Hb. }
  destruct (Hord (map fst t1) key (map fst t2)) as
    (before & first & after & Eh & Hkey & Hearlier).
  { rewrite Esplit, map_app. reflexivity. }
  assert (Hnot : ~ In key (map fst t1)).
  { rewrite Esplit, map_app in Hnd. cbn [map fst] in Hnd.
    apply NoDup_remove_2 in Hnd. intro Hk. apply Hnd.
    apply in_or_app. now left. }
  assert (Hfirst : bucket key before = []).
  { apply bucket_none. intros v Hv E.
    rewrite Forall_forall in Hearlier. apply Hnot.
    rewrite <- E. now apply Hearlier. }
  rewrite Forall_forall in Hrec.
  destruct (Hrec (key, data) Hin) as (first' & others & Hb & Hc & Ho & Hbest).
  cbn [fst snd] in Hb, Hc, Ho, Hbest.
  assert (Hsame : first' = first).
  { rewrite Eh, bucket_app, Hfirst in Hb. cbn [app] in Hb.
    unfold bucket in Hb. cbn [filter] in Hb.
    rewrite Hkey, String.eqb_refl in Hb. now injection Hb. }
  subst first'.
  exists key, before, first, after, others.
  split; [exact Eh |]. split; [exact Hb |].
  unfold VotingEngine.determineWinner.
  change (filter (fun v => negb (nullish (Vote.redFlagged v) false)) votes)
    with valid.
  fold tally.
  destruct valid as [| v1 valid'] eqn:Ev; [contradiction |].
  cbn [List.length Nat.eqb]. rewrite Esorted.
  cbn [VotingResult.winner VotingResult.confidence VotingResult.stats
       VotingEngine.createStats VotingStats.winningVoteCount].
  split; [now rewrite Ho |].
  split; [now exists (VoteData.confidence data) |].
  split; [now rewrite Hc, Hb |].
  assert (Hle : forall key',
             (List.length (bucket key' h) <= List.length (bucket key h))%nat).
  { intro key'.
    destruct (bucket key' h) as [| v0 b0] eqn:Eb; [simpl; lia |].
    assert (Hk' : In key' (map fst tally)).
    { assert (Hv0 : In v0 (bucket key' h)) by (rewrite Eb; now left).
      apply bucket_In in Hv0. destruct Hv0 as [Hv0 <-].
      now apply Hkeys. }
    apply in_map_iff in Hk'. destruct Hk' as ([k' d'] & Hfst & Hin').
    cbn [fst] in Hfst. subst k'.
    pose proof (Hcount key' d' Hin') as Hc'. rewrite Eb in Hc'.
    destruct Hmax as [_ Hmax]. rewrite Forall_forall in Hmax.
    assert (Hd' : VotingEngine.entryCount (key', d')
                  <= VotingEngine.entryCount (key, data)).
    { apply Hmax. apply in_map_iff. now exists (key', d'). }
    unfold VotingEngine.entryCount in Hd'. cbn [snd] in Hd'.
    rewrite Hc', Hc in Hd'. rewrite Hb. lia. }
  split; [exact Hle |].
  intros key' Htie. apply bucket_none. intros v Hv E.
  rewrite Forall_forall in Hearlier.
  pose proof (Hearlier v Hv) as Hk1. rewrite E in Hk1.
  apply in_map_iff in Hk1. destruct Hk1 as ([k' d'] & Hfst & Hin1).
  cbn [fst] in Hfst. subst k'.
  rewrite Forall_forall in Hbefore.
  pose proof (Hbefore (key', d') Hin1) as Hneq.
  assert (Hin' : In (key', d') tally).
  { rewrite Esplit. apply in_or_app. now left. }
  pose proof (Hcount key' d' Hin') as Hc'.
  unfold VotingEngine.entryCount in Hneq. cbn [snd] in Hneq.
  rewrite Hc', Hc, Htie, Hb, Z.eqb_refl in Hneq. discriminate.
Qed.

Lemma determineWinner_winner_witness :
  exists first,
    VotingResult.winner
      (VotingEngine.determineWinner (VotingEngine.new Maker.noVoting)
         [sample 0 "London" high; sample 1 "Paris" high;
          sample 2 "paris." medium; sample 3 "LONDON" low])
    = Some (Vote.answer first)
    /\ In first
         (scored
            [sample 0 "London" high; sample 1 "Paris" high;
             sample 2 "paris." medium; sample 3 "LONDON" low]).
Proof.
  destruct (determineWinner_winner (VotingEngine.new Maker.noVoting)
              [sample 0 "London" high; sample 1 "Paris" high;
               sample 2 "paris." medium; sample 3 "LONDON" low]
              ltac:(intro H; vm_compute in H; discriminate H))
    as (key & before & first & after & others & Eh & _ & Hw & _).
  exists first. split; [exact Hw |].
  rewrite Eh. apply in_elt.
Defined.

Example determineWinner_tie :
  VotingResult.winner
    (VotingEngine.determineWinner (VotingEngine.new Maker.noVoting)
       [sample 0 "London" high; sample 1 "Paris" high;
        sample 2 "paris." medium; sample 3 "LONDON" low])
  = Some "London".
Proof. vm_compute. reflexivity. Qed.

(** ** Progress events: one per vote *)

Lemma collectedIn_app (a b : list Event) :
  collectedIn (a ++ b) = collectedIn a ++ collectedIn b.
Proof. apply flat_map_app. Qed.

Lemma onVote_collected (index : Z) (vote : Vote.t) (tally : Tally) :
  collectedIn (Maker.onVote index vote tally)
  = [(index, Vote.voteIndex vote)].
Proof.
  unfold Maker.onVote. rewrite collectedIn_app.
  destruct (Vote.redFlagReason vote); [| reflexivity].
  destruct (nullish (Vote.redFlagged vote) false); reflexivity.
Qed.

Lemma sampleOf_voteIndex (outcome : Completion) (temperature : Q)
    (voteIndex : Z) :
  Vote.voteIndex (sampleOf outcome temperature voteIndex) = voteIndex.
Proof.
  unfold sampleOf, VotingEngine.parseVote.
  destruct outcome as [response |]; [| reflexivity].
  destruct (content response) as [s | o |]; try reflexivity.
  destruct (obj_answer o); reflexivity.
Qed.

Lemma processVote_indices (e : VotingEngine.t) (flt : RedFlagFilter.t)
    (st : VotingEngine.LoopState) (vote : Vote.t) :
  Vote.voteIndex (fst (fst (VotingEngine.processVote e flt st vote)))
  = Vote.voteIndex vote
  /\ match snd (VotingEngine.processVote e flt st vote) with
     | VotingEngine.Continue st' =>
         VotingEngine.voteIndex st' = VotingEngine.voteIndex st + 1
     | VotingEngine.Return _ => True
     end.
Proof.
  unfold VotingEngine.processVote.
  destruct (redFlagged _); [now split |].
  destruct (negb _); [now split |].
  cbn [fst snd]. split; [reflexivity |].
  set (st1 := VotingEngine.mkLoop _ _ _ _).
  destruct (decide_outcome e st1) as (maxCount & _ & Hout).
  { apply recordVote_nonempty. }
  destruct (VotingEngine.decide e st1) as [st' | r]; [| exact I].
  destruct Hout as [-> _]. reflexivity.
Qed.

Lemma voteLoop_collected (e : VotingEngine.t) (provider : LLMProvider)
    (question context : string) (flt : RedFlagFilter.t) (index : Z) :
  forall (fuel : nat) (st : VotingEngine.LoopState) (w w' : World)
         (r : VotingResult.t),
    VotingEngine.voteLoop fuel e provider question context flt
      (Some (Maker.onVote index)) st w = Ok r w' ->
    (calls w <= calls w')%nat
    /\ exists es,
         events w' = events w ++ es
         /\ collectedIn es
            = map (fun i => (index, VotingEngine.voteIndex st + Z.of_nat i))
                (seq 0 (calls w' - calls w)).
Proof.
  induction fuel as [| fuel IH]; intros st w w' r Hrun; [discriminate |].
  rewrite voteLoop_step in Hrun. cbn zeta in Hrun.
  match type of Hrun with
  | context [VotingEngine.processVote e flt st ?v] =>
      pose proof (processVote_indices e flt st v) as [Hshown Hnext];
      rewrite sampleOf_voteIndex in Hshown;
      set (vote := v) in *
  end.
  destruct (snd (VotingEngine.processVote e flt st vote)) as [st' | r'].
  - apply IH in Hrun. destruct Hrun as (Hle & es & Hes & Hcol).
    cbn [calls events] in Hle, Hes, Hcol.
    split; [lia |].
    eexists. split; [rewrite Hes, <- app_assoc; reflexivity |].
    rewrite collectedIn_app, onVote_collected, Hshown, Hcol.
    replace (calls w' - calls w)%nat with (S (calls w' - S (calls w)))
      by lia.
    cbn [seq map app]. rewrite Z.add_0_r. f_equal.
    rewrite <- seq_shift, map_map. apply map_ext. intro i.
    rewrite Hnext. f_equal. lia.
  - injection Hrun as <- <-. cbn [calls events].
    split; [lia |].
    eexists. split; [reflexivity |].
    rewrite onVote_collected, Hshown.
    replace (S (calls w) - calls w)%nat with 1%nat by lia.
    cbn [seq map]. now rewrite Z.add_0_r.
Qed.

Lemma resolve_collected (fuel : nat) (m : Maker.t)
    (options : option AskOptions) (index : Z) (sq : SubQuestion.t)
    (w w' : World) (sr : SubQuestionResult.t) :
  Maker.resolve fuel m options index sq w = Ok sr w' ->
  exists es, events w' = events w ++ es /\ collectedIn es = ballots sr index.
Proof.
  intro Hrun.
  pose proof (resolve_run _ _ _ _ _ _ _ _ Hrun) as (_ & Hvotes & _).
  unfold Maker.resolve in Hrun.
  apply bind_Ok in Hrun. destruct Hrun as (u0 & w0 & H0 & H).
  unfold emit in H0. injection H0 as _ <-.
  apply bind_Ok in H. destruct H as (r & w1 & Hvote & H).
  apply bind_Ok in H. destruct H as (u1 & w2 & H1 & H).
  unfold emit in H1. injection H1 as _ <-.
  apply bind_Ok in H. destruct H as (u2 & w3 & H2 & H).
  unfold emit in H2. injection H2 as _ <-.
  apply ret_Ok in H. destruct H as [Hsr <-].
  unfold VotingEngine.voteUntilConsensus in Hvote.
  apply voteLoop_collected in Hvote.
  destruct Hvote as (Hle & es & Hes & Hcol).
  cbn [calls events VotingEngine.initial VotingEngine.voteIndex] in *.
  eexists. split.
  { rewrite Hes, <- !app_assoc. reflexivity. }
  rewrite !collectedIn_app, Hcol. cbn [collectedIn flat_map app].
  rewrite app_nil_r. unfold ballots. rewrite Hvotes. unfold callsBetween.
  cbn [calls].
  replace (Z.to_nat (Z.of_nat (calls w1) - Z.of_nat (calls w)))
    with (calls w1 - calls w)%nat by lia.
  apply map_ext. intro i. f_equal.
Qed.

Lemma resolveAll_collected (fuel : nat) (m : Maker.t)
    (options : option AskOptions) (sqs : list SubQuestion.t) :
  forall (index : Z) (w w' : World) (srs : list SubQuestionResult.t),
    Maker.resolveAll fuel m options index sqs w = Ok srs w' ->
    exists es,
      events w' = events w ++ es
      /\ collectedIn es = List.concat (mapi ballots index srs).
Proof.
  induction sqs as [| sq rest IH]; intros index w w' srs H; simpl in H.
  - apply ret_Ok in H. destruct H as [<- <-].
    exists []. split; [now rewrite app_nil_r | reflexivity].
  - apply bind_Ok in H. destruct H as (sr & w1 & Hone & H).
    apply bind_Ok in H. destruct H as (srs' & w2 & Hrest & H).
    apply ret_Ok in H. destruct H as [<- <-].
    apply resolve_collected in Hone. destruct Hone as (es1 & He1 & Hc1).
    apply IH in Hrest. destruct Hrest as (es2 & He2 & Hc2).
    exists (es1 ++ es2).
    split; [now rewrite He2, He1, app_assoc |].
    rewrite collectedIn_app, Hc1, Hc2. reflexivity.
Qed.

(** X29: a run of [ask] with the built-in classifier reports every vote
    once: the [voteCollected] events it adds to the log are, sub-question
    after sub-question in the order of the sub-results, one event for each
    of the votes the sub-result accounts for, numbered from 0. *)
Theorem ask_reports_every_vote (fuel : nat) (m : Maker.t) (question : string)
    (options : option AskOptions) (w w' : World) (result : MakerResult.t) :
  Decomposer.classifier (Maker.decomposer m) = Decomposer.Auto ->
  Maker.ask fuel m question options w = Ok result w' ->
  collectedIn (events w')
  = collectedIn (events w)
    ++ List.concat (mapi ballots 0 (MakerResult.subQuestions result)).
Proof.
  intros Hauto Hrun.
  destruct (ask_run _ _ _ _ _ _ _ Hrun)
    as (plan & w1 & w2 & synthesis & w3 & Hplan & Hall & Hsyn & _ & _
        & _ & _ & _ & ->).
  apply (decompose_cost _ _ _ _ _ _ Hauto) in Hplan.
  destruct Hplan as (Hev1 & _).
  apply resolveAll_collected in Hall. destruct Hall as (es & Hev2 & Hcol).
  apply synthesize_cost in Hsyn. destruct Hsyn as (Hev3 & _).
  cbn [calls events] in *.
  rewrite Hev3, Hev2, Hev1, !collectedIn_app, Hcol.
  cbn [collectedIn flat_map app]. now rewrite !app_nil_r.
Qed.

Lemma ask_reports_every_vote_witness :
  exists result w',
    Maker.ask 10 (makerOf twoStepProvider (Some (mkVotingConfig (Some 2) None)))
      "Complex question?" None Maker.start = Ok result w'
    /\ collectedIn (events w') = [(0, 0); (0, 1); (1, 0); (1, 1)].
Proof.
  pose proof (ask_reports_every_vote 10
                (makerOf twoStepProvider (Some (mkVotingConfig (Some 2) None)))
                "Complex question?" None Maker.start _ _ eq_refl
                ltac:(vm_compute; reflexivity)) as H.
  eexists. eexists. split; [vm_compute; reflexivity |].
  rewrite H. reflexivity.
Defined.
